(** * Jbeil: self-supervised training driver and dataset re-indexing

    A shallow embedding of [train_self_supervised.py] and
    [utils/preprocess_data.py].  Python integers are [Z], Python floats are
    IEEE binary64 values ([spec_float] at precision 53), numpy arrays and
    torch tensors of rank one are lists, exceptions are the [Err] branch of
    [Result].  The neural model, the evaluator, the samplers and the early
    stopping monitor live outside these two files; they enter through the
    [Collaborators] interface of module [Train]. *)

From Stdlib Require Import String ZArith List Bool Lia SpecFloat FinFun Finite.
Import ListNotations.
Open Scope string_scope.
Open Scope Z_scope.
Open Scope list_scope.

(** ** Python prelude *)

Module Py.

Inductive exn : Type :=
| ValueError (msg : string)
| ZeroDivisionError
| OverflowError
| AttributeError
| NameError
| AssertionError
| RuntimeError
| IndexError
| FileNotFoundError.

Inductive Result (A : Type) : Type :=
| Ok (a : A)
| Err (e : exn).
Arguments Ok {A} a.
Arguments Err {A} e.

Definition bind {A B} (r : Result A) (k : A -> Result B) : Result B :=
  match r with
  | Ok a => k a
  | Err e => Err e
  end.

Notation "x <- c ;; k" := (bind c (fun x => k))
  (at level 61, c at next level, right associativity).

Definition len {A} (l : list A) : Z := Z.of_nat (length l).

(** [range(start, stop, step)], with CPython's length computation. *)
Definition range_len (start stop step : Z) : Z :=
  if 0 <? step then
    if start <? stop then (stop - start - 1) / step + 1 else 0
  else
    if stop <? start then (start - stop - 1) / (- step) + 1 else 0.

Definition range3 (start stop step : Z) : Result (list Z) :=
  if step =? 0 then Err (ValueError "range() arg 3 must not be zero")
  else Ok (map (fun i => start + Z.of_nat i * step)
               (seq 0 (Z.to_nat (range_len start stop step)))).

(** [range(start, stop)] and [range(stop)]: the step is 1. *)
Definition range2 (start stop : Z) : list Z :=
  map (fun i => start + Z.of_nat i) (seq 0 (Z.to_nat (stop - start))).

Definition range1 (stop : Z) : list Z := range2 0 stop.

(** [a[start:stop]] on a sequence: negative bounds count from the end and
    both bounds are clamped to the length. *)
Definition slice_bound (n i : Z) : Z :=
  if i <? 0 then Z.max 0 (i + n) else Z.min i n.

Definition slice {A} (l : list A) (start stop : Z) : list A :=
  let a := slice_bound (len l) start in
  let b := slice_bound (len l) stop in
  firstn (Z.to_nat (b - a)) (skipn (Z.to_nat a) l).

(** *** binary64 *)

Definition prec : Z := 53.
Definition emax : Z := 1024.

Definition float : Type := spec_float.

(** int -> float conversion as performed by [int * float]. *)
Definition float_of_int (n : Z) : float := binary_normalize prec emax n 0 false.

Definition fmul (x y : float) : float := SFmul prec emax x y.
Definition fsub (x y : float) : float := SFsub prec emax x y.

(** The literals [0.3] = 0x1.3333333333333p-2 and [0.5]. *)
Definition f0_3 : float := S754_finite false 5404319552844595 (-54).
Definition f0_5 : float := S754_finite false 4503599627370496 (-53).

(** [int(x)]: truncation toward zero; infinities and NaN raise. *)
Definition int_of_float (x : float) : Result Z :=
  match x with
  | S754_zero _ => Ok 0
  | S754_finite s m e =>
      let a := match e with
               | Z0 => Zpos m
               | Zpos _ => Zpos m * 2 ^ e
               | Zneg _ => Zpos m / 2 ^ (- e)
               end in
      Ok (if s then - a else a)
  | S754_infinity _ => Err OverflowError
  | S754_nan => Err (ValueError "cannot convert float NaN to integer")
  end.

(** [a / b] on ints: the quotient rounded to the nearest binary64 value,
    ties to even ([long_true_divide]).  [p] is the exponent of the quotient,
    [2^(p-1) <= |a / b| < 2^p], and [e] the exponent of its last mantissa
    bit; [q] and [r] are the mantissa before rounding and what is left of
    the dividend. *)
Definition bit_length (n : Z) : Z :=
  if n =? 0 then 0 else Z.log2 (Z.abs n) + 1.

Definition shl (z k : Z) : Z := z * 2 ^ Z.max 0 k.

Definition true_div (a b : Z) : Result float :=
  if b =? 0 then Err ZeroDivisionError
  else
    let s := xorb (a <? 0) (b <? 0) in
    if a =? 0 then Ok (S754_zero s)
    else
      let x := Z.abs a in
      let y := Z.abs b in
      let d := bit_length x - bit_length y in
      let p := if shl x (- d) <? shl y d then d else d + 1 in
      let e := Z.max p (-1021) - 53 in
      let num := shl x (- e) in
      let den := shl y e in
      let q := num / den in
      let r := num mod den in
      let m := if 2 * r <? den then q
               else if den <? 2 * r then q + 1
               else if Z.even q then q else q + 1 in
      let (m, e) := if m =? 2 ^ 53 then (2 ^ 52, e + 1) else (m, e) in
      if m =? 0 then Ok (S754_zero s)
      else if 971 <? e then Err OverflowError
      else Ok (S754_finite s (Z.to_pos m) e).

(** [math.ceil(x)] on a float: an exact int; infinities and NaN raise. *)
Definition math_ceil (x : float) : Result Z :=
  match x with
  | S754_zero _ => Ok 0
  | S754_finite s m e =>
      let v := if s then Zneg m else Zpos m in
      Ok (if 0 <=? e then v * 2 ^ e else - ((- v) / 2 ^ (- e)))
  | S754_infinity _ => Err OverflowError
  | S754_nan => Err (ValueError "cannot convert float NaN to integer")
  end.

(** [math.ceil(a / b)] on ints, through the binary64 quotient. *)
Definition ceil_true_div (a b : Z) : Result Z :=
  q <- true_div a b ;; math_ceil q.

(** The exact ceiling of [a / b].  For [0 <= a < 2^53] and [0 < b < 2^53]
    the binary64 quotient never rounds across an integer and
    [ceil_true_div] returns this value. *)
Definition ceil_div (a b : Z) : Result Z :=
  if b =? 0 then Err ZeroDivisionError else Ok (- ((- a) / b)).

End Py.

Import Py.

(** ** Inductive experiments ([train_self_supervised.py], lines 120-186) *)

Module Select.

(** The per-edge arrays of a [Data] object. *)
Record Data : Type := mkData {
  sources : list Z;
  destinations : list Z;
  timestamps : list float;
  edge_idxs : list Z;
  labels : list float
}.

(** The process-wide [random] module, seeded at import time.  The script
    samples from a [set], which [random.sample] accepts up to Python 3.10. *)
Class RandomSource : Type := {
  rng : Type;
  random_sample : rng -> list Z -> Z -> Result (list Z)
}.

(** [random.sample(population, k)] returns [k] distinct members of the
    population in some order, and raises [ValueError] when [k] is negative
    or exceeds the population. *)
Definition sample_spec (RS : RandomSource) : Prop :=
  (forall g pop k,
     NoDup pop -> 0 <= k <= len pop ->
     exists s, random_sample g pop k = Ok s /\
               len s = k /\ NoDup s /\ incl s pop) /\
  (forall g pop k,
     ~ (0 <= k <= len pop) ->
     random_sample g pop k =
       Err (ValueError "Sample larger than population or is negative")).

Definition OPTC_MALICIOUS_SRC_NODES : list Z := [201; 402; 501].
Definition LANL_MALICIOUS_SRC_NODES : list Z := [9660; 9910; 10957; 12637].

Definition mem (x : Z) (l : list Z) : bool := existsb (Z.eqb x) l.

(** [set(range(1, nb_nodes)) - set(excluded)] as a duplicate-free list. *)
Definition set_difference (population excluded : list Z) : list Z :=
  filter (fun x => negb (mem x excluded)) population.

(** [int(nb_nodes * p)] *)
Definition percent_of (nb_nodes : Z) (p : float) : Result Z :=
  int_of_float (fmul (float_of_int nb_nodes) p).

(** [sample[:len(values)] = torch.tensor(values)]: the slice holds
    [min(len(values), len(sample))] entries and the right-hand side must have
    as many, a single value apart, which is broadcast. *)
Definition assign_prefix (sample values : list Z) : Result (list Z) :=
  let k := Nat.min (length values) (length sample) in
  if Nat.eqb (length values) k then Ok (values ++ skipn k sample)
  else match values with
       | [v] => Ok (repeat v k ++ skipn k sample)
       | _ => Err RuntimeError
       end.

Section WithGlobals.

Context {RS : RandomSource}.

(** The module-level global [malicious_src_nodes]. *)
Variable malicious_src_nodes : list Z.
Variable g : rng.

Definition eq_str (tag : option string) (s : string) : bool :=
  match tag with
  | Some t => String.eqb t s
  | None => false
  end.

(** [compute_inductive_nodes]; [args.exp] is [None] when the option is not
    given on the command line. *)
Definition compute_inductive_nodes (inductive_experiment : option string)
    (nb_nodes : Z) : Result (option (list Z)) :=
  if eq_str inductive_experiment "None" then Ok None
  else if eq_str inductive_experiment "Exp1" then
    percent <- percent_of nb_nodes f0_3 ;;
    let available_nodes :=
      set_difference (range2 1 nb_nodes) malicious_src_nodes in
    sample <- random_sample g available_nodes percent ;;
    Ok (Some sample)
  else if eq_str inductive_experiment "Exp2" then
    percent <- percent_of nb_nodes f0_3 ;;
    let available_nodes := range2 1 nb_nodes in
    sample <- random_sample g available_nodes percent ;;
    sample <- assign_prefix sample malicious_src_nodes ;;
    Ok (Some sample)
  else if eq_str inductive_experiment "Exp3" then
    percent <- percent_of nb_nodes f0_5 ;;
    let available_nodes := range2 1 nb_nodes in
    sample <- random_sample g available_nodes percent ;;
    sample <- assign_prefix sample malicious_src_nodes ;;
    Ok (Some sample)
  else Err (ValueError "Invalid experiment name.").

End WithGlobals.

(** [(torch.tensor(xs).unsqueeze(1) == sample).any(1)] *)
Definition any_eq (xs sample : list Z) : list bool :=
  map (fun x => mem x sample) xs.

(** [a | b] on rank-one boolean tensors, with broadcasting of a length-one
    operand. *)
Definition tensor_or (a b : list bool) : Result (list bool) :=
  if Nat.eqb (length a) (length b) then
    Ok (map (fun p => orb (fst p) (snd p)) (combine a b))
  else match a, b with
       | [x], _ => Ok (map (orb x) b)
       | _, [y] => Ok (map (fun x => orb x y) a)
       | _, _ => Err RuntimeError
       end.

Fixpoint select {A} (l : list A) (keep : list bool) : list A :=
  match l, keep with
  | x :: l', b :: keep' => if b then x :: select l' keep' else select l' keep'
  | _, _ => []
  end.

(** What [arr[index]] gives on a rank-one array: an array, or one element
    as a 0-dim scalar. *)
Inductive item (A : Type) : Type :=
| Array (l : list A)
| Scalar (a : A).
Arguments Array {A} l.
Arguments Scalar {A} a.

(** [arr[keep]], a numpy array indexed by a torch boolean tensor.  numpy
    first asks the index object for an integer, and a tensor of exactly one
    element answers: [True] is position 1 and [False] is position 0.  A
    tensor of two or more elements is converted to a boolean mask, which
    must be as long as the array.  An empty tensor is converted to an empty
    list of positions and selects nothing, whatever the length of the
    array. *)
Definition bool_index {A} (arr : list A) (keep : list bool)
    : Result (item A) :=
  match keep with
  | [] => Ok (Array [])
  | [b] =>
      match nth_error arr (if b then 1 else 0)%nat with
      | Some a => Ok (Scalar a)
      | None => Err IndexError
      end
  | _ =>
      if Nat.eqb (length arr) (length keep) then Ok (Array (select arr keep))
      else Err IndexError
  end.

(** The [Data] object after its five attributes have been assigned what the
    indexing returned. *)
Record Indexed : Type := mkIndexed {
  new_sources : item Z;
  new_destinations : item Z;
  new_timestamps : item float;
  new_edge_idxs : item Z;
  new_labels : item float
}.

(** [apply_inductive_experiment].  With [inductive_nodes = None] the
    comparison [tensor == None] is the Python bool [False], which has no
    method [any]. *)
Definition apply_inductive_experiment (data : Data)
    (inductive_nodes : option (list Z)) : Result Indexed :=
  match inductive_nodes with
  | None => Err AttributeError
  | Some sample =>
      mask <- tensor_or (any_eq (sources data) sample)
                        (any_eq (destinations data) sample) ;;
      let keep_edges := map negb mask in
      sources' <- bool_index (sources data) keep_edges ;;
      destinations' <- bool_index (destinations data) keep_edges ;;
      labels' <- bool_index (labels data) keep_edges ;;
      timestamps' <- bool_index (timestamps data) keep_edges ;;
      edge_idxs' <- bool_index (edge_idxs data) keep_edges ;;
      Ok (mkIndexed sources' destinations' timestamps' edge_idxs' labels')
  end.

(** Lines 178-186: the globals are chosen by the dataset name, then the
    training split is filtered. *)
Definition malicious_src_nodes_of (data : string) : list Z :=
  if String.eqb data "OPTC" then OPTC_MALICIOUS_SRC_NODES
  else LANL_MALICIOUS_SRC_NODES.

Definition nb_nodes_of (data : string) : Z :=
  if String.eqb data "OPTC" then 975 else 15611.

Definition exclude_inductive_nodes {RS : RandomSource} (g : rng)
    (args_data : string) (args_exp : option string) (train_data : Data)
    : Result Indexed :=
  inductive_nodes <- compute_inductive_nodes (malicious_src_nodes_of args_data)
                       g args_exp (nb_nodes_of args_data) ;;
  apply_inductive_experiment train_data inductive_nodes.

(** The rows of a [Data] object, when its arrays are aligned. *)
Definition edge : Type := Z * Z * float * Z * float.

Definition edges (d : Data) : list edge :=
  combine (combine (combine (combine (sources d) (destinations d))
                            (timestamps d)) (edge_idxs d)) (labels d).

Definition src (e : edge) : Z := fst (fst (fst (fst e))).
Definition dst (e : edge) : Z := snd (fst (fst (fst e))).

(** A result whose five attributes are arrays, and one whose five
    attributes are the fields of one row. *)
Definition arrays (d : Data) : Indexed :=
  mkIndexed (Array (sources d)) (Array (destinations d))
            (Array (timestamps d)) (Array (edge_idxs d)) (Array (labels d)).

Definition scalars (e : edge) : Indexed :=
  mkIndexed (Scalar (src e)) (Scalar (dst e))
            (Scalar (snd (fst (fst e)))) (Scalar (snd (fst e)))
            (Scalar (snd e)).

Definition aligned (d : Data) : Prop :=
  length (destinations d) = length (sources d) /\
  length (timestamps d) = length (sources d) /\
  length (edge_idxs d) = length (sources d) /\
  length (labels d) = length (sources d).

Definition touches (sample : list Z) (e : edge) : bool :=
  mem (src e) sample || mem (dst e) sample.

(** A random source that returns the first [k] members of the population. *)
Definition first_k (_ : unit) (pop : list Z) (k : Z) : Result (list Z) :=
  if (0 <=? k) && (k <=? len pop) then Ok (firstn (Z.to_nat k) pop)
  else Err (ValueError "Sample larger than population or is negative").

Definition first_k_source : RandomSource :=
  {| rng := unit; random_sample := first_k |}.

(** The fraction of nodes removed by each experiment. *)
Definition fraction_of (tag : string) : option float :=
  if String.eqb tag "Exp1" then Some f0_3
  else if String.eqb tag "Exp2" then Some f0_3
  else if String.eqb tag "Exp3" then Some f0_5
  else None.

End Select.

(** ** Dataset re-indexing ([utils/preprocess_data.py], lines 43-61) *)

Module Preprocess.

(** A row of the dataframe built by [preprocess]: columns [u], [i], [ts],
    [label], [idx].  A dataframe is the list of its rows, in row order.  The
    integer columns are int64 cells in pandas, whose sums wrap silently at
    2^63: [reindex] below computes on exact integers and [reindex_int64] on
    the cells; the two agree as long as no sum leaves the int64 range. *)
Record row : Type := mkRow {
  u : Z;
  i : Z;
  ts : float;
  label : float;
  idx : Z
}.

Definition DataFrame : Type := list row.

Definition column {A} (f : row -> A) (df : DataFrame) : list A := map f df.

(** [Series.max()] and [Series.min()]: [None] stands for the NaN that pandas
    returns on an empty column. *)
Definition series_max (s : list Z) : option Z :=
  match s with
  | [] => None
  | x :: t => Some (fold_left Z.max t x)
  end.

Definition series_min (s : list Z) : option Z :=
  match s with
  | [] => None
  | x :: t => Some (fold_left Z.min t x)
  end.

(** [Series.unique()]: the distinct values (only their number is used). *)
Definition unique (s : list Z) : list Z := nodup Z.eq_dec s.

(** [s.max() - s.min() + 1 == len(s.unique())]; any comparison with NaN is
    false. *)
Definition full_range (s : list Z) : bool :=
  match series_max s, series_min s with
  | Some hi, Some lo => hi - lo + 1 =? len (unique s)
  | _, _ => false
  end.

Definition assert (b : bool) : Result unit :=
  if b then Ok tt else Err AssertionError.

Definition set_u (f : Z -> Z) (r : row) : row :=
  mkRow (f (u r)) (i r) (ts r) (label r) (idx r).
Definition set_i (f : Z -> Z) (r : row) : row :=
  mkRow (u r) (f (i r)) (ts r) (label r) (idx r).
Definition set_idx (f : Z -> Z) (r : row) : row :=
  mkRow (u r) (i r) (ts r) (label r) (f (idx r)).

Definition reindex (df : DataFrame) (bipartite : bool) : Result DataFrame :=
  let new_df := df in
  if bipartite then
    _ <- assert (full_range (column u df)) ;;
    _ <- assert (full_range (column i df)) ;;
    match series_max (column u df) with
    | None => Err AssertionError (* empty frame: rejected by the asserts *)
    | Some u_max =>
        let upper_u := u_max + 1 in
        let new_df := map (set_i (fun x => x + upper_u)) new_df in
        let new_df := map (set_u (fun x => x + 1)) new_df in
        let new_df := map (set_i (fun x => x + 1)) new_df in
        let new_df := map (set_idx (fun x => x + 1)) new_df in
        Ok new_df
    end
  else
    let new_df := map (set_u (fun x => x + 1)) new_df in
    let new_df := map (set_i (fun x => x + 1)) new_df in
    let new_df := map (set_idx (fun x => x + 1)) new_df in
    Ok new_df.

(** *** The same on int64 cells

    A numpy int64 sum or difference keeps the low 64 bits of the exact
    result, read as a signed number. *)
Definition wrap64 (z : Z) : Z := (z + 2 ^ 63) mod 2 ^ 64 - 2 ^ 63.

Definition int64_add (x y : Z) : Z := wrap64 (x + y).
Definition int64_sub (x y : Z) : Z := wrap64 (x - y).

(** [s.max() - s.min() + 1 == len(s.unique())] on an int64 column: the
    left-hand side is an int64, the right-hand side a Python int. *)
Definition full_range_int64 (s : list Z) : bool :=
  match series_max s, series_min s with
  | Some hi, Some lo => int64_add (int64_sub hi lo) 1 =? len (unique s)
  | _, _ => false
  end.

Definition reindex_int64 (df : DataFrame) (bipartite : bool)
    : Result DataFrame :=
  let new_df := df in
  if bipartite then
    _ <- assert (full_range_int64 (column u df)) ;;
    _ <- assert (full_range_int64 (column i df)) ;;
    match series_max (column u df) with
    | None => Err AssertionError (* empty frame: rejected by the asserts *)
    | Some u_max =>
        let upper_u := int64_add u_max 1 in
        let new_df := map (set_i (fun x => int64_add x upper_u)) new_df in
        let new_df := map (set_u (fun x => int64_add x 1)) new_df in
        let new_df := map (set_i (fun x => int64_add x 1)) new_df in
        let new_df := map (set_idx (fun x => int64_add x 1)) new_df in
        Ok new_df
    end
  else
    let new_df := map (set_u (fun x => int64_add x 1)) new_df in
    let new_df := map (set_i (fun x => int64_add x 1)) new_df in
    let new_df := map (set_idx (fun x => int64_add x 1)) new_df in
    Ok new_df.

(** The ids of a column form a contiguous integer range [lo..hi]. *)
Definition contiguous (s : list Z) : Prop :=
  exists lo hi, lo <= hi /\ forall z, In z s <-> lo <= z <= hi.

(** Every id and edge index lies in [[-B, B)]. *)
Definition ids_below (B : Z) (df : DataFrame) : Prop :=
  forall r, In r df ->
    - B <= u r < B /\ - B <= i r < B /\ - B <= idx r < B.

(** Every id and edge index lies in [[-2^60, 2^60)].  The differences and
    sums formed by [reindex], also when it is applied a second time, then
    stay within [[-2^63, 2^63)], so the int64 cells hold the exact values. *)
Definition small_ids (df : DataFrame) : Prop := ids_below (2 ^ 60) df.

End Preprocess.

(** ** The training driver ([train_self_supervised.py], lines 217-461) *)

Module Train.

Import Select.

Inductive sampler : Type :=
| train_rand_sampler
| val_rand_sampler
| nn_val_rand_sampler
| test_rand_sampler
| nn_test_rand_sampler.

Inductive finder : Type := train_ngh_finder | full_ngh_finder.

Inductive split : Type := val_split | new_node_val_split | new_node_test_split.

Inductive slot : Type := train_slot | val_slot.

(** The nine values returned by [eval_edge_prediction]. *)
Record EvalResult : Type := mkEvalResult {
  ap : float;
  auc : float;
  recall : float;
  precision : float;
  fp : Z;
  fn : Z;
  tp : Z;
  tn : Z;
  best_threshold : float
}.

(** The dictionary pickled at the end of every epoch. *)
Record Results : Type := mkResults {
  val_aps : list float;
  new_nodes_val_aps : list float;
  train_losses : list float;
  epoch_times : list float;
  total_epoch_times : list float
}.

(** The [argparse] namespace, restricted to what the driver reads. *)
Record Args : Type := mkArgs {
  bs : Z;
  n_degree : Z;
  n_epoch : Z;
  use_memory : bool;
  backprop_every : Z;
  patience : Z;
  n_runs : Z
}.

(** The edge splits of [get_data] used by the driver. *)
Record Splits : Type := mkSplits {
  train_data : Data;
  val_data : Data;
  new_node_val_data : Data;
  new_node_test_data : Data
}.

(** What the driver imports: the TGN model and its memory, the optimizer,
    the negative samplers, the evaluator, the early-stopping monitor and the
    clock.  [Memory] is all of [tgn.memory]; [Net] is the rest of the
    module. *)
Class Collaborators : Type := {
  Net : Type;
  Memory : Type;
  Optimizer : Type;
  Samplers : Type;
  Stopper : Type;
  Clock : Type;
  Loss : Type;
  Probs : Type;
  StateDict : Type;
  (* model.tgn *)
  TGN : Z -> Net * Memory;
  init_memory : Memory -> Memory;
  detach_memory : Memory -> Memory;
  set_neighbor_finder : Net -> finder -> Net;
  set_embedding_neighbor_finder : Net -> finder -> Net;
  train_mode : Net -> Net;
  eval_mode : Net -> Net;
  compute_edge_probabilities :
    Net * Memory -> list Z -> list Z -> list Z -> list float -> list Z -> Z ->
    Net * Memory * (Probs * Probs);
  state_dict : Net * Memory -> StateDict;
  load_state_dict : Net * Memory -> StateDict -> Net * Memory;
  (* torch *)
  Adam : Net * Memory -> Optimizer;
  zero_grad : Optimizer -> Net * Memory -> Optimizer * (Net * Memory);
  criterion : Probs -> list float -> Loss;
  loss_add : Loss -> Loss -> Loss;
  loss_div : Loss -> Z -> Loss;
  backward : Loss -> Net * Memory -> Net * Memory;
  step : Optimizer -> Net * Memory -> Optimizer * (Net * Memory);
  item : Loss -> float;
  np_mean : list float -> float;
  (* utils.utils *)
  sample : Samplers -> sampler -> Z -> Samplers * (list Z * list Z);
  EarlyStopMonitor : Z -> Stopper;
  early_stop_check : Stopper -> float -> Stopper * bool;
  best_epoch : Stopper -> Z;
  (* evaluation.evaluation *)
  eval_edge_prediction :
    Net * Memory -> Samplers -> sampler -> Data -> Z ->
    Net * Memory * Samplers * EvalResult;
  eval_edge_detection :
    Net * Memory -> Samplers -> sampler -> Data -> float -> Z ->
    Net * Memory * Samplers;
  (* time *)
  time_time : Clock -> Clock * float
}.

Section Driver.

Context {C : Collaborators}.

Definition Tgn : Type := (Net * Memory)%type.

(** The Python variable [loss]: the int [0], the float it becomes under
    [/=], or a tensor. *)
Inductive loss_var : Type :=
| LossInt (z : Z)
| LossFloat
| LossTensor (l : Loss).

(** Observable steps of a run, in program order. *)
Inductive Event : Type :=
| EvInitMemory
| EvBatch (batch_idx start_idx end_idx : Z)
| EvStep
| EvDetachMemory
| EvBackupMemory (v : slot) (snapshot : Memory)
| EvRestoreMemory (v : slot) (snapshot : Memory)
| EvEvalPrediction (d : split) (r : EvalResult)
| EvEvalDetection (d : split) (threshold : float)
| EvDumpResults (run : Z) (r : Results)
| EvSaveCheckpoint (epoch : Z)
| EvLoadCheckpoint (epoch : Z)
| EvSaveModel (sd : StateDict).

(** The module-level variables of the script, the files it writes and the
    trace of what it did. *)
Record State : Type := mkState {
  tgn : Tgn;
  optimizer : Optimizer;
  samplers : Samplers;
  early_stopper : Stopper;
  clock : Clock;
  checkpoints : list (Z * StateDict);
  results_files : list (Z * Results);
  saved_model : option StateDict;
  series : Results;
  m_loss : list float;
  loss : loss_var;
  train_memory_backup : option Memory;
  val_memory_backup : option Memory;
  thresholdOpt : option float;
  trace : list Event
}.


Definition upd_tgn (f : Tgn -> Tgn) (s : State) : State :=
  mkState (f (tgn s)) (optimizer s) (samplers s) (early_stopper s) (clock s)
    (checkpoints s) (results_files s) (saved_model s) (series s) (m_loss s)
    (loss s) (train_memory_backup s) (val_memory_backup s) (thresholdOpt s)
    (trace s).

Definition upd_optimizer (f : Optimizer -> Optimizer) (s : State) : State :=
  mkState (tgn s) (f (optimizer s)) (samplers s) (early_stopper s) (clock s)
    (checkpoints s) (results_files s) (saved_model s) (series s) (m_loss s)
    (loss s) (train_memory_backup s) (val_memory_backup s) (thresholdOpt s)
    (trace s).

Definition upd_samplers (f : Samplers -> Samplers) (s : State) : State :=
  mkState (tgn s) (optimizer s) (f (samplers s)) (early_stopper s) (clock s)
    (checkpoints s) (results_files s) (saved_model s) (series s) (m_loss s)
    (loss s) (train_memory_backup s) (val_memory_backup s) (thresholdOpt s)
    (trace s).

Definition upd_early_stopper (f : Stopper -> Stopper) (s : State) : State :=
  mkState (tgn s) (optimizer s) (samplers s) (f (early_stopper s)) (clock s)
    (checkpoints s) (results_files s) (saved_model s) (series s) (m_loss s)
    (loss s) (train_memory_backup s) (val_memory_backup s) (thresholdOpt s)
    (trace s).

Definition upd_clock (f : Clock -> Clock) (s : State) : State :=
  mkState (tgn s) (optimizer s) (samplers s) (early_stopper s) (f (clock s))
    (checkpoints s) (results_files s) (saved_model s) (series s) (m_loss s)
    (loss s) (train_memory_backup s) (val_memory_backup s) (thresholdOpt s)
    (trace s).

Definition upd_checkpoints (f : list (Z * StateDict) -> list (Z * StateDict))
    (s : State) : State :=
  mkState (tgn s) (optimizer s) (samplers s) (early_stopper s) (clock s) (f
    (checkpoints s)) (results_files s) (saved_model s) (series s) (m_loss s)
    (loss s) (train_memory_backup s) (val_memory_backup s) (thresholdOpt s)
    (trace s).

Definition upd_results_files (f : list (Z * Results) -> list (Z * Results))
    (s : State) : State :=
  mkState (tgn s) (optimizer s) (samplers s) (early_stopper s) (clock s)
    (checkpoints s) (f (results_files s)) (saved_model s) (series s) (m_loss
    s) (loss s) (train_memory_backup s) (val_memory_backup s) (thresholdOpt
    s) (trace s).

Definition upd_saved_model (f : option StateDict -> option StateDict)
    (s : State) : State :=
  mkState (tgn s) (optimizer s) (samplers s) (early_stopper s) (clock s)
    (checkpoints s) (results_files s) (f (saved_model s)) (series s) (m_loss
    s) (loss s) (train_memory_backup s) (val_memory_backup s) (thresholdOpt
    s) (trace s).

Definition upd_series (f : Results -> Results) (s : State) : State :=
  mkState (tgn s) (optimizer s) (samplers s) (early_stopper s) (clock s)
    (checkpoints s) (results_files s) (saved_model s) (f (series s)) (m_loss
    s) (loss s) (train_memory_backup s) (val_memory_backup s) (thresholdOpt
    s) (trace s).

Definition upd_m_loss (f : list float -> list float) (s : State) : State :=
  mkState (tgn s) (optimizer s) (samplers s) (early_stopper s) (clock s)
    (checkpoints s) (results_files s) (saved_model s) (series s) (f (m_loss
    s)) (loss s) (train_memory_backup s) (val_memory_backup s) (thresholdOpt
    s) (trace s).

Definition upd_loss (f : loss_var -> loss_var) (s : State) : State :=
  mkState (tgn s) (optimizer s) (samplers s) (early_stopper s) (clock s)
    (checkpoints s) (results_files s) (saved_model s) (series s) (m_loss s)
    (f (loss s)) (train_memory_backup s) (val_memory_backup s) (thresholdOpt
    s) (trace s).

Definition upd_train_memory_backup (f : option Memory -> option Memory)
    (s : State) : State :=
  mkState (tgn s) (optimizer s) (samplers s) (early_stopper s) (clock s)
    (checkpoints s) (results_files s) (saved_model s) (series s) (m_loss s)
    (loss s) (f (train_memory_backup s)) (val_memory_backup s) (thresholdOpt
    s) (trace s).

Definition upd_val_memory_backup (f : option Memory -> option Memory)
    (s : State) : State :=
  mkState (tgn s) (optimizer s) (samplers s) (early_stopper s) (clock s)
    (checkpoints s) (results_files s) (saved_model s) (series s) (m_loss s)
    (loss s) (train_memory_backup s) (f (val_memory_backup s)) (thresholdOpt
    s) (trace s).

Definition upd_thresholdOpt (f : option float -> option float)
    (s : State) : State :=
  mkState (tgn s) (optimizer s) (samplers s) (early_stopper s) (clock s)
    (checkpoints s) (results_files s) (saved_model s) (series s) (m_loss s)
    (loss s) (train_memory_backup s) (val_memory_backup s) (f (thresholdOpt
    s)) (trace s).

Definition upd_trace (f : list Event -> list Event) (s : State) : State :=
  mkState (tgn s) (optimizer s) (samplers s) (early_stopper s) (clock s)
    (checkpoints s) (results_files s) (saved_model s) (series s) (m_loss s)
    (loss s) (train_memory_backup s) (val_memory_backup s) (thresholdOpt s)
    (f (trace s)).

(** The state-and-exception monad of the script. *)
Definition M (A : Type) : Type := State -> Result (A * State).

Definition ret {A} (a : A) : M A := fun s => Ok (a, s).

Definition mbind {A B} (m : M A) (k : A -> M B) : M B :=
  fun s => match m s with
           | Ok (a, s') => k a s'
           | Err e => Err e
           end.

Definition raise {A} (e : exn) : M A := fun _ => Err e.

Definition get : M State := fun s => Ok (s, s).

Definition modify (f : State -> State) : M unit := fun s => Ok (tt, f s).

Definition lift {A} (r : Result A) : M A :=
  fun s => match r with
           | Ok a => Ok (a, s)
           | Err e => Err e
           end.

Definition log (e : Event) : M unit :=
  modify (upd_trace (fun t => t ++ [e])).

Definition when (b : bool) (m : M unit) : M unit :=
  if b then m else ret tt.

End Driver.

Declare Scope run_scope.
Delimit Scope run_scope with run.
Notation "x <- c ;; k" := (mbind c (fun x => k))
  (at level 61, c at next level, right associativity) : run_scope.
Notation "c ;; k" := (mbind c (fun _ => k))
  (at level 61, right associativity) : run_scope.

Section Script.

Context {C : Collaborators}.
Local Open Scope run_scope.

(** [for x in xs: body(x)] *)
Fixpoint for_each {A} (xs : list A) (body : A -> M unit) : M unit :=
  match xs with
  | [] => ret tt
  | x :: xs' => body x ;; for_each xs' body
  end.

(** [for x in xs: body(x)] where the body reports whether it hit [break]. *)
Fixpoint for_break {A} (xs : list A) (body : A -> M bool) : M unit :=
  match xs with
  | [] => ret tt
  | x :: xs' => stop <- body x ;; if stop then ret tt else for_break xs' body
  end.

(** The command-line arguments the driver reads. *)
Variable args : Args.

Local Abbreviation BATCH_SIZE := (bs args).
Local Abbreviation NUM_NEIGHBORS := (n_degree args).
Local Abbreviation NUM_EPOCH := (n_epoch args).
Local Abbreviation USE_MEMORY := (use_memory args).

(** The splits returned by [get_data]; [train_data] has the inductive nodes
    removed. *)
Variable data : Splits.

Local Abbreviation train_data := (train_data data).
Local Abbreviation val_data := (val_data data).
Local Abbreviation new_node_val_data := (new_node_val_data data).
Local Abbreviation new_node_test_data := (new_node_test_data data).

Definition data_of (d : split) : Data :=
  match d with
  | val_split => val_data
  | new_node_val_split => new_node_val_data
  | new_node_test_split => new_node_test_data
  end.

Definition fone : float := S754_finite false 4503599627370496 (-52).
Definition fzero : float := S754_zero false.

(** Modelled from the spec: [tgn.memory.backup_memory()] (class [Memory] is
    outside the two files) deep-copies the current memory state and does not
    mutate the live state. *)
Definition backup_memory (v : slot) : M Memory :=
  s <- get ;;
  let snapshot := snd (tgn s) in
  log (EvBackupMemory v snapshot) ;;
  ret snapshot.

(** Modelled from the spec: [tgn.memory.restore_memory(snapshot)] replaces
    the live memory state with the snapshot's contents. *)
Definition restore_memory (v : slot) (backup : option Memory) : M unit :=
  match backup with
  | None => raise NameError
  | Some snapshot =>
      modify (upd_tgn (fun t => (fst t, snapshot))) ;;
      log (EvRestoreMemory v snapshot)
  end.

Definition on_memory (f : Memory -> Memory) : M unit :=
  modify (upd_tgn (fun t => (fst t, f (snd t)))).

Definition on_net (f : Net -> Net) : M unit :=
  modify (upd_tgn (fun t => (f (fst t), snd t))).

Definition now : M float :=
  s <- get ;;
  let (c, t) := time_time (clock s) in
  modify (upd_clock (fun _ => c)) ;;
  ret t.

(** [loss += x] *)
Definition loss_iadd (v : loss_var) (x : Loss) : loss_var :=
  match v with
  | LossTensor l => LossTensor (loss_add l x)
  | _ => LossTensor x
  end.

(** [loss /= n] *)
Definition loss_idiv (v : loss_var) (n : Z) : Result loss_var :=
  match v with
  | LossTensor l => Ok (LossTensor (loss_div l n))
  | _ => if n =? 0 then Err ZeroDivisionError else Ok LossFloat
  end.

(** What [BCELoss] raises when its input and its target differ in shape. *)
Definition shape_error : exn :=
  ValueError ("Using a target size (torch.Size([1])) that is different "
              ++ "to the input size (torch.Size([])).").

(** [criterion(prob.squeeze(), label)] with [criterion = BCELoss()].  The
    probabilities returned by the model (class [TGN], outside the two files)
    have shape [(size, 1)], and [squeeze()] drops every axis of length one:
    for a batch of one edge it leaves a 0-dim tensor, which [BCELoss]
    refuses to compare with the 1-dim label. *)
Definition squeezed_criterion (size : Z) (prob : Probs)
    (label : list float) : Result Loss :=
  if size =? 1 then Err shape_error else Ok (criterion prob label).

(** Lines 281-304: one batch of a gradient-accumulation group. *)
Definition batch_body (num_instance num_batch k j : Z) : M unit :=
  let batch_idx := k + j in
  if batch_idx >=? num_batch then ret tt
  else
    let start_idx := batch_idx * BATCH_SIZE in
    let end_idx := Z.min num_instance (start_idx + BATCH_SIZE) in
    let sources_batch := slice (sources train_data) start_idx end_idx in
    let destinations_batch :=
      slice (destinations train_data) start_idx end_idx in
    let edge_idxs_batch := slice (edge_idxs train_data) start_idx end_idx in
    let timestamps_batch := slice (timestamps train_data) start_idx end_idx in
    let size := len sources_batch in
    s <- get ;;
    let '(smp, (_, negatives_batch)) :=
      sample (samplers s) train_rand_sampler size in
    modify (upd_samplers (fun _ => smp)) ;;
    let pos_label := repeat fone (Z.to_nat size) in
    let neg_label := repeat fzero (Z.to_nat size) in
    on_net train_mode ;;
    s <- get ;;
    let '(t, (pos_prob, neg_prob)) :=
      compute_edge_probabilities (tgn s) sources_batch destinations_batch
        negatives_batch timestamps_batch edge_idxs_batch NUM_NEIGHBORS in
    modify (upd_tgn (fun _ => t)) ;;
    log (EvBatch batch_idx start_idx end_idx) ;;
    pos_loss <- lift (squeezed_criterion size pos_prob pos_label) ;;
    neg_loss <- lift (squeezed_criterion size neg_prob neg_label) ;;
    modify (upd_loss (fun l => loss_iadd l (loss_add pos_loss neg_loss))).

(** Lines 272-315: one gradient-accumulation group. *)
Definition group_body (num_instance num_batch k : Z) : M unit :=
  modify (upd_loss (fun _ => LossInt 0)) ;;
  s <- get ;;
  let (o, t) := zero_grad (optimizer s) (tgn s) in
  modify (upd_optimizer (fun _ => o)) ;;
  modify (upd_tgn (fun _ => t)) ;;
  for_each (range1 (backprop_every args))
           (batch_body num_instance num_batch k) ;;
  s <- get ;;
  l <- lift (loss_idiv (loss s) (backprop_every args)) ;;
  modify (upd_loss (fun _ => l)) ;;
  match l with
  | LossTensor l =>
      modify (upd_tgn (backward l)) ;;
      s <- get ;;
      let (o, t) := step (optimizer s) (tgn s) in
      modify (upd_optimizer (fun _ => o)) ;;
      modify (upd_tgn (fun _ => t)) ;;
      log EvStep ;;
      modify (upd_m_loss (fun m => m ++ [item l])) ;;
      when USE_MEMORY (on_memory detach_memory ;; log EvDetachMemory)
  | _ => raise AttributeError
  end.

Definition evaluate (smp : sampler) (d : split) : M EvalResult :=
  s <- get ;;
  let '(t, sm, r) :=
    eval_edge_prediction (tgn s) (samplers s) smp (data_of d) NUM_NEIGHBORS in
  modify (upd_tgn (fun _ => t)) ;;
  modify (upd_samplers (fun _ => sm)) ;;
  log (EvEvalPrediction d r) ;;
  ret r.

Definition lookup {A} (k : Z) (l : list (Z * A)) : option A :=
  match find (fun p => fst p =? k) l with
  | Some p => Some (snd p)
  | None => None
  end.

(** Lines 259-315: the training part of an epoch. *)
Definition train_phase (num_instance num_batch : Z) : M float :=
  start_epoch <- now ;;
  when USE_MEMORY (on_memory init_memory ;; log EvInitMemory) ;;
  on_net (fun n => set_neighbor_finder n train_ngh_finder) ;;
  modify (upd_m_loss (fun _ => [])) ;;
  ks <- lift (range3 0 num_batch (backprop_every args)) ;;
  for_each ks (group_body num_instance num_batch) ;;
  t <- now ;;
  let epoch_time := fsub t start_epoch in
  modify (upd_series (fun r =>
    mkResults (val_aps r) (new_nodes_val_aps r) (train_losses r)
              (epoch_times r ++ [epoch_time]) (total_epoch_times r))) ;;
  ret start_epoch.

(** Lines 322-357: validation on seen, then on unseen nodes. *)
Definition validation_phase : M (EvalResult * EvalResult) :=
  on_net (fun n => set_neighbor_finder n full_ngh_finder) ;;
  when USE_MEMORY (
    m <- backup_memory train_slot ;;
    modify (upd_train_memory_backup (fun _ => Some m))) ;;
  val <- evaluate val_rand_sampler val_split ;;
  modify (upd_thresholdOpt (fun _ => Some (best_threshold val))) ;;
  when USE_MEMORY (
    m <- backup_memory val_slot ;;
    modify (upd_val_memory_backup (fun _ => Some m)) ;;
    s <- get ;;
    restore_memory train_slot (train_memory_backup s)) ;;
  nn_val <- evaluate val_rand_sampler new_node_val_split ;;
  modify (upd_thresholdOpt (fun _ => Some (best_threshold nn_val))) ;;
  when USE_MEMORY (
    s <- get ;;
    restore_memory val_slot (val_memory_backup s)) ;;
  ret (val, nn_val).

(** Lines 359-373: the validation series, the results file and the total
    time of the epoch. *)
Definition record_results (run : Z) (start_epoch : float)
    (val nn_val : EvalResult) : M unit :=
  s <- get ;;
  modify (upd_series (fun r =>
    mkResults (val_aps r ++ [ap val]) (new_nodes_val_aps r ++ [ap nn_val])
              (train_losses r ++ [np_mean (m_loss s)])
              (epoch_times r) (total_epoch_times r))) ;;
  s <- get ;;
  modify (upd_results_files (fun fs => (run, series s) :: fs)) ;;
  log (EvDumpResults run (series s)) ;;
  t <- now ;;
  let total_epoch_time := fsub t start_epoch in
  modify (upd_series (fun r =>
    mkResults (val_aps r) (new_nodes_val_aps r) (train_losses r)
              (epoch_times r) (total_epoch_times r ++ [total_epoch_time]))).

(** Lines 395-405: early stopping and checkpoint.  Returns whether the epoch
    loop is left with [break]. *)
Definition early_stopping (epoch : Z) (val : EvalResult) : M bool :=
  s <- get ;;
  let (es, stop) := early_stop_check (early_stopper s) (ap val) in
  modify (upd_early_stopper (fun _ => es)) ;;
  if stop then
    match lookup (best_epoch es) (checkpoints s) with
    | None => raise FileNotFoundError
    | Some sd =>
        modify (upd_tgn (fun t => load_state_dict t sd)) ;;
        log (EvLoadCheckpoint (best_epoch es)) ;;
        on_net eval_mode ;;
        ret true
    end
  else
    modify (upd_checkpoints (fun cs => (epoch, state_dict (tgn s)) :: cs)) ;;
    log (EvSaveCheckpoint epoch) ;;
    ret false.

(** Lines 359-405: the end of an epoch. *)
Definition epoch_tail (run epoch : Z) (start_epoch : float)
    (val nn_val : EvalResult) : M bool :=
  record_results run start_epoch val nn_val ;;
  early_stopping epoch val.

(** The body of [for epoch in range(NUM_EPOCH)]. *)
Definition epoch_body (run num_instance num_batch epoch : Z) : M bool :=
  start_epoch <- train_phase num_instance num_batch ;;
  r <- validation_phase ;;
  epoch_tail run epoch start_epoch (fst r) (snd r).

(** Lines 410-461: test on unseen nodes and save the model. *)
Definition finish : M unit :=
  when USE_MEMORY (
    m <- backup_memory val_slot ;;
    modify (upd_val_memory_backup (fun _ => Some m))) ;;
  on_net (fun n => set_embedding_neighbor_finder n full_ngh_finder) ;;
  when USE_MEMORY (
    s <- get ;;
    restore_memory val_slot (val_memory_backup s)) ;;
  s <- get ;;
  match thresholdOpt s with
  | None => raise NameError
  | Some threshold =>
      let '(t, sm) :=
        eval_edge_detection (tgn s) (samplers s) nn_test_rand_sampler
          new_node_test_data threshold NUM_NEIGHBORS in
      modify (upd_tgn (fun _ => t)) ;;
      modify (upd_samplers (fun _ => sm)) ;;
      log (EvEvalDetection new_node_test_split threshold) ;;
      when USE_MEMORY (
        s <- get ;;
        restore_memory val_slot (val_memory_backup s)) ;;
      s <- get ;;
      modify (upd_saved_model (fun _ => Some (state_dict (tgn s)))) ;;
      log (EvSaveModel (state_dict (tgn s)))
  end.

Definition empty_results : Results := mkResults [] [] [] [] [].

(** The body of [for i in range(args.n_runs)].  [num_batch] is the exact
    ceiling [ceil_div], which [math.ceil(num_instance / BATCH_SIZE)] returns
    for sizes below 2^53. *)
Definition run_body (i : Z) : M unit :=
  let t := TGN i in
  modify (upd_tgn (fun _ => t)) ;;
  modify (upd_optimizer (fun _ => Adam t)) ;;
  let num_instance := len (sources train_data) in
  num_batch <- lift (ceil_div num_instance BATCH_SIZE) ;;
  modify (upd_series (fun _ => empty_results)) ;;
  modify (upd_early_stopper (fun _ => EarlyStopMonitor (patience args))) ;;
  for_break (range1 NUM_EPOCH) (epoch_body i num_instance num_batch) ;;
  finish.

Definition main : M unit := for_each (range1 (n_runs args)) run_body.

End Script.

(** *** Reading a trace *)

Section Traces.

Context {C : Collaborators}.

Definition is_batch (e : Event) : bool :=
  match e with EvBatch _ _ _ => true | _ => false end.

(** The index ranges of the training batches, in the order they were run. *)
Definition batches (tr : list Event) : list (Z * Z * Z) :=
  flat_map (fun e => match e with
                     | EvBatch b s t => [(b, s, t)]
                     | _ => []
                     end) tr.

(** The dictionaries written to the results file, oldest first. *)
Definition dumps (tr : list Event) : list Results :=
  flat_map (fun e => match e with
                     | EvDumpResults _ r => [r]
                     | _ => []
                     end) tr.

(** The split and best threshold of every [eval_edge_prediction] call. *)
Definition predictions (tr : list Event) : list (split * float) :=
  flat_map (fun e => match e with
                     | EvEvalPrediction d r => [(d, best_threshold r)]
                     | _ => []
                     end) tr.



(** Every series holds [n] entries. *)
Definition series_lengths (n : nat) (r : Results) : Prop :=
  length (val_aps r) = n /\ length (new_nodes_val_aps r) = n /\
  length (train_losses r) = n /\ length (epoch_times r) = n /\
  length (total_epoch_times r) = n.

(** The series of the file written in the epoch that follows [j] completed
    epochs: the total-time series is one entry short. *)
Definition written_lengths (j : nat) (r : Results) : Prop :=
  length (val_aps r) = S j /\ length (new_nodes_val_aps r) = S j /\
  length (train_losses r) = S j /\ length (epoch_times r) = S j /\
  length (total_epoch_times r) = j.

(** The series after the appends of lines 359-361. *)
Definition appended (r : Results) (val nn_val : EvalResult) (m : list float)
    : Results :=
  mkResults (val_aps r ++ [ap val]) (new_nodes_val_aps r ++ [ap nn_val])
            (train_losses r ++ [np_mean m])
            (epoch_times r) (total_epoch_times r).

(** The events of a gradient-accumulation group: its batches, then the
    parameter update, then the detach. *)
Definition is_group (evs : list Event) : Prop :=
  exists bs, forallb is_batch bs = true /\
             evs = bs ++ [EvStep; EvDetachMemory].

Definition is_tensor (v : loss_var) : bool :=
  match v with LossTensor _ => true | _ => false end.

(** The script variables and files that the training batches leave alone. *)
Definition same_books (s s' : State) : Prop :=
  thresholdOpt s' = thresholdOpt s /\
  train_memory_backup s' = train_memory_backup s /\
  val_memory_backup s' = val_memory_backup s /\
  checkpoints s' = checkpoints s /\
  results_files s' = results_files s /\
  saved_model s' = saved_model s /\
  early_stopper s' = early_stopper s.

Variable args : Args.

(** Batch [b] of the training split: the index range it is cut at. *)
Definition batch_event (num_instance b : Z) : Event :=
  EvBatch b (b * bs args) (Z.min num_instance (b * bs args + bs args)).

(** The batch indices of the group that starts at batch [k]: members at or
    beyond [num_batch] are skipped. *)
Definition group_batches (num_batch k : Z) : list Z :=
  filter (fun b => negb (b >=? num_batch))
         (map (Z.add k) (range1 (backprop_every args))).

Definition group_events (num_instance num_batch k : Z) : list Event :=
  map (batch_event num_instance) (group_batches num_batch k)
  ++ EvStep :: (if use_memory args then [EvDetachMemory] else []).

End Traces.

(** *** The training of an epoch, as the spec states it *)

Section Learning.

Context {C : Collaborators}.
Variable args : Args.
Variable data : Splits.

(** What the training loop works on: the model, the optimizer, the samplers
    and the losses recorded so far. *)
Definition Learner : Type := (Tgn * Optimizer * Samplers * list float)%type.

(** The tensor held by the variable [loss], if it holds one. *)
Definition tensor_of (v : loss_var) : option Loss :=
  match v with
  | LossTensor l => Some l
  | _ => None
  end.

(** Modelled from the spec: batch [b] of an array of the training split is
    the index range [[b * batch_size, min(N, (b + 1) * batch_size))]. *)
Definition batch_of {A} (num_instance : Z) (l : list A) (b : Z) : list A :=
  slice l (b * bs args) (Z.min num_instance ((b + 1) * bs args)).

(** Modelled from the spec: one batch.  As many negative destinations are
    sampled as the batch has edges, the model computes the probabilities of
    the positive and of the negative edges in training mode, and
    [BCE(pos_prob, 1) + BCE(neg_prob, 0)] is added to the loss of the
    group. *)
Definition learn_batch (num_instance : Z)
    (st : Tgn * Samplers * option Loss) (b : Z)
    : Tgn * Samplers * option Loss :=
  let '(t, smp, acc) := st in
  let d := train_data data in
  let srcs := batch_of num_instance (sources d) b in
  let size := len srcs in
  let '(smp, (_, negatives)) := sample smp train_rand_sampler size in
  let '(t, (pos_prob, neg_prob)) :=
    compute_edge_probabilities (train_mode (fst t), snd t) srcs
      (batch_of num_instance (destinations d) b) negatives
      (batch_of num_instance (timestamps d) b)
      (batch_of num_instance (edge_idxs d) b) (n_degree args) in
  let l := loss_add (criterion pos_prob (repeat fone (Z.to_nat size)))
                    (criterion neg_prob (repeat fzero (Z.to_nat size))) in
  (t, smp, Some (match acc with
                 | Some a => loss_add a l
                 | None => l
                 end)).

(** Modelled from the spec: one gradient-accumulation group.  The gradients
    are zeroed, the batches of the group that lie below the batch count are
    run in order, the accumulated loss is divided by the group size and
    back-propagated, the optimizer takes one step, and the memory is
    detached when memory is in use.  A group without a batch has no loss to
    back-propagate. *)
Definition learn_group (num_instance num_batch : Z) (st : Learner) (k : Z)
    : option Learner :=
  let '(t, o, smp, losses) := st in
  let (o, t) := zero_grad o t in
  let '(t, smp, acc) :=
    fold_left (learn_batch num_instance) (group_batches args num_batch k)
              (t, smp, None) in
  match acc with
  | None => None
  | Some l =>
      let l := loss_div l (backprop_every args) in
      let (o, t) := step o (backward l t) in
      Some ((fst t,
             if use_memory args then detach_memory (snd t) else snd t),
            o, smp, losses ++ [item l])
  end.

Fixpoint learn_groups (num_instance num_batch : Z) (st : Learner)
    (ks : list Z) : option Learner :=
  match ks with
  | [] => Some st
  | k :: ks' =>
      match learn_group num_instance num_batch st k with
      | Some st' => learn_groups num_instance num_batch st' ks'
      | None => None
      end
  end.

(** Modelled from the spec: the training part of an epoch.  The memory is
    initialised anew when memory is in use, the model is pointed at the
    training graph, and the groups that start at the batches [ks] are run in
    order, on an empty list of losses. *)
Definition learn_epoch (num_instance num_batch : Z) (t : Tgn)
    (o : Optimizer) (smp : Samplers) (ks : list Z) : option Learner :=
  let m := if use_memory args then init_memory (snd t) else snd t in
  learn_groups num_instance num_batch
    ((set_neighbor_finder (fst t) train_ngh_finder, m), o, smp, []) ks.

(** The learner inside a state of the script. *)
Definition learner (s : State) : Learner :=
  (tgn s, optimizer s, samplers s, m_loss s).

End Learning.

End Train.

(** ** Concrete inputs *)

Module Toy.

Import Select Preprocess Train.

Definition f0 : float := S754_zero false.

(** A split of three edges. *)
Definition three_edges : Data :=
  mkData [1; 2; 3] [4; 1; 5]
         [float_of_int 10; float_of_int 11; float_of_int 12]
         [1; 2; 3] [f0; f0; f0].

(** Frames for [reindex]: contiguous ids, a gap in the source ids, and a
    negative destination id. *)
Definition frame_contiguous : DataFrame :=
  [mkRow 0 1 f0 f0 0; mkRow 1 0 f0 f0 1; mkRow 0 0 f0 f0 2].

Definition frame_gap : DataFrame :=
  [mkRow 0 1 f0 f0 0; mkRow 2 0 f0 f0 1].

Definition frame_negative : DataFrame := [mkRow 0 (-1) f0 f0 0].

(** Stand-ins for the imported components.  The network counts its
    parameter updates; the memory, zero when initialised, grows in a training
    batch by the size of the batch plus the number of updates made so far
    and in an evaluation by the size of the split; the evaluator reports
    the size of the split as best threshold, and the monitor, which sees
    no improvement after the first epoch, stops at the check that follows
    [patience] epochs. *)
Definition collaborators : Collaborators := {|
  Net := Z;
  Memory := Z;
  Optimizer := unit;
  Samplers := unit;
  Stopper := Z;
  Clock := Z;
  Loss := Z;
  Probs := Z;
  StateDict := Z * Z;
  TGN := fun _ => (0, 0);
  init_memory := fun _ => 0;
  detach_memory := fun m => m;
  set_neighbor_finder := fun n _ => n;
  set_embedding_neighbor_finder := fun n _ => n;
  train_mode := fun n => n;
  eval_mode := fun n => n;
  compute_edge_probabilities := fun t srcs _ negs _ _ _ =>
    ((fst t, snd t + len srcs + fst t), (len srcs, len negs));
  state_dict := fun t => t;
  load_state_dict := fun _ sd => sd;
  Adam := fun _ => tt;
  zero_grad := fun o t => (o, t);
  criterion := fun p _ => p;
  loss_add := Z.add;
  loss_div := Z.div;
  backward := fun _ t => t;
  step := fun o t => (o, (fst t + 1, snd t));
  item := float_of_int;
  np_mean := fun _ => f0;
  sample := fun sm _ size =>
    (sm, (repeat 0 (Z.to_nat size), repeat 0 (Z.to_nat size)));
  EarlyStopMonitor := fun patience => patience;
  early_stop_check := fun st _ => (st - 1, st <=? 0);
  best_epoch := fun _ => 0;
  eval_edge_prediction := fun t sm _ d _ =>
    ((fst t, snd t + len (sources d)), sm,
     mkEvalResult f0 f0 f0 f0 0 0 0 0 (float_of_int (len (sources d))));
  eval_edge_detection := fun t sm _ _ _ _ => ((fst t, snd t + 1000), sm);
  time_time := fun c => (c + 1, float_of_int c)
|}.

Definition five_edges : Data :=
  mkData [1; 2; 3; 1; 2] [4; 5; 4; 5; 4]
         [float_of_int 1; float_of_int 2; float_of_int 3; float_of_int 4;
          float_of_int 5]
         [1; 2; 3; 4; 5] [f0; f0; f0; f0; f0].

Definition six_edges : Data :=
  mkData [1; 2; 3; 1; 2; 3] [4; 5; 4; 5; 4; 5]
         [float_of_int 1; float_of_int 2; float_of_int 3; float_of_int 4;
          float_of_int 5; float_of_int 6]
         [1; 2; 3; 4; 5; 6] [f0; f0; f0; f0; f0; f0].

Definition one_edge : Data := mkData [1] [6] [float_of_int 6] [6] [f0].

Definition two_edges : Data :=
  mkData [7; 1] [4; 8] [float_of_int 7; float_of_int 8] [7; 8] [f0; f0].

(** [--bs 2 --n_epoch 2 --use_memory --backprop_every 2]: six training
    edges make three batches of two edges in two groups. *)
Definition args : Args := mkArgs 2 10 2 true 2 5 1.

Definition data : Splits := mkSplits six_edges two_edges three_edges two_edges.

(** The same with five training edges: the third batch holds one edge. *)
Definition odd_data : Splits :=
  mkSplits five_edges two_edges three_edges two_edges.

(** The same options with [--patience 1]: the monitor stops in the second
    epoch. *)
Definition stop_args : Args := mkArgs 2 10 2 true 2 1 1.

(** The state of a fresh process. *)
Definition init : State (C := collaborators) :=
  mkState (C := collaborators) (0, 0) tt tt 5 0 [] [] None
    (mkResults [] [] [] [] []) [] (LossInt 0) None None None [].

Definition state_of {A} (r : Result (A * State (C := collaborators)))
    : State (C := collaborators) :=
  match r with
  | Ok (_, s) => s
  | Err _ => init
  end.

Definition after_training : State (C := collaborators) :=
  Eval vm_compute in
    state_of (train_phase (C := collaborators) args data 6 3 init).

Definition after_epoch : State (C := collaborators) :=
  Eval vm_compute in
    state_of (epoch_body (C := collaborators) args data 0 6 3 0 init).

Definition after_loop : State (C := collaborators) :=
  Eval vm_compute in
    state_of (for_break (range1 (n_epoch args))
                (epoch_body (C := collaborators) args data 0 6 3) init).

(** A run with [--patience 1]: the state when the second epoch starts, and
    the state in which that epoch, which stops the run, ends. *)
Definition init_stop : State (C := collaborators) :=
  mkState (C := collaborators) (0, 0) tt tt 1 0 [] [] None
    (mkResults [] [] [] [] []) [] (LossInt 0) None None None [].

Definition before_stop : State (C := collaborators) :=
  Eval vm_compute in
    state_of (epoch_body (C := collaborators) stop_args data 0 6 3 0
                init_stop).

Definition after_stop : State (C := collaborators) :=
  Eval vm_compute in
    state_of (epoch_body (C := collaborators) stop_args data 0 6 3 1
                before_stop).

Definition after_run : State (C := collaborators) :=
  Eval vm_compute in
    state_of (run_body (C := collaborators) args data 0 init).

End Toy.

(** ** Dataset ingestion ([utils/preprocess_data.py], lines 10-40, 64-85) *)

Module Ingest.

Import Preprocess.

(** What reading the file can come to: a value, the [StopIteration] of
    [next(f)] on an exhausted file, or another exception. *)
Inductive outcome (A : Type) : Type :=
| Read (a : A)
| StopIteration
| Raised (e : exn).
Arguments Read {A} a.
Arguments StopIteration {A}.
Arguments Raised {A} e.

Definition of_result {A} (r : Result A) : outcome A :=
  match r with
  | Ok a => Read a
  | Err e => Raised e
  end.

(** The builtins [int] and [float] applied to a string; both raise
    [ValueError] on text they cannot read. *)
Class Builtins : Type := {
  py_int : string -> Result Z;
  py_float : string -> Result float
}.

(** ASCII whitespace, as [str.isspace] has it. *)
Definition is_space (c : Ascii.ascii) : bool :=
  let n := Ascii.nat_of_ascii c in
  ((9 <=? n) && (n <=? 13) || (28 <=? n) && (n <=? 32))%nat.

Fixpoint lstrip (s : string) : string :=
  match s with
  | String c s' => if is_space c then lstrip s' else s
  | EmptyString => EmptyString
  end.

(** Drops trailing whitespace: a character stays when it is not a space or
    when something stays after it. *)
Fixpoint rstrip (s : string) : string :=
  match s with
  | String c s' =>
      match rstrip s' with
      | EmptyString => if is_space c then EmptyString
                       else String c EmptyString
      | rest => String c rest
      end
  | EmptyString => EmptyString
  end.

(** [s.strip()] *)
Definition strip (s : string) : string := rstrip (lstrip s).

Definition comma : Ascii.ascii := Ascii.ascii_of_nat 44.

(** [s.split(',')]: the fields between commas; never empty. *)
Fixpoint split_comma (s : string) : list string :=
  match s with
  | EmptyString => [EmptyString]
  | String c s' =>
      if Ascii.eqb c comma then EmptyString :: split_comma s'
      else match split_comma s' with
           | f :: fs => String c f :: fs
           | [] => [String c EmptyString]
           end
  end.

(** [e[k]] *)
Definition item_at (e : list string) (k : nat) : Result string :=
  match nth_error e k with
  | Some x => Ok x
  | None => Err IndexError
  end.

Section WithBuiltins.

Context {B : Builtins}.

(** Lines 18-25: the fields read from one line, in evaluation order. *)
Definition parse_line (idx : Z) (line : string)
    : Result (row * list float) :=
  let e := split_comma (strip line) in
  u <- (x <- item_at e 1 ;; py_int x) ;;
  i <- (x <- item_at e 2 ;; py_int x) ;;
  ts <- (x <- item_at e 0 ;; py_float x) ;;
  label <- (x <- item_at e 9 ;; py_float x) ;;
  f5 <- (x <- item_at e 5 ;; py_float x) ;;
  f6 <- (x <- item_at e 6 ;; py_float x) ;;
  f7 <- (x <- item_at e 7 ;; py_float x) ;;
  f8 <- (x <- item_at e 8 ;; py_float x) ;;
  Ok (mkRow u i ts label idx, [f5; f6; f7; f8]).

(** [for idx, line in enumerate(f)], appending to the lists. *)
Fixpoint read_lines (idx : Z) (lines : list string)
    (rows : DataFrame) (feat_l : list (list float))
    : Result (DataFrame * list (list float)) :=
  match lines with
  | [] => Ok (rows, feat_l)
  | line :: lines' =>
      p <- parse_line idx line ;;
      read_lines (idx + 1) lines' (rows ++ [fst p]) (feat_l ++ [snd p])
  end.

(** [preprocess]; the file is the list of its lines. *)
Definition preprocess (file : list string)
    : outcome (DataFrame * list (list float)) :=
  match file with
  | [] => StopIteration
  | _ :: lines => of_result (read_lines 0 lines [] [])
  end.

(** What [run] writes: the frame, the edge features and the node features. *)
Record Output : Type := mkOutput {
  out_df : DataFrame;
  out_feat : list (list float);
  out_node_feat : list (list float)
}.

Definition f_zero : float := S754_zero false.
Definition f_one : float := S754_finite false 4503599627370496 (-52).

(** [feats.shape[1]]: an array built from no row has one axis only. *)
Definition shape_1 (feats : list (list float)) : Result Z :=
  match feats with
  | [] => Err IndexError
  | r :: _ => Ok (len r)
  end.

(** [np.eye(n, m)] *)
Definition eye (n m : Z) : Result (list (list float)) :=
  if n <? 0 then Err (ValueError "negative dimensions are not allowed")
  else Ok (map (fun r => map (fun c => if c =? r then f_one else f_zero)
                             (range1 m))
               (range1 n)).

(** [run], from the lines of the file to the three arrays it saves. *)
Definition run (file : list string) (bipartite : bool) : outcome Output :=
  match preprocess file with
  | Read (df, feats) =>
      of_result (
        new_df <- reindex df bipartite ;;
        width <- shape_1 feats ;;
        let empty := repeat f_zero (Z.to_nat width) in
        let feat := empty :: feats in
        match series_max (column u new_df), series_max (column i new_df) with
        | Some mu, Some mi =>
            let max_idx := Z.max mu mi in
            rand_feat <- eye (max_idx + 1) 10 ;;
            Ok (mkOutput new_df feat rand_feat)
        | _, _ =>
            (* not reached: a frame with a feature row has a row *)
            Err (ValueError "cannot convert float NaN to integer")
        end)
  | StopIteration => StopIteration
  | Raised e => Raised e
  end.

End WithBuiltins.

End Ingest.

(** ** A split as a table of rows *)

Module Tables.

Import Select.

Definition ts_of (e : edge) : float := snd (fst (fst e)).
Definition eidx_of (e : edge) : Z := snd (fst e).
Definition label_of (e : edge) : float := snd e.

(** The [Data] object whose rows are the given ones. *)
Definition of_edges (es : list edge) : Data :=
  mkData (map src es) (map dst es) (map ts_of es) (map eidx_of es)
         (map label_of es).

End Tables.

(** ** More readings of a trace *)

Module Ledger.

Import Train.

Section Readings.

Context {C : Collaborators}.

(** The calls on [tgn.memory]. *)
Definition is_memory_op (e : Event) : bool :=
  match e with
  | EvInitMemory | EvDetachMemory | EvBackupMemory _ _
  | EvRestoreMemory _ _ => true
  | _ => false
  end.

Definition memory_ops (tr : list Event) : list Event :=
  filter is_memory_op tr.

(** The parameter updates. *)
Definition updates (tr : list Event) : list Event :=
  filter (fun e => match e with EvStep => true | _ => false end) tr.

End Readings.

End Ledger.

(** ** Inputs at the edges *)

Module Corner.

Import Select Preprocess Train Ingest.

Local Abbreviation toy := Toy.collaborators.

(** [--bs 0], [--n_epoch 0], [--backprop_every 0], [--backprop_every -1] and
    a run without [--use_memory]; the other options as in [Toy.args]. *)
Definition no_batch_size : Args := mkArgs 0 10 2 true 2 5 1.
Definition no_epoch : Args := mkArgs 2 10 0 true 2 5 1.
Definition no_group_size : Args := mkArgs 2 10 2 true 0 5 1.
Definition negative_group_size : Args := mkArgs 2 10 2 true (-1) 5 1.
Definition no_memory : Args := mkArgs 2 10 2 false 2 5 1.

Definition after_run_no_memory : State (C := toy) :=
  Eval vm_compute in
    Toy.state_of (run_body (C := toy) no_memory Toy.data 0 Toy.init).

(** A process whose monitor stops at its next check, with one checkpoint
    stored under epoch 0. *)
Definition stopping : State (C := toy) :=
  mkState (C := toy) (0, 0) tt tt 0 0 [(0, (3, 7))] [] None
    (mkResults [] [] [] [] []) [] (LossInt 0) None None None [].

Definition val : EvalResult :=
  mkEvalResult Toy.f0 Toy.f0 Toy.f0 Toy.f0 0 0 0 0 Toy.f0.

(** A split whose arrays differ in length. *)
Definition ragged : Data := mkData [1; 2] [3] [] [] [].

(** Stand-ins for [int] and [float]: they read unsigned decimal integers and
    raise [ValueError] on anything else. *)
Fixpoint read_digits (s : string) (acc : Z) : option Z :=
  match s with
  | EmptyString => Some acc
  | String c s' =>
      let n := Z.of_nat (Ascii.nat_of_ascii c) in
      if (48 <=? n) && (n <=? 57) then read_digits s' (10 * acc + (n - 48))
      else None
  end.

Definition decimal (s : string) : Result Z :=
  match s with
  | EmptyString => Err (ValueError "invalid literal")
  | _ => match read_digits s 0 with
         | Some z => Ok z
         | None => Err (ValueError "invalid literal")
         end
  end.

Definition builtins : Builtins := {|
  py_int := decimal;
  py_float := fun s => x <- decimal s ;; Ok (float_of_int x)
|}.

Definition nl : string := String (Ascii.ascii_of_nat 10) EmptyString.

(** A file of a header and three edges, and one whose only data line stops
    after three fields. *)
Definition csv : list string :=
  [("ts,u,i,a,b,f5,f6,f7,f8,label" ++ nl)%string;
   ("10,0,1,0,0,1,2,3,4,0" ++ nl)%string;
   ("11,1,0,0,0,5,6,7,8,1" ++ nl)%string;
   ("12,0,0,0,0,9,10,11,12,0" ++ nl)%string].

Definition csv_short : list string :=
  [("ts,u,i,a,b,f5,f6,f7,f8,label" ++ nl)%string; ("10,0,1" ++ nl)%string].

End Corner.

(** * Properties *)

(** ** Lists, ranges and boolean indexing *)

Section ListFacts.

Context {A B : Type}.

Lemma select_map (f : A -> bool) (l : list A) :
  Select.select l (map f l) = filter f l.
Proof.
  induction l as [|x l IH]; simpl; [reflexivity|].
  rewrite IH. reflexivity.
Qed.

Lemma combine_nil_r (l : list A) : combine l (@nil B) = [].
Proof. destruct l; reflexivity. Qed.

Lemma select_combine (a : list A) (b : list B) (k : list bool) :
  Select.select (combine a b) k
  = combine (Select.select a k) (Select.select b k).
Proof.
  revert b k. induction a as [|x a IH]; intros b k; simpl.
  - reflexivity.
  - destruct b as [|y b]; simpl.
    + destruct k as [|c k]; [reflexivity|].
      destruct c; simpl; rewrite ?combine_nil_r; reflexivity.
    + destruct k as [|c k]; [reflexivity|].
      destruct c; simpl; rewrite IH; reflexivity.
Qed.

Lemma length_select (a : list A) (b : list B) (k : list bool) :
  length a = length k -> length b = length k ->
  length (Select.select a k) = length (Select.select b k).
Proof.
  revert b k. induction a as [|x a IH]; intros b k Ha Hb.
  - destruct k; [|discriminate]. destruct b; [reflexivity|discriminate].
  - destruct k as [|c k]; [discriminate|].
    destruct b as [|y b]; [discriminate|].
    simpl in *. injection Ha as Ha. injection Hb as Hb.
    destruct c; simpl; rewrite (IH b k) by assumption; reflexivity.
Qed.

Lemma map_fst_combine_eq {X : Type} (f : A -> X) (g : A * B -> X)
    (a : list A) (b : list B) :
  length b = length a ->
  (forall p, g p = f (fst p)) ->
  map g (combine a b) = map f a.
Proof.
  intros H Hg. revert b H. induction a as [|x a IH]; intros b H; simpl.
  - reflexivity.
  - destruct b as [|y b]; [discriminate|].
    simpl in *. injection H as H. rewrite IH, Hg by assumption. reflexivity.
Qed.

End ListFacts.

Lemma combine_map_or {A B} (f : A -> bool) (g : B -> bool) a b :
  map (fun p => orb (fst p) (snd p)) (combine (map f a) (map g b))
  = map (fun p => orb (f (fst p)) (g (snd p))) (combine a b).
Proof.
  revert b. induction a as [|x a IH]; intros b; simpl; [reflexivity|].
  destruct b as [|y b]; simpl; [reflexivity|].
  rewrite IH. reflexivity.
Qed.

Lemma mem_In x l : Select.mem x l = true <-> In x l.
Proof.
  unfold Select.mem. rewrite existsb_exists. split.
  - intros [y [Hy E]]. apply Z.eqb_eq in E. subst. assumption.
  - intros H. exists x. split; [assumption|apply Z.eqb_refl].
Qed.

Lemma in_range2 a b x : In x (range2 a b) <-> a <= x < b.
Proof.
  unfold range2. rewrite in_map_iff. split.
  - intros [n [E H]]. apply in_seq in H. lia.
  - intros H. exists (Z.to_nat (x - a)). split; [lia|].
    apply in_seq. lia.
Qed.

Lemma NoDup_range2 a b : NoDup (range2 a b).
Proof.
  unfold range2. apply Injective_map_NoDup.
  - intros n m H. lia.
  - apply seq_NoDup.
Qed.

Lemma len_range2 a b : len (range2 a b) = Z.max 0 (b - a).
Proof.
  unfold len, range2. rewrite length_map, length_seq. lia.
Qed.

Lemma range2_nil a b : b <= a -> range2 a b = [].
Proof.
  intros H. unfold range2. replace (Z.to_nat (b - a)) with 0%nat by lia.
  reflexivity.
Qed.

Lemma range2_cons a b : a < b -> range2 a b = a :: range2 (a + 1) b.
Proof.
  intros H. unfold range2.
  replace (Z.to_nat (b - a)) with (S (Z.to_nat (b - (a + 1)))) by lia.
  cbn [seq map]. f_equal; [lia|].
  rewrite <- seq_shift, map_map. apply map_ext. intros n. lia.
Qed.

(** Induction along a range, from its lower end. *)
Lemma range2_ind (P : Z -> Z -> Prop) :
  (forall a b, b <= a -> P a b) ->
  (forall a b, a < b -> P (a + 1) b -> P a b) ->
  forall a b, P a b.
Proof.
  intros Hnil Hcons a b.
  remember (Z.to_nat (b - a)) as n eqn:En. revert a b En.
  induction n as [|n IH]; intros a b En.
  - apply Hnil. lia.
  - apply Hcons; [lia|]. apply IH. lia.
Qed.

Lemma range2_app a b c :
  a <= b -> b <= c -> range2 a b ++ range2 b c = range2 a c.
Proof.
  revert c. pattern a, b. apply range2_ind; clear a b.
  - intros a b Hba c Hab Hbc. replace b with a by lia.
    rewrite range2_nil by lia. reflexivity.
  - intros a b Hlt IH c _ Hbc.
    rewrite (range2_cons a b), (range2_cons a c) by lia.
    cbn [app]. f_equal. apply IH; lia.
Qed.

Lemma map_add_range2 k a b :
  map (Z.add k) (range2 a b) = range2 (k + a) (k + b).
Proof.
  unfold range2. rewrite map_map.
  replace (k + b - (k + a)) with (b - a) by lia.
  apply map_ext. intros n. lia.
Qed.

Lemma filter_below_range2 n a b :
  filter (fun x => negb (x >=? n)) (range2 a b) = range2 a (Z.min n b).
Proof.
  pattern a, b. apply range2_ind; clear a b.
  - intros a b H. rewrite !range2_nil by lia. reflexivity.
  - intros a b Hlt IH. rewrite (range2_cons a b) by lia. cbn [filter].
    rewrite IH. destruct (Z.geb_spec a n); cbn [negb].
    + rewrite !range2_nil by lia. reflexivity.
    + rewrite (range2_cons a (Z.min n b)) by lia. reflexivity.
Qed.

Lemma range2_snoc a b : a <= b -> range2 a (b + 1) = range2 a b ++ [b].
Proof.
  intros H. rewrite <- (range2_app a b (b + 1)) by lia.
  rewrite (range2_cons b (b + 1)), (range2_nil (b + 1) (b + 1)) by lia.
  reflexivity.
Qed.

(** [ceil_div] is the ceiling of the quotient. *)
Lemma ceil_div_bounds a b q :
  0 < b -> ceil_div a b = Ok q -> (q - 1) * b < a <= q * b.
Proof.
  intros Hb H. unfold ceil_div in H.
  destruct (Z.eqb_spec b 0); [lia|]. injection H as <-.
  pose proof (Z.div_mod (- a) b ltac:(lia)) as E.
  pose proof (Z.mod_pos_bound (- a) b Hb) as R. nia.
Qed.

(** *** The binary64 quotient and its ceiling *)

Lemma ceil_unique (a b c : Z) :
  0 < b -> (c - 1) * b < a <= c * b -> - ((- a) / b) = c.
Proof.
  intros Hb H.
  assert (E : - a / b = - c).
  { symmetry. apply (Z.div_unique (- a) b (- c) (c * b - a)); lia. }
  rewrite E. lia.
Qed.

Lemma ceil_bounds (a b : Z) :
  0 < b -> (- ((- a) / b) - 1) * b < a <= - ((- a) / b) * b.
Proof.
  intros Hb. pose proof (Z.div_mod (- a) b ltac:(lia)) as E.
  pose proof (Z.mod_pos_bound (- a) b Hb) as B. nia.
Qed.

(** Rounding [a * S / b] to a neighbouring integer [m], to the nearest
    one, does not move the ceiling of [m / S] away from that of [a / b]
    when [b < 2 * S]. *)
Lemma round_ceil (a b S q r m : Z) :
  0 < a -> 0 < b -> 0 < S -> b < 2 * S ->
  a * S = b * q + r -> 0 <= r < b ->
  (m = q /\ 2 * r <= b) \/ (m = q + 1 /\ b <= 2 * r) ->
  - ((- m) / S) = - ((- a) / b).
Proof.
  intros Ha Hb HS HbS E Hr Hm.
  pose proof (ceil_bounds a b Hb) as C. set (c := - (- a / b)) in *.
  apply ceil_unique; [exact HS|].
  destruct Hm as [[-> Hm]|[-> Hm]]; split; nia.
Qed.

Lemma math_ceil_finite (m e : Z) :
  0 < m -> e <= 0 ->
  math_ceil (S754_finite false (Z.to_pos m) e) = Ok (- ((- m) / 2 ^ (- e))).
Proof.
  intros Hm He. unfold math_ceil. rewrite Z2Pos.id by exact Hm. f_equal.
  destruct (0 <=? e) eqn:E.
  - apply Z.leb_le in E. assert (e = 0) by lia. subst e. cbn [Z.opp Z.pow].
    change (2 ^ 0) with 1. rewrite Z.div_1_r. lia.
  - reflexivity.
Qed.

(** On ints below 2^53 [math.ceil(a / b)], computed through the binary64
    quotient, is the exact ceiling. *)
Lemma ceil_div_binary64 (a b : Z) :
  0 <= a < 2 ^ 53 -> 0 < b < 2 ^ 53 ->
  ceil_true_div a b = ceil_div a b.
Proof.
  intros Ha Hb. unfold ceil_true_div, true_div, ceil_div.
  assert (Eb : (b =? 0) = false) by (apply Z.eqb_neq; lia). rewrite Eb.
  destruct (a =? 0) eqn:Ea.
  { apply Z.eqb_eq in Ea. subst a. reflexivity. }
  apply Z.eqb_neq in Ea. assert (Ha' : 0 < a) by lia.
  rewrite (Z.abs_eq a), (Z.abs_eq b) by lia.
  unfold bit_length. rewrite Eb.
  assert (Ea0 : (a =? 0) = false) by (apply Z.eqb_neq; lia). rewrite Ea0.
  rewrite (Z.abs_eq a), (Z.abs_eq b) by lia.
  pose proof (Z.log2_nonneg a) as La0. pose proof (Z.log2_nonneg b) as Lb0.
  assert (La : Z.log2 a < 53) by (apply Z.log2_lt_pow2; lia).
  assert (Lb : Z.log2 b < 53) by (apply Z.log2_lt_pow2; lia).
  pose proof (Z.log2_spec b ltac:(lia)) as Sb.
  set (la := Z.log2 a) in *. set (lb := Z.log2 b) in *.
  replace (la + 1 - (lb + 1)) with (la - lb) by lia.
  set (p := if shl a (- (la - lb)) <? shl b (la - lb)
            then la - lb else la - lb + 1).
  assert (Hp : la - lb <= p <= la - lb + 1).
  { unfold p. destruct (_ <? _); lia. }
  clearbody p.
  replace (Z.max p (-1021)) with p by lia.
  set (e := p - 53). assert (He : e <= 0) by (unfold e; lia).
  assert (He' : - (lb) >= e) by (unfold e; lia).
  unfold shl. replace (Z.max 0 e) with 0 by lia.
  replace (Z.max 0 (- e)) with (- e) by lia.
  change (2 ^ 0) with 1. rewrite Z.mul_1_r.
  assert (HS : 2 ^ lb <= 2 ^ (- e)) by (apply Z.pow_le_mono_r; lia).
  assert (HS0 : 0 < 2 ^ lb) by (apply Z.pow_pos_nonneg; lia).
  assert (Hb2 : b < 2 * 2 ^ (- e)).
  { replace (Z.succ lb) with (lb + 1) in Sb by lia.
    rewrite Z.pow_add_r in Sb by lia. change (2 ^ 1) with 2 in Sb. lia. }
  pose proof (Z.div_mod (a * 2 ^ (- e)) b ltac:(lia)) as Edm.
  pose proof (Z.mod_pos_bound (a * 2 ^ (- e)) b ltac:(lia)) as Bmod.
  set (S := 2 ^ (- e)) in *.
  set (q := a * S / b) in *. set (r := (a * S) mod b) in *.
  set (m := if 2 * r <? b then q
            else if b <? 2 * r then q + 1 else if Z.even q then q else q + 1).
  assert (Hm : (m = q /\ 2 * r <= b) \/ (m = q + 1 /\ b <= 2 * r)).
  { unfold m. destruct (2 * r <? b) eqn:E1; [apply Z.ltb_lt in E1; left; lia|].
    apply Z.ltb_ge in E1.
    destruct (b <? 2 * r) eqn:E2; [apply Z.ltb_lt in E2; right; lia|].
    apply Z.ltb_ge in E2. destruct (Z.even q); [left|right]; lia. }
  clearbody m.
  pose proof (round_ceil a b S q r m Ha' (proj1 Hb) ltac:(lia) Hb2 Edm Bmod Hm)
    as R.
  pose proof (ceil_bounds a b (proj1 Hb)) as C.
  assert (Hc : 1 <= - (- a / b)) by nia.
  assert (Hm0 : 0 < m).
  { destruct (Z_lt_le_dec 0 m) as [H|H]; [exact H|exfalso].
    assert (0 <= - m / S) by (apply Z.div_pos; lia). lia. }
  destruct (m =? 2 ^ 53) eqn:E53.
  - apply Z.eqb_eq in E53.
    assert (He1 : e <> 0).
    { intros E0. unfold S in *. rewrite E0 in *. change (2 ^ (- 0)) with 1 in *.
      nia. }
    assert (E52 : (2 ^ 52 =? 0) = false) by reflexivity. rewrite E52.
    assert (E971 : (971 <? e + 1) = false) by (apply Z.ltb_ge; lia).
    rewrite E971. cbn [bind xorb].
    assert (Ea1 : (a <? 0) = false) by (apply Z.ltb_ge; lia).
    assert (Eb1 : (b <? 0) = false) by (apply Z.ltb_ge; lia).
    rewrite Ea1, Eb1. cbn [xorb].
    rewrite math_ceil_finite by lia. f_equal. rewrite <- R, E53.
    unfold S. replace (- e) with (1 + - (e + 1)) by lia.
    rewrite Z.pow_add_r by lia. change (2 ^ 1) with 2.
    change (- 2 ^ 53) with (2 * - 2 ^ 52).
    rewrite Z.div_mul_cancel_l; [reflexivity| |lia].
    apply Z.pow_nonzero; lia.
  - assert (Em0 : (m =? 0) = false) by (apply Z.eqb_neq; lia). rewrite Em0.
    assert (E971 : (971 <? e) = false) by (apply Z.ltb_ge; lia).
    rewrite E971. cbn [bind].
    assert (Ea1 : (a <? 0) = false) by (apply Z.ltb_ge; lia).
    assert (Eb1 : (b <? 0) = false) by (apply Z.ltb_ge; lia).
    rewrite Ea1, Eb1. cbn [xorb].
    rewrite math_ceil_finite by lia. f_equal. exact R.
Qed.

(** [true_div] against the binary64 division of the Standard Library, on
    operands that binary64 represents exactly. *)
Example true_div_is_binary64_division :
  true_div 6 2 = Ok (SFdiv prec emax (float_of_int 6) (float_of_int 2)) /\
  true_div 5 2 = Ok (SFdiv prec emax (float_of_int 5) (float_of_int 2)) /\
  true_div 1 3 = Ok (SFdiv prec emax (float_of_int 1) (float_of_int 3)) /\
  true_div (- 7) 3
  = Ok (SFdiv prec emax (float_of_int (- 7)) (float_of_int 3)) /\
  true_div (2 ^ 53 - 1) (2 ^ 53 - 2)
  = Ok (SFdiv prec emax (float_of_int (2 ^ 53 - 1))
          (float_of_int (2 ^ 53 - 2))) /\
  true_div 1 (2 ^ 53 - 1)
  = Ok (SFdiv prec emax (float_of_int 1) (float_of_int (2 ^ 53 - 1))).
Proof. repeat split. Qed.

(** Beyond 2^53 the two ceilings part: the quotient [5 / 10**325] rounds to
    [0.0], whose ceiling is 0, and a quotient above the binary64 range
    raises. *)
Example ceil_true_div_beyond_binary64 :
  ceil_true_div 5 (10 ^ 325) = Ok 0 /\ ceil_div 5 (10 ^ 325) = Ok 1 /\
  ceil_true_div (2 ^ 1024) 1 = Err OverflowError.
Proof. repeat split. Qed.

Lemma firstn_add_skipn {A} (l : list A) (n m : nat) :
  firstn n l ++ firstn m (skipn n l) = firstn (n + m) l.
Proof.
  revert l. induction n as [|n IH]; intros l; [reflexivity|].
  destruct l as [|x l]; cbn.
  - rewrite firstn_nil. reflexivity.
  - rewrite IH. reflexivity.
Qed.

Lemma slice_inside {A} (l : list A) (a b : Z) :
  0 <= a <= b -> b <= len l ->
  slice l a b = firstn (Z.to_nat (b - a)) (skipn (Z.to_nat a) l).
Proof.
  intros Hab Hb. unfold slice, slice_bound.
  destruct (Z.ltb_spec a 0); [lia|]. destruct (Z.ltb_spec b 0); [lia|].
  rewrite !Z.min_l by lia. reflexivity.
Qed.

(** Consecutive slices of width [w], the last one cut at the end, put the
    sequence back together. *)
Lemma slices_cover {A} (l : list A) (w q : Z) :
  0 < w -> (q - 1) * w < len l <= q * w ->
  concat (map (fun b => slice l (b * w) (Z.min (len l) ((b + 1) * w)))
              (range1 q)) = l.
Proof.
  intros Hw Hq.
  assert (Hpre : forall m : nat, Z.of_nat m <= q ->
    concat (map (fun b => slice l (b * w) (Z.min (len l) ((b + 1) * w)))
                (range2 0 (Z.of_nat m)))
    = firstn (Z.to_nat (Z.min (len l) (Z.of_nat m * w))) l).
  { induction m as [|m IH]; intros Hm.
    - cbn. rewrite Z.min_r by (unfold len; lia). reflexivity.
    - replace (Z.of_nat (S m)) with (Z.of_nat m + 1) by lia.
      rewrite range2_snoc, map_app, concat_app by lia. cbn [map concat].
      rewrite app_nil_r, IH by lia.
      assert (Z.of_nat m * w < len l) by nia.
      rewrite slice_inside by lia.
      rewrite (Z.min_r (len l) (Z.of_nat m * w)) by lia.
      rewrite firstn_add_skipn. f_equal. lia. }
  assert (0 <= q) by (pose proof (Zle_0_nat (length l)); unfold len in Hq; nia).
  unfold range1. rewrite <- (Z2Nat.id q) at 1 by lia.
  rewrite Hpre by lia. rewrite Z2Nat.id by lia.
  rewrite Z.min_l by lia. unfold len. rewrite Nat2Z.id. apply firstn_all.
Qed.

(** The start indices produced by [range(0, stop, step)] lie below [stop],
    and the range reaches [stop]. *)
Lemma range_len_bounds (stop step : Z) :
  0 < step ->
  (forall i : nat, (i < Z.to_nat (range_len 0 stop step))%nat ->
                   Z.of_nat i * step < stop) /\
  stop <= Z.of_nat (Z.to_nat (range_len 0 stop step)) * step.
Proof.
  intros Hs. unfold range_len.
  destruct (Z.ltb_spec 0 step); [|lia].
  destruct (Z.ltb_spec 0 stop).
  - pose proof (Z.mul_div_le (stop - 0 - 1) step Hs).
    pose proof (Z.mul_succ_div_gt (stop - 0 - 1) step Hs).
    pose proof (Z.div_pos (stop - 0 - 1) step ltac:(lia) Hs).
    split; [intros i Hi; nia|nia].
  - split; [intros i Hi; cbn in Hi; lia|]. cbn. lia.
Qed.

(** ** Inductive experiments *)

Section SelectFacts.

Import Select.

Lemma edges_length d :
  aligned d -> length (edges d) = length (sources d).
Proof.
  intros (Hd & Ht & He & Hl). unfold edges, edge.
  rewrite !length_combine. lia.
Qed.

Lemma keep_mask_edges d sample :
  aligned d ->
  tensor_or (any_eq (sources d) sample) (any_eq (destinations d) sample)
  = Ok (map (touches sample) (edges d)).
Proof.
  intros (Hd & Ht & He & Hl). unfold tensor_or, any_eq.
  rewrite !length_map, Hd, Nat.eqb_refl. f_equal.
  rewrite combine_map_or. unfold edges. symmetry.
  rewrite (map_fst_combine_eq
    (fun q => mem (fst (fst (fst q))) sample || mem (snd (fst (fst q))) sample)
    (touches sample)); [|rewrite !length_combine; lia|reflexivity].
  rewrite (map_fst_combine_eq
    (fun q => mem (fst (fst q)) sample || mem (snd (fst q)) sample));
    [|rewrite !length_combine; lia|reflexivity].
  rewrite (map_fst_combine_eq
    (fun q => mem (fst q) sample || mem (snd q) sample));
    [|rewrite !length_combine; lia|reflexivity].
  reflexivity.
Qed.

(** A mask whose length is not one selects as a mask does, provided it is as
    long as the array. *)
Lemma bool_index_aligned {A} (arr : list A) {E} (es : list E) f :
  length arr = length es -> length es <> 1%nat ->
  bool_index arr (map negb (map f es))
  = Ok (Array (select arr (map negb (map f es)))).
Proof.
  intros H H1. unfold bool_index.
  destruct es as [|e1 [|e2 es]]; cbn [map].
  - destruct arr; [reflexivity|discriminate H].
  - exfalso. apply H1. reflexivity.
  - rewrite H. cbn [length]. rewrite !length_map, Nat.eqb_refl.
    reflexivity.
Qed.

(** A mask of two or more entries fails on an array of another length. *)
Lemma bool_index_long {A} (arr : list A) (keep : list bool) (x : item A) :
  (2 <= length keep)%nat -> bool_index arr keep = Ok x ->
  length arr = length keep.
Proof.
  intros H E. unfold bool_index in E.
  destruct keep as [|b1 [|b2 keep]]; cbn in H; try lia.
  destruct (Nat.eqb_spec (length arr) (length (b1 :: b2 :: keep)));
    [assumption|discriminate E].
Qed.

Lemma arrays_inj (d d' : Data) : arrays d = arrays d' -> d = d'.
Proof.
  destruct d, d'. unfold arrays. cbn. intros H. injection H as -> -> -> -> ->.
  reflexivity.
Qed.

(** The result of the exclusion step on an aligned split with a number of
    rows other than one. *)
Lemma apply_exclusion_selects (d : Data) (sample : list Z) :
  aligned d -> length (sources d) <> 1%nat ->
  let keep := map negb (map (touches sample) (edges d)) in
  let d' := mkData (select (sources d) keep) (select (destinations d) keep)
                   (select (timestamps d) keep) (select (edge_idxs d) keep)
                   (select (labels d) keep) in
  apply_inductive_experiment d (Some sample) = Ok (arrays d') /\
  aligned d' /\
  edges d' = filter (fun e => negb (touches sample e)) (edges d).
Proof.
  intros Hal H1 keep d'. pose proof (edges_length d Hal) as Hlen.
  pose proof Hal as (Hd & Ht & He & Hl).
  assert (Hk : length keep = length (sources d)).
  { unfold keep. rewrite !length_map. exact Hlen. }
  split; [|split].
  - unfold apply_inductive_experiment.
    rewrite (keep_mask_edges d sample Hal). cbn [bind].
    rewrite !(bool_index_aligned _ (edges d)) by congruence. reflexivity.
  - unfold aligned, d'. cbn [sources destinations timestamps edge_idxs labels].
    repeat split; apply length_select; congruence.
  - unfold edges at 1, d'.
    cbn [sources destinations timestamps edge_idxs labels].
    rewrite <- !select_combine. fold (edges d).
    unfold keep. rewrite map_map. apply select_map.
Qed.

(** The result of the exclusion step on an aligned split of one row: the
    mask has one entry and is taken as a position. *)
Lemma apply_exclusion_one (d : Data) (sample : list Z) (e : edge) :
  aligned d -> edges d = [e] ->
  apply_inductive_experiment d (Some sample)
  = if touches sample e then Ok (scalars e) else Err IndexError.
Proof.
  intros (Hd & Ht & He & Hl) Ee.
  destruct d as [S D T E L]. cbn in Hd, Ht, He, Hl.
  unfold edges in Ee. cbn [sources destinations timestamps edge_idxs labels]
    in Ee.
  destruct S as [|a S]; [discriminate Ee|].
  destruct D as [|b D]; [discriminate Hd|].
  destruct T as [|c T]; [discriminate Ht|].
  destruct E as [|x E]; [discriminate He|].
  destruct L as [|y L]; [discriminate Hl|].
  cbn in Ee, Hd, Ht, He, Hl. injection Ee as <- Ee.
  destruct S; [|destruct D; [discriminate Hd|];
                destruct T; [discriminate Ht|];
                destruct E; [discriminate He|];
                destruct L; [discriminate Hl|discriminate Ee]].
  destruct D; [|discriminate Hd]. destruct T; [|discriminate Ht].
  destruct E; [|discriminate He]. destruct L; [|discriminate Hl].
  unfold apply_inductive_experiment, tensor_or, any_eq, touches.
  cbn. destruct (mem a sample), (mem b sample); reflexivity.
Qed.

End SelectFacts.

Section Exclusion.

Import Select.

(** C5.  On an aligned split with a number of rows other than one,
    [apply_inductive_experiment] returns five arrays filtered by one mask:
    they stay aligned and their rows are the rows of the input, in their
    original order, whose source and destination are both outside the
    excluded node collection.  On an aligned split of exactly one row the
    one-entry mask is taken as a position: when the row is to be excluded
    the step returns its five fields as scalars, so the row is kept, and
    when the row is to be kept the step raises [IndexError]. *)
Theorem apply_exclusion_filters_edges (d : Data) (sample : list Z) :
  aligned d ->
  match edges d with
  | [e] =>
      apply_inductive_experiment d (Some sample)
      = if touches sample e then Ok (scalars e) else Err IndexError
  | _ =>
      exists d',
        apply_inductive_experiment d (Some sample) = Ok (arrays d') /\
        aligned d' /\
        edges d' = filter (fun e => negb (touches sample e)) (edges d) /\
        (forall e, In e (edges d') <->
                   In e (edges d) /\ ~ In (src e) sample /\
                   ~ In (dst e) sample)
  end.
Proof.
  intros Hal. pose proof (edges_length d Hal) as Hlen.
  assert (Hmany : length (sources d) <> 1%nat ->
            exists d',
              apply_inductive_experiment d (Some sample) = Ok (arrays d') /\
              aligned d' /\
              edges d' = filter (fun e => negb (touches sample e)) (edges d) /\
              (forall e, In e (edges d') <->
                         In e (edges d) /\ ~ In (src e) sample /\
                         ~ In (dst e) sample)).
  { intros H1.
    destruct (apply_exclusion_selects d sample Hal H1) as (Ea & Al & Ed).
    eexists. split; [exact Ea|]. split; [exact Al|]. split; [exact Ed|].
    intros e. rewrite Ed, filter_In. unfold touches.
    rewrite negb_true_iff, orb_false_iff.
    rewrite <- !not_true_iff_false, !mem_In. tauto. }
  destruct (edges d) as [|e [|e2 es]] eqn:Ee.
  - apply Hmany. cbn in Hlen. lia.
  - apply (apply_exclusion_one d sample e Hal Ee).
  - apply Hmany. cbn in Hlen. lia.
Qed.

Lemma apply_exclusion_filters_edges_witness :
  aligned Toy.three_edges /\
  exists d',
    apply_inductive_experiment Toy.three_edges (Some [2; 7])
    = Ok (arrays d') /\
    aligned d' /\
    edges d' = filter (fun e => negb (touches [2; 7] e))
                      (edges Toy.three_edges) /\
    (forall e, In e (edges d') <->
               In e (edges Toy.three_edges) /\
               ~ In (src e) [2; 7] /\ ~ In (dst e) [2; 7]).
Proof.
  assert (H : aligned Toy.three_edges) by (unfold aligned; simpl; auto).
  split; [exact H|].
  exact (apply_exclusion_filters_edges Toy.three_edges [2; 7] H).
Defined.

Example apply_exclusion_three_edges :
  apply_inductive_experiment Toy.three_edges (Some [2; 7])
  = Ok (arrays (mkData [1; 3] [4; 5] [float_of_int 10; float_of_int 12]
                       [1; 3] [S754_zero false; S754_zero false])).
Proof. reflexivity. Qed.

(** On a split of one edge the step keeps the edge it should drop, as five
    scalars, and raises on the edge it should keep. *)
Example apply_exclusion_single_edge :
  apply_inductive_experiment Toy.one_edge (Some [6])
  = Ok (mkIndexed (Scalar 1) (Scalar 6) (Scalar (float_of_int 6)) (Scalar 6)
                  (Scalar Toy.f0)) /\
  apply_inductive_experiment Toy.one_edge (Some [2; 7]) = Err IndexError.
Proof. split; reflexivity. Qed.

(** With two or more sources the exclusion step returns only on aligned
    arrays. *)
Lemma apply_exclusion_needs_alignment (d : Data) (x : Indexed)
    (sample : list Z) :
  (2 <= length (sources d))%nat ->
  apply_inductive_experiment d (Some sample) = Ok x -> aligned d.
Proof.
  intros H2 H. unfold apply_inductive_experiment in H.
  destruct (tensor_or _ _) as [mask|] eqn:Em; [|discriminate H].
  cbn [bind] in H.
  assert (Hm : length mask = length (sources d) /\
               (length (destinations d) = length (sources d) \/
                length (destinations d) = 1%nat)).
  { unfold tensor_or, any_eq in Em. rewrite !length_map in Em.
    destruct (Nat.eqb_spec (length (sources d)) (length (destinations d)))
      as [El|Nl].
    - injection Em as <-. rewrite length_map, length_combine, !length_map.
      split; [lia|left; lia].
    - destruct (sources d) as [|a [|a2 S]]; cbn in H2; try lia.
      cbn [map] in Em.
      destruct (map (fun x0 => mem x0 sample) (destinations d))
        as [|y [|y2 ys]] eqn:Ed; try discriminate Em.
      injection Em as <-. split; [cbn; rewrite !length_map; reflexivity|].
      right. apply (f_equal (@length bool)) in Ed.
      rewrite length_map in Ed. exact Ed. }
  destruct Hm as [Hm Hd].
  assert (Hk : (2 <= length (map negb mask))%nat)
    by (rewrite length_map; lia).
  repeat match type of H with
         | bind (bool_index ?arr ?k) _ = Ok _ =>
             let E := fresh "E" in
             let y := fresh "y" in
             destruct (bool_index arr k) as [y|] eqn:E; [|discriminate H];
             apply (bool_index_long _ _ _ Hk) in E; cbn [bind] in H
         end.
  rewrite length_map in *. unfold aligned. repeat split; congruence.
Qed.

(** C6.  With the tag ["None"] the selector returns Python's [None], not an
    empty collection, and the exclusion step that follows it raises on that
    value instead of leaving the training split unchanged. *)
Theorem noop_tag_breaks_exclusion {RS : RandomSource} (g : rng)
    (mal : list Z) (n : Z) (args_data : string) (train_data : Data) :
  compute_inductive_nodes mal g (Some "None") n = Ok None /\
  exclude_inductive_nodes g args_data (Some "None") train_data
  = Err AttributeError.
Proof. split; reflexivity. Qed.

Lemma eq_str_neq (tag : option string) (s : string) :
  tag <> Some s -> eq_str tag s = false.
Proof.
  intros H. destruct tag as [t|]; [|reflexivity].
  simpl. apply String.eqb_neq. congruence.
Qed.

(** C9.  A tag outside ["None"], ["Exp1"], ["Exp2"], ["Exp3"] (the absent
    option included) makes the selector raise [ValueError] with the message
    "Invalid experiment name."; the error is raised before the exclusion
    step, so no filtered split is produced. *)
Theorem unknown_tag_is_rejected {RS : RandomSource} (g : rng)
    (mal : list Z) (n : Z) (args_data : string) (train_data : Data)
    (tag : option string) :
  tag <> Some "None" -> tag <> Some "Exp1" ->
  tag <> Some "Exp2" -> tag <> Some "Exp3" ->
  compute_inductive_nodes mal g tag n
  = Err (ValueError "Invalid experiment name.") /\
  exclude_inductive_nodes g args_data tag train_data
  = Err (ValueError "Invalid experiment name.").
Proof.
  intros H0 H1 H2 H3.
  assert (E : forall mal' n', compute_inductive_nodes mal' g tag n'
                              = Err (ValueError "Invalid experiment name.")).
  { intros mal' n'. unfold compute_inductive_nodes.
    rewrite !eq_str_neq by assumption. reflexivity. }
  split; [apply E|].
  unfold exclude_inductive_nodes. rewrite E. reflexivity.
Qed.

Lemma unknown_tag_is_rejected_witness :
  compute_inductive_nodes (RS := first_k_source) OPTC_MALICIOUS_SRC_NODES tt
    (Some "Exp4") 975
  = Err (ValueError "Invalid experiment name.") /\
  exclude_inductive_nodes (RS := first_k_source) tt "OPTC" (Some "Exp4")
    Toy.three_edges
  = Err (ValueError "Invalid experiment name.").
Proof.
  apply (unknown_tag_is_rejected (RS := first_k_source) tt
           OPTC_MALICIOUS_SRC_NODES 975 "OPTC" Toy.three_edges (Some "Exp4"));
    discriminate.
Defined.

End Exclusion.

Section Selection.

Import Select.

Lemma first_k_meets_spec : sample_spec first_k_source.
Proof.
  split; intros g pop k; simpl; unfold first_k.
  - intros Hnd Hk.
    replace ((0 <=? k) && (k <=? len pop)) with true
      by (symmetry; apply andb_true_iff; split; apply Z.leb_le; lia).
    exists (firstn (Z.to_nat k) pop). split; [reflexivity|].
    split; [|split].
    + unfold len in *. rewrite length_firstn. lia.
    + rewrite <- (firstn_skipn (Z.to_nat k) pop) in Hnd.
      apply NoDup_app_remove_r in Hnd. exact Hnd.
    + intros x Hx. rewrite <- (firstn_skipn (Z.to_nat k) pop).
      apply in_or_app. left. exact Hx.
  - intros Hk.
    replace ((0 <=? k) && (k <=? len pop)) with false; [reflexivity|].
    symmetry. apply andb_false_iff.
    destruct (Z.leb_spec 0 k); [|left; reflexivity].
    right. apply Z.leb_gt. lia.
Qed.

Lemma assign_prefix_fits (sample values : list Z) :
  len values <= len sample ->
  assign_prefix sample values
  = Ok (values ++ skipn (length values) sample).
Proof.
  unfold len, assign_prefix. intros H.
  rewrite Nat.min_l by lia. rewrite Nat.eqb_refl. reflexivity.
Qed.

(** The two node counts of the script: [int(n * 0.3)] and [int(n * 0.5)] on
    binary64 are the exact floors. *)
Lemma percent_of_script_values :
  percent_of 975 f0_3 = Ok 292 /\ percent_of 15611 f0_3 = Ok 4683 /\
  percent_of 975 f0_5 = Ok 487 /\ percent_of 15611 f0_5 = Ok 7805.
Proof. repeat split; vm_compute; reflexivity. Qed.

(** C4, as the code has it.  For the experiment with fraction [p] and
    [k = int(n * p)]: the disjoint variant ["Exp1"] returns [k] distinct ids
    of [[1, n)], none of them sensitive; the inclusive variants ["Exp2"] and
    ["Exp3"] return [k] entries that start with the sensitive ids, followed
    by distinct ids of [[1, n)], so every sensitive id is present (and may
    occur a second time in the tail). *)
Theorem selection_size_and_membership {RS : RandomSource} (g : rng)
    (mal : list Z) (n : Z) (tag : string) (p : float) (k : Z) :
  sample_spec RS ->
  fraction_of tag = Some p ->
  percent_of n p = Ok k ->
  (if String.eqb tag "Exp1"
   then 0 <= k <= len (set_difference (range2 1 n) mal)
   else len mal <= k <= len (range2 1 n)) ->
  exists s,
    compute_inductive_nodes mal g (Some tag) n = Ok (Some s) /\
    len s = k /\
    if String.eqb tag "Exp1"
    then NoDup s /\ forall x, In x s -> 1 <= x < n /\ ~ In x mal
    else (forall x, In x mal -> In x s) /\
         exists tail, s = mal ++ tail /\ NoDup tail /\
                      forall x, In x tail -> 1 <= x < n.
Proof.
  intros [Hok _] Hp Hk Hsize.
  assert (Hinc : forall q, tag <> "Exp1" ->
            percent_of n q = Ok k ->
            exists s,
              (percent <- percent_of n q ;;
               sample <- random_sample g (range2 1 n) percent ;;
               sample <- assign_prefix sample mal ;;
               Ok (Some sample)) = Ok (Some s) /\
              len s = k /\
              (forall x, In x mal -> In x s) /\
              exists tail, s = mal ++ tail /\ NoDup tail /\
                           forall x, In x tail -> 1 <= x < n).
  { intros q Hne Hq. apply String.eqb_neq in Hne. rewrite Hne in Hsize.
    rewrite Hq. cbn [bind].
    destruct (Hok g (range2 1 n) k (NoDup_range2 1 n))
      as (s & Es & Ls & Ns & Is).
    { pose proof (Zle_0_nat (length mal)). unfold len in *. lia. }
    rewrite Es. cbn [bind].
    rewrite assign_prefix_fits by lia. cbn [bind].
    exists (mal ++ skipn (length mal) s). split; [reflexivity|].
    split; [|split].
    - unfold len in *. rewrite length_app, length_skipn. lia.
    - intros x Hx. apply in_or_app. left. exact Hx.
    - exists (skipn (length mal) s). split; [reflexivity|]. split.
      + rewrite <- (firstn_skipn (length mal) s) in Ns.
        apply NoDup_app_remove_l in Ns. exact Ns.
      + intros x Hx. apply in_range2, Is.
        rewrite <- (firstn_skipn (length mal) s).
        apply in_or_app. right. exact Hx. }
  unfold fraction_of in Hp. unfold compute_inductive_nodes.
  destruct (String.eqb tag "Exp1") eqn:E1.
  - apply String.eqb_eq in E1. subst tag. injection Hp as <-.
    cbn [eq_str String.eqb Ascii.eqb Bool.eqb].
    rewrite Hk. cbn [bind].
    destruct (Hok g (set_difference (range2 1 n) mal) k)
      as (s & Es & Ls & Ns & Is).
    { apply NoDup_filter, NoDup_range2. }
    { exact Hsize. }
    rewrite Es. cbn [bind]. exists s. split; [reflexivity|].
    split; [exact Ls|]. split; [exact Ns|].
    intros x Hx. apply Is in Hx. unfold set_difference in Hx.
    apply filter_In in Hx. destruct Hx as [Hr Hm].
    apply in_range2 in Hr. split; [exact Hr|].
    apply negb_true_iff in Hm. rewrite <- mem_In. congruence.
  - assert (Hne : tag <> "Exp1") by (apply String.eqb_neq; exact E1).
    destruct (String.eqb tag "Exp2") eqn:E2.
    + apply String.eqb_eq in E2. subst tag. injection Hp as <-.
      cbn [eq_str String.eqb Ascii.eqb Bool.eqb].
      apply (Hinc f0_3 Hne Hk).
    + destruct (String.eqb tag "Exp3") eqn:E3; [|discriminate].
      apply String.eqb_eq in E3. subst tag. injection Hp as <-.
      cbn [eq_str String.eqb Ascii.eqb Bool.eqb].
      apply (Hinc f0_5 Hne Hk).
Qed.

Lemma selection_size_and_membership_witness :
  exists s,
    compute_inductive_nodes (RS := first_k_source) OPTC_MALICIOUS_SRC_NODES tt
      (Some "Exp2") 975 = Ok (Some s) /\
    len s = 292 /\
    (forall x, In x OPTC_MALICIOUS_SRC_NODES -> In x s) /\
    exists tail, s = OPTC_MALICIOUS_SRC_NODES ++ tail /\ NoDup tail /\
                 forall x, In x tail -> 1 <= x < 975.
Proof.
  apply (selection_size_and_membership (RS := first_k_source) tt
           OPTC_MALICIOUS_SRC_NODES 975 "Exp2" f0_3 292).
  - exact first_k_meets_spec.
  - reflexivity.
  - vm_compute. reflexivity.
  - vm_compute. split; discriminate.
Defined.

(** C4, as stated, fails for the inclusive variants: with the script's OPTC
    constants and a draw that contains the sensitive id 201 after the first
    three positions, the 292 returned entries hold only 291 distinct ids. *)
Lemma selection_distinct_counterexample :
  exists s,
    compute_inductive_nodes (RS := first_k_source) OPTC_MALICIOUS_SRC_NODES tt
      (Some "Exp2") 975 = Ok (Some s) /\
    percent_of 975 f0_3 = Ok 292 /\
    len s = 292 /\
    len (nodup Z.eq_dec s) = 291 /\
    ~ NoDup s.
Proof.
  eexists. split; [vm_compute; reflexivity|].
  split; [vm_compute; reflexivity|].
  split; [vm_compute; reflexivity|].
  split; [vm_compute; reflexivity|].
  intros H. apply (NoDup_remove_2 [] _ 201) in H. apply H.
  apply mem_In. vm_compute. reflexivity.
Qed.

End Selection.

(** ** Re-indexing *)

Section Reindex.

Import Preprocess.

Lemma fold_max_bounds (t : list Z) (x : Z) :
  x <= fold_left Z.max t x /\
  (forall y, In y t -> y <= fold_left Z.max t x) /\
  (fold_left Z.max t x = x \/ In (fold_left Z.max t x) t).
Proof.
  revert x. induction t as [|a t IH]; intros x; simpl.
  - repeat split; [lia|contradiction|left; reflexivity].
  - destruct (IH (Z.max x a)) as (H1 & H2 & H3). repeat split.
    + lia.
    + intros y [<-|Hy]; [lia|apply H2, Hy].
    + destruct H3 as [H3|H3]; [|right; right; exact H3].
      rewrite H3. destruct (Z.max_spec x a) as [[_ E]|[_ E]]; rewrite E.
      * right. left. reflexivity.
      * left. reflexivity.
Qed.

Lemma fold_min_bounds (t : list Z) (x : Z) :
  fold_left Z.min t x <= x /\
  (forall y, In y t -> fold_left Z.min t x <= y) /\
  (fold_left Z.min t x = x \/ In (fold_left Z.min t x) t).
Proof.
  revert x. induction t as [|a t IH]; intros x; simpl.
  - repeat split; [lia|contradiction|left; reflexivity].
  - destruct (IH (Z.min x a)) as (H1 & H2 & H3). repeat split.
    + lia.
    + intros y [<-|Hy]; [lia|apply H2, Hy].
    + destruct H3 as [H3|H3]; [|right; right; exact H3].
      rewrite H3. destruct (Z.min_spec x a) as [[_ E]|[_ E]]; rewrite E.
      * left. reflexivity.
      * right. left. reflexivity.
Qed.

Lemma series_max_spec (s : list Z) :
  s <> [] ->
  exists hi, series_max s = Some hi /\ In hi s /\ forall y, In y s -> y <= hi.
Proof.
  destruct s as [|x t]; [congruence|]. intros _. simpl.
  destruct (fold_max_bounds t x) as (H1 & H2 & H3).
  eexists. split; [reflexivity|]. split.
  - destruct H3 as [->|H3]; [left; reflexivity|right; exact H3].
  - intros y [<-|Hy]; [exact H1|apply H2, Hy].
Qed.

Lemma series_min_spec (s : list Z) :
  s <> [] ->
  exists lo, series_min s = Some lo /\ In lo s /\ forall y, In y s -> lo <= y.
Proof.
  destruct s as [|x t]; [congruence|]. intros _. simpl.
  destruct (fold_min_bounds t x) as (H1 & H2 & H3).
  eexists. split; [reflexivity|]. split.
  - destruct H3 as [->|H3]; [left; reflexivity|right; exact H3].
  - intros y [<-|Hy]; [exact H1|apply H2, Hy].
Qed.

(** The assertion of [reindex] holds exactly on contiguous columns. *)
Lemma full_range_contiguous (s : list Z) :
  full_range s = true <-> contiguous s.
Proof.
  split.
  - intros H. unfold full_range in H.
    destruct s as [|x t]; [discriminate|].
    destruct (series_max_spec (x :: t)) as (hi & Ehi & Ihi & Bhi);
      [congruence|].
    destruct (series_min_spec (x :: t)) as (lo & Elo & Ilo & Blo);
      [congruence|].
    rewrite Ehi, Elo in H. apply Z.eqb_eq in H.
    exists lo, hi. split; [apply Blo, Ihi|].
    intros z. split; [intros Hz; split; [apply Blo|apply Bhi]; exact Hz|].
    intros Hz. apply (nodup_In Z.eq_dec).
    apply (NoDup_length_incl (NoDup_nodup Z.eq_dec (x :: t))
             (l' := range2 lo (hi + 1))).
    + pose proof (len_range2 lo (hi + 1)) as L. unfold len, unique in *. lia.
    + intros y Hy. apply nodup_In in Hy. apply in_range2.
      specialize (Blo y Hy). specialize (Bhi y Hy). lia.
    + apply in_range2. lia.
  - intros (lo & hi & Hle & Hin). unfold full_range.
    assert (Hne : s <> []).
    { intros ->. apply (proj2 (Hin lo)). lia. }
    destruct (series_max_spec s Hne) as (hi' & Ehi & Ihi & Bhi).
    destruct (series_min_spec s Hne) as (lo' & Elo & Ilo & Blo).
    rewrite Ehi, Elo. apply Z.eqb_eq.
    assert (hi' = hi).
    { apply Hin in Ihi. specialize (Bhi hi (proj2 (Hin hi) ltac:(lia))). lia. }
    assert (lo' = lo).
    { apply Hin in Ilo. specialize (Blo lo (proj2 (Hin lo) ltac:(lia))). lia. }
    subst hi' lo'.
    assert (L1 : (length (unique s) <= length (range2 lo (hi + 1)))%nat).
    { apply NoDup_incl_length; [apply NoDup_nodup|].
      intros y Hy. apply nodup_In, Hin in Hy. apply in_range2. lia. }
    assert (L2 : (length (range2 lo (hi + 1)) <= length (unique s))%nat).
    { apply NoDup_incl_length; [apply NoDup_range2|].
      intros y Hy. apply in_range2 in Hy. apply nodup_In, Hin. lia. }
    pose proof (len_range2 lo (hi + 1)) as L. unfold len in *. lia.
Qed.

(** *** int64 cells *)

Lemma wrap64_small (z : Z) : - 2 ^ 63 <= z < 2 ^ 63 -> wrap64 z = z.
Proof.
  intros H. unfold wrap64. rewrite Z.mod_small; lia.
Qed.

Lemma full_range_int64_exact (s : list Z) :
  (forall z, In z s -> - (2 ^ 62 - 1) <= z < 2 ^ 62 - 1) ->
  full_range_int64 s = full_range s.
Proof.
  intros Hs. unfold full_range_int64, full_range.
  destruct s as [|x t]; [reflexivity|].
  destruct (series_max_spec (x :: t)) as (hi & Ehi & Ihi & _); [congruence|].
  destruct (series_min_spec (x :: t)) as (lo & Elo & Ilo & _); [congruence|].
  rewrite Ehi, Elo. apply Hs in Ihi. apply Hs in Ilo.
  unfold int64_add, int64_sub.
  rewrite (wrap64_small (hi - lo)) by lia.
  rewrite (wrap64_small (hi - lo + 1)) by lia. reflexivity.
Qed.

(** As long as the ids are of magnitude below 2^62 - 1 no sum of [reindex]
    leaves the int64 range: the cells hold the exact integers. *)
Lemma reindex_int64_exact (df : DataFrame) (bipartite : bool) :
  ids_below (2 ^ 62 - 1) df -> reindex_int64 df bipartite = reindex df bipartite.
Proof.
  intros Hb. unfold reindex_int64, reindex.
  assert (Hu : forall z, In z (column u df) -> - (2 ^ 62 - 1) <= z < 2 ^ 62 - 1).
  { intros z Hz. apply in_map_iff in Hz. destruct Hz as (r & <- & Hr).
    apply (Hb r Hr). }
  assert (Hi : forall z, In z (column i df) -> - (2 ^ 62 - 1) <= z < 2 ^ 62 - 1).
  { intros z Hz. apply in_map_iff in Hz. destruct Hz as (r & <- & Hr).
    apply (Hb r Hr). }
  rewrite (full_range_int64_exact _ Hu), (full_range_int64_exact _ Hi).
  destruct bipartite.
  - destruct (full_range (column u df)); [|reflexivity].
    destruct (full_range (column i df)); [|reflexivity].
    cbn [assert bind].
    destruct (series_max (column u df)) as [u_max|] eqn:Em; [|reflexivity].
    assert (Hmax : - (2 ^ 62 - 1) <= u_max < 2 ^ 62 - 1).
    { destruct df as [|r0 df0]; [discriminate Em|].
      destruct (series_max_spec (column u (r0 :: df0))) as (m & Em' & Im & _);
        [discriminate|].
      rewrite Em in Em'. injection Em' as <-. apply Hu, Im. }
    rewrite !map_map. f_equal. apply map_ext_in. intros r Hr.
    destruct (Hb r Hr) as (A1 & A2 & A3).
    unfold set_u, set_i, set_idx, int64_add. cbn [u i ts label idx].
    rewrite (wrap64_small (u_max + 1)) by lia.
    rewrite (wrap64_small (i r + (u_max + 1))) by lia.
    rewrite (wrap64_small (i r + (u_max + 1) + 1)) by lia.
    rewrite (wrap64_small (u r + 1)) by lia.
    rewrite (wrap64_small (idx r + 1)) by lia. reflexivity.
  - rewrite !map_map. f_equal. apply map_ext_in. intros r Hr.
    destruct (Hb r Hr) as (A1 & A2 & A3).
    unfold set_u, set_i, set_idx, int64_add. cbn [u i ts label idx].
    rewrite (wrap64_small (i r + 1)) by lia.
    rewrite (wrap64_small (u r + 1)) by lia.
    rewrite (wrap64_small (idx r + 1)) by lia. reflexivity.
Qed.

(** Beyond the int64 range the cells wrap: the largest int64 id becomes
    the smallest. *)
Example reindex_int64_wraps (x y : float) :
  reindex_int64 [mkRow (2 ^ 63 - 1) 0 x y 0] false
  = Ok [mkRow (- 2 ^ 63) 1 x y 1] /\
  reindex [mkRow (2 ^ 63 - 1) 0 x y 0] false = Ok [mkRow (2 ^ 63) 1 x y 1].
Proof. split; reflexivity. Qed.

Lemma small_ids_below (df : DataFrame) : small_ids df -> ids_below (2 ^ 62 - 1) df.
Proof.
  intros H r Hr. destruct (H r Hr) as (A1 & A2 & A3). lia.
Qed.

(** C10, as the code has it.  On a frame whose source ids and destination
    ids each form a contiguous integer range, the bipartite [reindex]
    returns a frame with the same rows in the same order, where source ids
    and edge indices are incremented by 1 and destination ids are shifted by
    the largest source id plus 2; every new destination id exceeds every
    new source id provided the destination ids are non-negative.  On a frame
    that violates contiguity it raises [AssertionError].  The ids are taken
    of magnitude below 2^60, where the int64 columns cannot overflow: the
    statement is about [reindex_int64], the computation on the cells. *)
Theorem reindex_bipartite (df : DataFrame) :
  small_ids df ->
  (contiguous (column u df) -> contiguous (column i df) ->
   exists u_max df',
     series_max (column u df) = Some u_max /\
     reindex_int64 df true = Ok df' /\
     df' = map (fun r => mkRow (u r + 1) (i r + (u_max + 1) + 1)
                               (ts r) (label r) (idx r + 1)) df /\
     length df' = length df /\
     ((forall r, In r df -> 0 <= i r) ->
      forall r r', In r df' -> In r' df' -> u r < i r')) /\
  (~ (contiguous (column u df) /\ contiguous (column i df)) ->
   reindex_int64 df true = Err AssertionError).
Proof.
  intros Hs. rewrite (reindex_int64_exact df true (small_ids_below df Hs)).
  split.
  - intros Hu Hi.
    pose proof (proj2 (full_range_contiguous _) Hu) as Fu.
    pose proof (proj2 (full_range_contiguous _) Hi) as Fi.
    destruct Hu as (lo & hi & Hle & Hin).
    assert (Hne : column u df <> []).
    { intros E. rewrite E in Hin. apply (proj2 (Hin lo)). lia. }
    destruct (series_max_spec _ Hne) as (u_max & Emax & Imax & Bmax).
    exists u_max. eexists. split; [exact Emax|].
    unfold reindex. rewrite Fu, Fi, Emax. cbn [assert bind].
    rewrite !map_map. split; [reflexivity|]. split; [reflexivity|].
    split; [apply length_map|].
    intros Hpos r r' Hr Hr'.
    apply in_map_iff in Hr. destruct Hr as (a & <- & Ha).
    apply in_map_iff in Hr'. destruct Hr' as (b & <- & Hb).
    cbn [u i set_u set_i set_idx].
    specialize (Hpos b Hb).
    assert (u a <= u_max).
    { apply Bmax. unfold column. apply in_map. exact Ha. }
    lia.
  - intros Hn. unfold reindex.
    destruct (full_range (column u df)) eqn:Fu; [|reflexivity].
    destruct (full_range (column i df)) eqn:Fi; [|reflexivity].
    exfalso. apply Hn. split; apply full_range_contiguous; assumption.
Qed.

End Reindex.

(** ** The training driver *)

Section Driver.

Import Select Train.

Context {C : Collaborators}.
Variable args : Args.
Variable data : Splits.

Local Open Scope run_scope.

Lemma same_books_refl (s : State) : same_books s s.
Proof. unfold same_books. repeat split. Qed.

Lemma same_books_trans (s1 s2 s3 : State) :
  same_books s1 s2 -> same_books s2 s3 -> same_books s1 s3.
Proof.
  unfold same_books.
  intros (A1 & A2 & A3 & A4 & A5 & A6 & A7) (B1 & B2 & B3 & B4 & B5 & B6 & B7).
  repeat split; congruence.
Qed.

(** Symbolic execution of the script monad in a hypothesis. *)
Ltac run_in H :=
  unfold now, evaluate, backup_memory, restore_memory, when, on_memory,
    on_net, log, lift, raise, mbind, get, modify, ret in H;
  cbn in H.

Lemma mbind_ok {A B} (m : M A) (k : A -> M B) (s s1 : State) (a : A) :
  m s = Ok (a, s1) -> mbind m k s = k a s1.
Proof. intros H. unfold mbind. rewrite H. reflexivity. Qed.

Lemma mbind_err {A B} (m : M A) (k : A -> M B) (s : State) (e : exn) :
  m s = Err e -> mbind m k s = Err e.
Proof. intros H. unfold mbind. rewrite H. reflexivity. Qed.

(** The number of edges in batch [b]. *)
Local Abbreviation size_of ni b :=
  (len (batch_of args ni (sources (train_data data)) b)).

Lemma batch_of_slice {A} (ni : Z) (l : list A) (b : Z) :
  slice l (b * bs args) (Z.min ni (b * bs args + bs args))
  = batch_of args ni l b.
Proof.
  unfold batch_of.
  replace ((b + 1) * bs args) with (b * bs args + bs args) by lia.
  reflexivity.
Qed.

(** One batch: skipped at or beyond the batch count; refused by the loss
    when it holds exactly one edge; otherwise it runs the model on its
    slices, leaves the books alone and puts a tensor in [loss]. *)
Lemma batch_body_run (ni nb k j : Z) (s : State) :
  if k + j >=? nb then batch_body args data ni nb k j s = Ok (tt, s)
  else if size_of ni (k + j) =? 1
  then batch_body args data ni nb k j s = Err shape_error
  else exists s',
    batch_body args data ni nb k j s = Ok (tt, s') /\
    same_books s s' /\ series s' = series s /\ m_loss s' = m_loss s /\
    optimizer s' = optimizer s /\
    trace s' = trace s ++ [batch_event args ni (k + j)] /\
    is_tensor (loss s') = true /\
    (tgn s', samplers s', tensor_of (loss s'))
    = learn_batch args data ni (tgn s, samplers s, tensor_of (loss s))
        (k + j).
Proof.
  unfold batch_body. destruct (k + j >=? nb); [reflexivity|].
  unfold learn_batch. rewrite !batch_of_slice.
  unfold mbind, get, modify, on_net, log, lift, squeezed_criterion. cbn.
  destruct (sample _ _ _) as [smp [u negs]]. cbn.
  destruct (compute_edge_probabilities _ _ _ _ _ _ _) as [t [pp np]]. cbn.
  destruct (size_of ni (k + j) =? 1); [reflexivity|].
  eexists. split; [reflexivity|]. cbn.
  repeat split; destruct (loss s); reflexivity.
Qed.

(** The batches of a group that are run: the members below the batch
    count. *)
Local Abbreviation live nb k js :=
  (filter (fun b => negb (b >=? nb)) (map (Z.add k) js)).

Lemma batches_loop_run (ni nb k : Z) (js : list Z) (s : State) :
  match for_each js (batch_body args data ni nb k) s with
  | Ok (_, s') =>
      (forall b, In b (live nb k js) -> size_of ni b <> 1) /\
      same_books s s' /\ series s' = series s /\ m_loss s' = m_loss s /\
      optimizer s' = optimizer s /\
      trace s' = trace s ++ map (batch_event args ni) (live nb k js) /\
      (live nb k js <> [] -> is_tensor (loss s') = true) /\
      (tgn s', samplers s', tensor_of (loss s'))
      = fold_left (learn_batch args data ni) (live nb k js)
                  (tgn s, samplers s, tensor_of (loss s))
  | Err e =>
      e = shape_error /\
      exists b, In b (live nb k js) /\ size_of ni b = 1
  end.
Proof.
  revert s. induction js as [|j js IH]; intros s.
  - cbn. rewrite app_nil_r.
    repeat split; auto using same_books_refl; try contradiction.
  - cbn [for_each map filter].
    pose proof (batch_body_run ni nb k j s) as Hb.
    destruct (k + j >=? nb) eqn:Eg; cbn [negb].
    + rewrite (mbind_ok _ _ _ _ _ Hb). apply IH.
    + destruct (size_of ni (k + j) =? 1) eqn:E1.
      * rewrite (mbind_err _ _ _ _ Hb). split; [reflexivity|].
        exists (k + j). split; [left; reflexivity|].
        apply Z.eqb_eq. exact E1.
      * destruct Hb as (s1 & Eb & B1 & S1 & M1 & O1 & T1 & L1 & F1).
        rewrite (mbind_ok _ _ _ _ _ Eb). specialize (IH s1).
        destruct (for_each js (batch_body args data ni nb k) s1)
          as [[u s']|e].
        -- destruct IH as (Z2 & B2 & S2 & M2 & O2 & T2 & L2 & F2).
           split.
           { intros b [<-|Hb]; [apply Z.eqb_neq; exact E1|apply Z2, Hb]. }
           split; [eapply same_books_trans; eassumption|].
           split; [congruence|]. split; [congruence|].
           split; [congruence|].
           split; [rewrite T2, T1, <- app_assoc; reflexivity|].
           split.
           { intros _. destruct (live nb k js) as [|b0 l0] eqn:El.
             - cbn in F2. injection F2 as _ _ F2.
               destruct (loss s'), (loss s1); cbn in *;
                 congruence.
             - apply L2. discriminate. }
           cbn [fold_left]. rewrite <- F1. exact F2.
        -- destruct IH as (Ee & b & Hb & Sb). split; [exact Ee|].
           exists b. split; [right; exact Hb|exact Sb].
Qed.

Lemma group_batches_range (nb k : Z) :
  group_batches args nb k = range2 k (Z.min nb (k + backprop_every args)).
Proof.
  unfold group_batches, range1.
  rewrite map_add_range2, filter_below_range2, Z.add_0_r. reflexivity.
Qed.

(** One gradient-accumulation group.  When it returns it had a batch to
    run and none of its batches held exactly one edge; it has logged its
    batches, then the parameter update, then the detach; it has left the
    books alone; and it has done to the learner what the spec says.  When
    it raises, it had no batch to run or one of its batches held exactly one
    edge. *)
Lemma group_body_run (ni nb k : Z) (s : State) :
  match group_body args data ni nb k s with
  | Ok (_, s') =>
      group_batches args nb k <> [] /\
      (forall b, In b (group_batches args nb k) -> size_of ni b <> 1) /\
      trace s' = trace s ++ group_events args ni nb k /\
      same_books s s' /\ series s' = series s /\
      learn_group args data ni nb (learner s) k = Some (learner s')
  | Err e =>
      group_batches args nb k = [] \/
      (e = shape_error /\
       exists b, In b (group_batches args nb k) /\ size_of ni b = 1)
  end.
Proof.
  pose proof (fun st =>
    batches_loop_run ni nb k (range1 (backprop_every args)) st) as Hloop.
  fold (group_batches args nb k) in Hloop.
  destruct (group_body args data ni nb k s) as [[u s']|e] eqn:Er;
    unfold group_body in Er; cbn in Er;
    destruct (zero_grad (optimizer s) (tgn s)) as [o t] eqn:Ez; cbn in Er;
    match type of Er with
    | context [mbind (for_each ?js ?body) _ ?st] =>
        specialize (Hloop st);
        destruct (for_each js body st) as [[u1 s1]|e1] eqn:El;
        [rewrite (mbind_ok _ _ _ _ _ El) in Er
        |rewrite (mbind_err _ _ _ _ El) in Er]
    end;
    try discriminate Er;
    try (injection Er as <-; right; exact Hloop);
    destruct Hloop as (Z1 & B1 & S1 & M1 & O1 & T1 & L1 & F1);
    unfold same_books in B1; cbn in B1, S1, M1, O1, T1, F1;
    cbn in Er; unfold lift, loss_idiv in Er;
    destruct (loss s1) as [z| |l] eqn:Eloss;
    try (destruct (backprop_every args =? 0); discriminate Er);
    try (left; destruct (group_batches args nb k) as [|b0 l0];
         [reflexivity|specialize (L1 ltac:(discriminate)); discriminate L1]);
    cbn in Er; rewrite O1 in Er;
    destruct (step o (backward (loss_div l (backprop_every args)) (tgn s1)))
      as [o' [n' m']] eqn:Est;
    cbn in Er; destruct (use_memory args) eqn:Um; cbn in Er;
    try discriminate Er;
    injection Er as _ Es; subst s'; cbn;
    (split; [intros Hnil; rewrite Hnil in F1; discriminate F1|]);
    (split; [exact Z1|]);
    unfold group_events; rewrite Um, T1, <- ?app_assoc; cbn;
    (split; [reflexivity|]); (split; [exact B1|]); (split; [exact S1|]);
    unfold learn_group, learner; rewrite Ez;
    match goal with
    | |- context [fold_left ?f ?l0 ?a] =>
        replace (fold_left f l0 a)
          with (tgn s1, samplers s1, tensor_of (LossTensor l)) by exact F1
    end;
    cbn; rewrite Est, ?Um, M1; reflexivity.
Qed.

(** The groups started by [range(0, num_batch, backprop_every)] are never
    empty and together enumerate the batches [0 .. num_batch - 1] in
    order. *)
Lemma groups_partition (nb : Z) (ks : list Z) :
  0 < backprop_every args ->
  range3 0 nb (backprop_every args) = Ok ks ->
  (forall k, In k ks -> group_batches args nb k <> []) /\
  concat (map (group_batches args nb) ks) = range1 nb.
Proof.
  intros Hbe Hks. unfold range3 in Hks.
  destruct (Z.eqb_spec (backprop_every args) 0); [lia|].
  injection Hks as <-.
  destruct (range_len_bounds nb _ Hbe) as [Hlt Hge].
  set (g := Z.to_nat (range_len 0 nb (backprop_every args))) in *.
  split.
  - intros k Hk. apply in_map_iff in Hk. destruct Hk as (i & <- & Hi).
    apply in_seq in Hi. specialize (Hlt i ltac:(lia)).
    rewrite group_batches_range, range2_cons by lia. discriminate.
  - assert (Hpre : forall m : nat, (m <= g)%nat ->
      concat (map (group_batches args nb)
                  (map (fun i => 0 + Z.of_nat i * backprop_every args)
                       (seq 0 m)))
      = range2 0 (Z.min nb (Z.of_nat m * backprop_every args))).
    { induction m as [|m IH]; intros Hm.
      - cbn. rewrite range2_nil by lia. reflexivity.
      - rewrite seq_S, !map_app, concat_app, IH by lia. cbn [map concat].
        rewrite app_nil_r, group_batches_range.
        specialize (Hlt m ltac:(lia)).
        rewrite (Z.min_r nb (Z.of_nat m * _)) by lia.
        rewrite range2_app by lia. f_equal. lia. }
    rewrite Hpre by lia. rewrite Z.min_l by lia. reflexivity.
Qed.

(** The groups of an epoch, in sequence. *)
Lemma groups_loop_run (ni nb : Z) (ks : list Z) (s : State) :
  match for_each ks (group_body args data ni nb) s with
  | Ok (_, s') =>
      (forall k, In k ks ->
         group_batches args nb k <> [] /\
         forall b, In b (group_batches args nb k) -> size_of ni b <> 1) /\
      trace s' = trace s ++ concat (map (group_events args ni nb) ks) /\
      same_books s s' /\ series s' = series s /\
      learn_groups args data ni nb (learner s) ks = Some (learner s')
  | Err e =>
      (exists k, In k ks /\ group_batches args nb k = []) \/
      (e = shape_error /\
       exists k b, In k ks /\ In b (group_batches args nb k) /\
                   size_of ni b = 1)
  end.
Proof.
  revert s. induction ks as [|k ks IH]; intros s.
  - cbn. rewrite app_nil_r.
    split; [intros k []|]. auto using same_books_refl.
  - cbn [for_each learn_groups].
    pose proof (group_body_run ni nb k s) as Hg.
    destruct (group_body args data ni nb k s) as [[u1 s1]|e] eqn:Eg.
    + rewrite (mbind_ok _ _ _ _ _ Eg).
      destruct Hg as (N1 & Z1 & T1 & B1 & S1 & F1). rewrite F1.
      specialize (IH s1).
      destruct (for_each ks (group_body args data ni nb) s1)
        as [[u s']|e].
      * destruct IH as (A2 & T2 & B2 & S2 & F2).
        split; [intros k' [<-|Hk]; [split; assumption|apply A2, Hk]|].
        split; [rewrite T2, T1, <- app_assoc; reflexivity|].
        split; [eapply same_books_trans; eassumption|].
        split; [congruence|exact F2].
      * destruct IH as [(k' & Hk & Hn)|(Ee & k' & b & Hk & Hb & Sb)].
        -- left. exists k'. split; [right; exact Hk|exact Hn].
        -- right. split; [exact Ee|].
           exists k', b. split; [right; exact Hk|]. split; assumption.
    + rewrite (mbind_err _ _ _ _ Eg).
      destruct Hg as [Hn|(Ee & b & Hb & Sb)].
      * left. exists k. split; [left; reflexivity|exact Hn].
      * right. split; [exact Ee|].
        exists k, b. split; [left; reflexivity|]. split; assumption.
Qed.

(** The training part of an epoch.  When it returns, every group had a
    batch to run, no batch held exactly one edge, and the learner is the one
    the spec describes.  When it raises, the group size is zero, or a group
    has no batch, or a batch holds exactly one edge. *)
Lemma train_phase_run (ni nb : Z) (s : State) :
  match train_phase args data ni nb s with
  | Ok (_, s') =>
      exists ks t,
        range3 0 nb (backprop_every args) = Ok ks /\
        trace s' = trace s
                   ++ (if use_memory args then [EvInitMemory] else [])
                   ++ concat (map (group_events args ni nb) ks) /\
        same_books s s' /\
        series s' = mkResults (val_aps (series s))
                      (new_nodes_val_aps (series s))
                      (train_losses (series s))
                      (epoch_times (series s) ++ [t])
                      (total_epoch_times (series s)) /\
        (forall k, In k ks ->
           group_batches args nb k <> [] /\
           forall b, In b (group_batches args nb k) -> size_of ni b <> 1) /\
        learn_epoch args data ni nb (tgn s) (optimizer s) (samplers s) ks
        = Some (learner s')
  | Err e =>
      backprop_every args = 0 \/
      exists ks,
        range3 0 nb (backprop_every args) = Ok ks /\
        ((exists k, In k ks /\ group_batches args nb k = []) \/
         (e = shape_error /\
          exists k b, In k ks /\ In b (group_batches args nb k) /\
                      size_of ni b = 1))
  end.
Proof.
  destruct (train_phase args data ni nb s) as [[start s']|e] eqn:Er;
    unfold train_phase in Er; run_in Er;
    destruct (time_time (clock s)) as [c0 t0]; cbn in Er;
    destruct (range3 0 nb (backprop_every args)) as [ks|e'] eqn:Eks.
  - exists ks.
    destruct (use_memory args) eqn:Um; cbn in Er;
      match type of Er with
      | context [for_each ?l ?body ?st] =>
          pose proof (groups_loop_run ni nb l st) as Hl;
          destruct (for_each l body st) as [[u1 s1]|e1] eqn:El;
          [|discriminate Er]
      end;
      cbn in Er; destruct (time_time (clock s1)) as [c1 t1]; cbn in Er;
      injection Er as Et Es; subst start s';
      destruct Hl as (A1 & T1 & B1 & S1 & F1);
      exists (fsub t1 t0);
      unfold learn_epoch, same_books, learner in *; cbn in *;
      rewrite ?Um;
      (split; [reflexivity|]);
      rewrite T1, S1; cbn; rewrite <- ?app_assoc;
      (split; [reflexivity|]); (split; [exact B1|]);
      (split; [reflexivity|]); (split; [exact A1|exact F1]).
  - destruct (use_memory args); cbn in Er; discriminate Er.
  - right. exists ks. split; [reflexivity|].
    destruct (use_memory args) eqn:Um; cbn in Er;
      match type of Er with
      | context [for_each ?l ?body ?st] =>
          pose proof (groups_loop_run ni nb l st) as Hl;
          destruct (for_each l body st) as [[u1 s1]|e1] eqn:El
      end;
      cbn in Er;
      try (destruct (time_time (clock s1)) as [c1 t1]; cbn in Er;
           discriminate Er);
      injection Er as <-; exact Hl.
  - left. unfold range3 in Eks.
    destruct (Z.eqb_spec (backprop_every args) 0);
      [assumption|discriminate Eks].
Qed.

(** The training part of an epoch, as it is used below. *)
Lemma train_phase_spec (ni nb : Z) (s : State) :
  (0 < backprop_every args ->
   (forall b, 0 <= b < nb -> size_of ni b <> 1) ->
   exists start s', train_phase args data ni nb s = Ok (start, s')) /\
  (forall start s', train_phase args data ni nb s = Ok (start, s') ->
     exists ks t,
       range3 0 nb (backprop_every args) = Ok ks /\
       trace s' = trace s
                  ++ (if use_memory args then [EvInitMemory] else [])
                  ++ concat (map (group_events args ni nb) ks) /\
       same_books s s' /\
       series s' = mkResults (val_aps (series s))
                     (new_nodes_val_aps (series s)) (train_losses (series s))
                     (epoch_times (series s) ++ [t])
                     (total_epoch_times (series s))).
Proof.
  pose proof (train_phase_run ni nb s) as H.
  destruct (train_phase args data ni nb s) as [[start s']|e].
  - split; [intros _ _; eauto|].
    intros st s'' [= <- <-].
    destruct H as (ks & t & Eks & T & B & S & _).
    exists ks, t. auto.
  - split; [|discriminate]. intros Hbe Hsz. exfalso.
    destruct H as [H0|(ks & Eks & H)]; [lia|].
    destruct (groups_partition nb ks Hbe Eks) as [Hne Hcat].
    destruct H as [(k & Hk & Hn)|(_ & k & b & Hk & Hb & Sb)].
    + apply (Hne k Hk Hn).
    + apply (Hsz b); [|exact Sb].
      apply in_range2. unfold range1 in Hcat. rewrite <- Hcat.
      apply in_concat. exists (group_batches args nb k).
      split; [apply in_map; exact Hk|exact Hb].
Qed.

(** Validation never fails.  With memory enabled, the memory that leaves it
    is the memory that left the seen-node evaluation. *)
Lemma validation_phase_spec (s : State) :
  exists t1 sm1 val t2 sm2 nn_val s',
    eval_edge_prediction
      (set_neighbor_finder (fst (tgn s)) full_ngh_finder, snd (tgn s))
      (samplers s) val_rand_sampler (val_data data) (n_degree args)
    = (t1, sm1, val) /\
    eval_edge_prediction
      (fst t1, if use_memory args then snd (tgn s) else snd t1)
      sm1 val_rand_sampler (new_node_val_data data) (n_degree args)
    = (t2, sm2, nn_val) /\
    validation_phase args data s = Ok ((val, nn_val), s') /\
    tgn s' = (fst t2, if use_memory args then snd t1 else snd t2) /\
    trace s' = trace s ++
      (if use_memory args
       then [EvBackupMemory train_slot (snd (tgn s));
             EvEvalPrediction val_split val;
             EvBackupMemory val_slot (snd t1);
             EvRestoreMemory train_slot (snd (tgn s));
             EvEvalPrediction new_node_val_split nn_val;
             EvRestoreMemory val_slot (snd t1)]
       else [EvEvalPrediction val_split val;
             EvEvalPrediction new_node_val_split nn_val]) /\
    thresholdOpt s' = Some (best_threshold nn_val) /\
    series s' = series s /\ m_loss s' = m_loss s /\
    checkpoints s' = checkpoints s /\ results_files s' = results_files s /\
    saved_model s' = saved_model s /\ early_stopper s' = early_stopper s /\
    train_memory_backup s'
    = (if use_memory args then Some (snd (tgn s))
       else train_memory_backup s) /\
    val_memory_backup s'
    = (if use_memory args then Some (snd t1) else val_memory_backup s).
Proof.
  destruct (validation_phase args data s) as [[r s']|e] eqn:Er;
    unfold validation_phase in Er; run_in Er;
    destruct (use_memory args) eqn:Um; run_in Er;
    destruct (tgn s) as [n0 m0] eqn:Et; cbn in *;
    destruct (eval_edge_prediction (set_neighbor_finder n0 full_ngh_finder, m0)
                _ _ _ _) as [[[n1 m1] sm1] val] eqn:E1; cbn in Er;
    match type of Er with
    | context [eval_edge_prediction ?t ?sm ?smp ?d ?k] =>
        destruct (eval_edge_prediction t sm smp d k)
          as [[[n2 m2] sm2] nn_val] eqn:E2
    end; cbn in Er; try discriminate Er;
    injection Er as Er Es; subst r;
    exists (n1, m1), sm1, val, (n2, m2), sm2, nn_val, s'; subst s';
    cbn; rewrite ?Et; cbn; repeat split; try reflexivity; try exact E2;
    rewrite <- ?app_assoc; reflexivity.
Qed.

(** The end of an epoch: one results file is written, between the appends
    of the validation series and the append of the total time. *)
Lemma epoch_tail_spec (run epoch : Z) (start : float) (val nn_val : EvalResult)
    (s : State) (stop : bool) (s' : State) :
  epoch_tail run epoch start val nn_val s = Ok (stop, s') ->
  let r := appended (series s) val nn_val (m_loss s) in
  exists t last,
    series s' = mkResults (val_aps r) (new_nodes_val_aps r) (train_losses r)
                          (epoch_times r) (total_epoch_times r ++ [t]) /\
    trace s' = trace s ++ [EvDumpResults run r; last] /\
    last = (if stop then EvLoadCheckpoint (best_epoch (early_stopper s'))
            else EvSaveCheckpoint epoch) /\
    results_files s' = (run, r) :: results_files s /\
    thresholdOpt s' = thresholdOpt s /\
    train_memory_backup s' = train_memory_backup s /\
    val_memory_backup s' = val_memory_backup s /\
    saved_model s' = saved_model s /\
    (stop = false -> tgn s' = tgn s) /\
    (stop = true ->
     exists sd,
       lookup (best_epoch (early_stopper s')) (checkpoints s) = Some sd /\
       tgn s' = (eval_mode (fst (load_state_dict (tgn s) sd)),
                 snd (load_state_dict (tgn s) sd))).
Proof.
  intros Er. unfold epoch_tail, record_results, early_stopping in Er.
  run_in Er.
  destruct (time_time (clock s)) as [c1 t1]. cbn in Er.
  destruct (early_stop_check (early_stopper s) (ap val)) as [es b] eqn:Ees.
  cbn in Er. destruct b.
  - destruct (lookup (best_epoch es) (checkpoints s)) as [sd|] eqn:Elk;
      cbn in Er; [|discriminate Er].
    injection Er as Eb Es. subst stop s'. cbn.
    exists (fsub t1 start). eexists.
    rewrite <- !app_assoc. cbn.
    repeat (split; [first [reflexivity | discriminate]|]).
    intros _. exists sd. split; [exact Elk|].
    destruct (load_state_dict (tgn s) sd). reflexivity.
  - cbn in Er. injection Er as Eb Es. subst stop s'. cbn.
    exists (fsub t1 start). eexists.
    rewrite <- !app_assoc. cbn.
    repeat (split; [reflexivity|]). discriminate.
Qed.

(** The code after the epoch loop.  It needs [thresholdOpt] to be bound.
    With memory enabled the memory that is saved is the memory found on
    entry, which is also the snapshot held by [val_memory_backup]. *)
Lemma finish_spec (s : State) (threshold : float) :
  thresholdOpt s = Some threshold ->
  exists t1 sm1 s',
    eval_edge_detection
      (set_embedding_neighbor_finder (fst (tgn s)) full_ngh_finder,
       snd (tgn s))
      (samplers s) nn_test_rand_sampler (new_node_test_data data) threshold
      (n_degree args)
    = (t1, sm1) /\
    finish args data s = Ok (tt, s') /\
    tgn s' = (fst t1, if use_memory args then snd (tgn s) else snd t1) /\
    saved_model s' = Some (state_dict (tgn s')) /\
    val_memory_backup s' = (if use_memory args then Some (snd (tgn s))
                            else val_memory_backup s) /\
    results_files s' = results_files s /\
    series s' = series s /\
    trace s' = trace s ++
      (if use_memory args
       then [EvBackupMemory val_slot (snd (tgn s));
             EvRestoreMemory val_slot (snd (tgn s));
             EvEvalDetection new_node_test_split threshold;
             EvRestoreMemory val_slot (snd (tgn s));
             EvSaveModel (state_dict (tgn s'))]
       else [EvEvalDetection new_node_test_split threshold;
             EvSaveModel (state_dict (tgn s'))]).
Proof.
  intros Ht.
  destruct (finish args data s) as [[u s']|e] eqn:Er;
    unfold finish in Er; run_in Er;
    destruct (use_memory args) eqn:Um; run_in Er;
    rewrite Ht in Er; cbn in Er;
    destruct (tgn s) as [n0 m0] eqn:Et; cbn in *;
    destruct (eval_edge_detection _ _ _ _ _ _) as [[n1 m1] sm1] eqn:E1;
    cbn in Er; try discriminate Er;
    injection Er as Eu Es; subst u;
    exists (n1, m1), sm1, s'; subst s'; cbn;
    rewrite <- ?app_assoc; repeat split.
Qed.

Lemma finish_unbound (s : State) :
  thresholdOpt s = None -> finish args data s = Err NameError.
Proof.
  intros Ht. unfold finish.
  destruct (use_memory args) eqn:Um;
    unfold backup_memory, restore_memory, when, on_net, log, mbind, get,
      modify, ret, raise; cbn; rewrite Ht; reflexivity.
Qed.

(** An epoch is its three phases in sequence. *)
Lemma epoch_body_split (run ni nb epoch : Z) (s : State) (stop : bool)
    (s' : State) :
  epoch_body args data run ni nb epoch s = Ok (stop, s') ->
  exists start s1 val nn_val s2,
    train_phase args data ni nb s = Ok (start, s1) /\
    validation_phase args data s1 = Ok ((val, nn_val), s2) /\
    epoch_tail run epoch start val nn_val s2 = Ok (stop, s').
Proof.
  intros H. unfold epoch_body in H.
  destruct (train_phase args data ni nb s) as [[start s1]|e] eqn:E1;
    [rewrite (mbind_ok _ _ _ _ _ E1) in H
    |rewrite (mbind_err _ _ _ _ E1) in H; discriminate H].
  destruct (validation_phase args data s1) as [[[val nn_val] s2]|e] eqn:E2;
    [rewrite (mbind_ok _ _ _ _ _ E2) in H
    |rewrite (mbind_err _ _ _ _ E2) in H; discriminate H].
  cbn [fst snd] in H. eauto 10.
Qed.

(** Invariants of a loop with [break]. *)
Lemma for_break_inv {A} (I : State -> Prop) (body : A -> M bool)
    (xs : list A) :
  (forall x s b s', I s -> body x s = Ok (b, s') -> I s') ->
  forall s u s', I s -> for_break xs body s = Ok (u, s') -> I s'.
Proof.
  intros Hbody. induction xs as [|x xs IH]; intros s u s' Hs H.
  - injection H as _ <-. exact Hs.
  - cbn [for_break] in H.
    destruct (body x s) as [[b s1]|e] eqn:Eb;
      [rewrite (mbind_ok _ _ _ _ _ Eb) in H
      |rewrite (mbind_err _ _ _ _ Eb) in H; discriminate H].
    pose proof (Hbody x s b s1 Hs Eb) as Hs1.
    destruct b.
    + injection H as _ <-. exact Hs1.
    + eapply IH; eassumption.
Qed.

Lemma batches_group_events (ni nb k : Z) :
  batches (group_events args ni nb k)
  = map (fun b => (b, b * bs args, Z.min ni ((b + 1) * bs args)))
        (group_batches args nb k).
Proof.
  unfold group_events, batches. rewrite flat_map_app.
  replace (flat_map _ (EvStep :: _)) with (@nil (Z * Z * Z))
    by (destruct (use_memory args); reflexivity).
  rewrite app_nil_r. induction (group_batches args nb k) as [|b l IH].
  - reflexivity.
  - cbn [map flat_map app batch_event]. rewrite IH.
    replace ((b + 1) * bs args) with (b * bs args + bs args) by lia.
    reflexivity.
Qed.

Lemma batches_groups (ni nb : Z) (ks : list Z) :
  batches (concat (map (group_events args ni nb) ks))
  = map (fun b => (b, b * bs args, Z.min ni ((b + 1) * bs args)))
        (concat (map (group_batches args nb) ks)).
Proof.
  induction ks as [|k ks IH]; [reflexivity|].
  cbn [map concat]. unfold batches in *.
  rewrite flat_map_app, map_app, IH.
  f_equal. apply batches_group_events.
Qed.

Lemma group_events_is_group (ni nb : Z) (ks : list Z) :
  use_memory args = true ->
  Forall is_group (map (group_events args ni nb) ks).
Proof.
  intros Um. apply Forall_forall. intros evs H.
  apply in_map_iff in H. destruct H as (k & <- & _).
  unfold group_events. rewrite Um.
  exists (map (batch_event args ni) (group_batches args nb k)).
  split; [|reflexivity].
  apply forallb_forall. intros e He. apply in_map_iff in He.
  destruct He as (b & <- & _). reflexivity.
Qed.

(** C1.  In an epoch with memory enabled that returns, the learner that
    leaves the training part is the one the spec describes, started on the
    freshly initialised memory and detaching the memory after the parameter
    update of every group; the train-memory backup holds the memory that
    left training, which is also what the seen-node evaluation receives; the
    val-memory backup holds the memory that the seen-node evaluation
    returned; the unseen-node evaluation receives the train-memory again;
    and the memory that leaves the validation part is the val-memory.  The
    trace shows the operations in this order.  An epoch that does not stop
    the run ends on that model; an epoch that stops it ends on the model
    loaded from the checkpoint of the best epoch, memory included. *)
Theorem epoch_memory_protocol (run ni nb epoch : Z) (s : State)
    (stop : bool) (s' : State) :
  use_memory args = true ->
  epoch_body args data run ni nb epoch s = Ok (stop, s') ->
  exists ks start s1 t1 sm1 val t2 sm2 nn_val s2 r last,
    train_phase args data ni nb s = Ok (start, s1) /\
    range3 0 nb (backprop_every args) = Ok ks /\
    learn_groups args data ni nb
      ((set_neighbor_finder (fst (tgn s)) train_ngh_finder,
        init_memory (snd (tgn s))), optimizer s, samplers s, []) ks
    = Some (learner s1) /\
    eval_edge_prediction
      (set_neighbor_finder (fst (tgn s1)) full_ngh_finder, snd (tgn s1))
      (samplers s1) val_rand_sampler (val_data data) (n_degree args)
    = (t1, sm1, val) /\
    eval_edge_prediction (fst t1, snd (tgn s1)) sm1 val_rand_sampler
      (new_node_val_data data) (n_degree args)
    = (t2, sm2, nn_val) /\
    validation_phase args data s1 = Ok ((val, nn_val), s2) /\
    tgn s2 = (fst t2, snd t1) /\
    train_memory_backup s' = Some (snd (tgn s1)) /\
    val_memory_backup s' = Some (snd t1) /\
    epoch_tail run epoch start val nn_val s2 = Ok (stop, s') /\
    trace s' = trace s
      ++ [EvInitMemory]
      ++ concat (map (group_events args ni nb) ks)
      ++ [EvBackupMemory train_slot (snd (tgn s1));
          EvEvalPrediction val_split val;
          EvBackupMemory val_slot (snd t1);
          EvRestoreMemory train_slot (snd (tgn s1));
          EvEvalPrediction new_node_val_split nn_val;
          EvRestoreMemory val_slot (snd t1);
          EvDumpResults run r; last] /\
    Forall is_group (map (group_events args ni nb) ks) /\
    last = (if stop then EvLoadCheckpoint (best_epoch (early_stopper s'))
            else EvSaveCheckpoint epoch) /\
    if stop
    then exists sd,
           lookup (best_epoch (early_stopper s')) (checkpoints s2)
           = Some sd /\
           tgn s' = (eval_mode (fst (load_state_dict (tgn s2) sd)),
                     snd (load_state_dict (tgn s2) sd))
    else tgn s' = tgn s2.
Proof.
  intros Um H.
  destruct (epoch_body_split _ _ _ _ _ _ _ H)
    as (start & s1 & val & nn_val & s2 & E1 & E2 & E3).
  pose proof (train_phase_run ni nb s) as Ht. rewrite E1 in Ht.
  destruct Ht as (ks & t & Eks & T1 & _ & _ & _ & F1).
  destruct (validation_phase_spec s1)
    as (t1 & sm1 & val' & t2 & sm2 & nn' & s2' & V1 & V2 & V3 & V4 & V5
        & _ & _ & _ & _ & _ & _ & _ & Bt & Bv).
  rewrite E2 in V3. injection V3 as <- <- <-.
  destruct (epoch_tail_spec _ _ _ _ _ _ _ _ E3)
    as (t' & last & _ & T3 & L3 & _ & _ & Kt & Kv & _ & G3 & G4).
  unfold learn_epoch in F1. rewrite Um in *.
  exists ks, start, s1, t1, sm1, val, t2, sm2, nn_val, s2.
  exists (appended (series s2) val nn_val (m_loss s2)), last.
  split; [exact E1|]. split; [exact Eks|]. split; [exact F1|].
  split; [exact V1|]. split; [exact V2|]. split; [exact E2|].
  split; [exact V4|]. split; [rewrite Kt; exact Bt|].
  split; [rewrite Kv; exact Bv|]. split; [exact E3|]. split.
  - rewrite T3, V5, T1, <- !app_assoc. reflexivity.
  - split; [apply group_events_is_group, Um|]. split; [exact L3|].
    destruct stop; [apply G4|apply G3]; reflexivity.
Qed.

(** C2.  With memory enabled and a bound threshold, the code after the epoch
    loop returns; the snapshot [val_memory_backup] it takes first is the
    memory found on entry; the unseen-node test evaluation receives that
    memory and may return any other; the snapshot is restored before the
    save, so the live memory at the save, and the memory inside the saved
    state, is the snapshot. *)
Theorem saved_memory_is_validation_snapshot (s : State) (threshold : float) :
  use_memory args = true ->
  thresholdOpt s = Some threshold ->
  exists t1 sm1 s',
    eval_edge_detection
      (set_embedding_neighbor_finder (fst (tgn s)) full_ngh_finder,
       snd (tgn s))
      (samplers s) nn_test_rand_sampler (new_node_test_data data) threshold
      (n_degree args)
    = (t1, sm1) /\
    finish args data s = Ok (tt, s') /\
    val_memory_backup s' = Some (snd (tgn s)) /\
    snd (tgn s') = snd (tgn s) /\
    saved_model s' = Some (state_dict (fst t1, snd (tgn s))) /\
    trace s' = trace s ++
      [EvBackupMemory val_slot (snd (tgn s));
       EvRestoreMemory val_slot (snd (tgn s));
       EvEvalDetection new_node_test_split threshold;
       EvRestoreMemory val_slot (snd (tgn s));
       EvSaveModel (state_dict (fst t1, snd (tgn s)))].
Proof.
  intros Um Ht.
  destruct (finish_spec s threshold Ht)
    as (t1 & sm1 & s' & E & F & G & Sv & B & _ & _ & T).
  rewrite Um in *. exists t1, sm1, s'.
  split; [exact E|]. split; [exact F|]. split; [exact B|].
  split; [rewrite G; reflexivity|].
  rewrite <- G. split; [exact Sv|exact T].
Qed.

(** The number of edges in a batch below the batch count. *)
Lemma batch_of_length {A} (l : list A) (b : Z) :
  0 < bs args -> 0 <= b -> b * bs args < len l ->
  len (batch_of args (len l) l b) = Z.min (bs args) (len l - b * bs args).
Proof.
  intros Hbs Hb Hlt. unfold batch_of.
  rewrite slice_inside by lia.
  unfold len in *. rewrite length_firstn, length_skipn. lia.
Qed.

(** With the exact batch count, some batch holds exactly one edge when the
    batch size is one or the last batch is left with one edge. *)
Lemma lonely_batch (N nb : Z) :
  0 < bs args -> (nb - 1) * bs args < N <= nb * bs args ->
  (0 <? N) && ((bs args =? 1) || (N mod bs args =? 1)) = true <->
  exists b, 0 <= b < nb /\ Z.min (bs args) (N - b * bs args) = 1.
Proof.
  intros Hbs Hq. split.
  - intros H. apply andb_true_iff in H. destruct H as [HN H].
    apply Z.ltb_lt in HN. apply orb_true_iff in H.
    destruct H as [H|H]; apply Z.eqb_eq in H.
    + exists 0. split; [nia|]. lia.
    + pose proof (Z.mod_pos_bound N (bs args) Hbs) as Hm.
      pose proof (Z.div_mod N (bs args) ltac:(lia)) as Hd.
      exists (nb - 1). split; [nia|].
      assert (N / bs args = nb - 1) by nia. nia.
  - intros (b & Hb & Hm).
    assert (HN : 0 < N) by nia.
    apply andb_true_iff. split; [apply Z.ltb_lt; exact HN|].
    apply orb_true_iff.
    destruct (Z.eq_dec (bs args) 1) as [E1|N1];
      [left; apply Z.eqb_eq; exact E1|right].
    apply Z.eqb_eq. symmetry.
    apply (Z.mod_unique N (bs args) b 1); lia.
Qed.

(** C7.  Take a positive batch size and a positive group size, below 2^53
    like the number [N] of training edges, and let [num_batch] be
    [math.ceil(N / BATCH_SIZE)] as computed through the binary64 quotient:
    it is the exact ceiling of [N / BATCH_SIZE].  The groups started by
    [range(0, num_batch, backprop_every)] hold the batches
    [0 .. num_batch - 1] in order, members at or beyond [num_batch] being
    skipped, and the batches of an array of length [N], put end to end, are
    the array.  When no batch holds exactly one edge, the training part of
    an epoch returns, and the model, the optimizer, the samplers and the
    recorded losses are those the spec describes: every batch is run on its
    index range, in order, once.  When a batch holds exactly one edge, which
    is when the batch size is one or when [N mod BATCH_SIZE] is one, the
    training part raises [ValueError] at the loss of that batch. *)
Theorem training_batches_partition (nb : Z) (s : State) :
  let N := len (sources (train_data data)) in
  let range_of b := (b, b * bs args, Z.min N ((b + 1) * bs args)) in
  0 < bs args < 2 ^ 53 -> N < 2 ^ 53 ->
  0 < backprop_every args ->
  ceil_true_div N (bs args) = Ok nb ->
  (nb - 1) * bs args < N <= nb * bs args /\
  exists ks,
    range3 0 nb (backprop_every args) = Ok ks /\
    concat (map (group_batches args nb) ks) = range1 nb /\
    (forall (A : Type) (l : list A), len l = N ->
       concat (map (batch_of args N l) (range1 nb)) = l) /\
    if (0 <? N) && ((bs args =? 1) || (N mod bs args =? 1))
    then train_phase args data N nb s = Err shape_error
    else exists start s',
           train_phase args data N nb s = Ok (start, s') /\
           learn_epoch args data N nb (tgn s) (optimizer s) (samplers s) ks
           = Some (learner s') /\
           trace s' = trace s
                      ++ (if use_memory args then [EvInitMemory] else [])
                      ++ concat (map (group_events args N nb) ks) /\
           batches (trace s')
           = batches (trace s) ++ map range_of (range1 nb).
Proof.
  intros N range_of Hbs HN Hbe Hnb.
  assert (HN0 : 0 <= N < 2 ^ 53).
  { split; [apply Nat2Z.is_nonneg|exact HN]. }
  rewrite (ceil_div_binary64 N (bs args) HN0 Hbs) in Hnb.
  pose proof (ceil_div_bounds _ _ _ (proj1 Hbs) Hnb) as Hq. fold N in Hq.
  split; [exact Hq|].
  assert (Eks : exists ks, range3 0 nb (backprop_every args) = Ok ks).
  { unfold range3. destruct (Z.eqb_spec (backprop_every args) 0); [lia|].
    eexists. reflexivity. }
  destruct Eks as [ks Eks]. exists ks.
  destruct (groups_partition nb ks Hbe Eks) as [Hne Hcat].
  split; [exact Eks|]. split; [exact Hcat|]. split.
  { intros A l Hl. rewrite <- Hl. unfold batch_of.
    apply slices_cover; [lia|]. rewrite Hl. exact Hq. }
  assert (Hsize : forall b, 0 <= b < nb ->
            len (batch_of args N (sources (train_data data)) b)
            = Z.min (bs args) (N - b * bs args)).
  { intros b Hb. apply batch_of_length; fold N; nia. }
  assert (Hin : forall b, 0 <= b < nb <->
            exists k, In k ks /\ In b (group_batches args nb k)).
  { intros b. rewrite <- (in_range2 0 nb b). fold (range1 nb).
    rewrite <- Hcat, in_concat. split.
    - intros (l & Hl & Hb). apply in_map_iff in Hl.
      destruct Hl as (k & <- & Hk). exists k. split; assumption.
    - intros (k & Hk & Hb). exists (group_batches args nb k).
      split; [apply in_map; exact Hk|exact Hb]. }
  pose proof (lonely_batch N nb (proj1 Hbs) Hq) as Hlonely.
  pose proof (train_phase_run N nb s) as Ht.
  destruct ((0 <? N) && ((bs args =? 1) || (N mod bs args =? 1))) eqn:El.
  - destruct (proj1 Hlonely eq_refl) as (b & Hb & Hm).
    destruct (proj1 (Hin b) Hb) as (k & Hk & Hbk).
    destruct (train_phase args data N nb s) as [[start s']|e].
    + exfalso. destruct Ht as (ks' & t & Eks' & _ & _ & _ & A1 & _).
      rewrite Eks in Eks'. injection Eks' as <-.
      apply (proj2 (A1 k Hk) b Hbk). rewrite (Hsize b Hb). exact Hm.
    + destruct Ht as [H0|(ks' & Eks' & Ht)]; [lia|].
      rewrite Eks in Eks'. injection Eks' as <-.
      destruct Ht as [(k' & Hk' & Hn)|(-> & _)]; [|reflexivity].
      exfalso. apply (Hne k' Hk' Hn).
  - destruct (train_phase args data N nb s) as [[start s']|e].
    + destruct Ht as (ks' & t & Eks' & T & _ & _ & _ & F).
      rewrite Eks in Eks'. injection Eks' as <-.
      exists start, s'. split; [reflexivity|]. split; [exact F|].
      split; [exact T|].
      rewrite T. unfold batches at 1. rewrite !flat_map_app.
      fold (batches (trace s)).
      fold (batches (concat (map (group_events args N nb) ks))).
      rewrite batches_groups, Hcat.
      replace (flat_map _ (if use_memory args then _ else _))
        with (@nil (Z * Z * Z)) by (destruct (use_memory args); reflexivity).
      reflexivity.
    + exfalso. destruct Ht as [H0|(ks' & Eks' & Ht)]; [lia|].
      rewrite Eks in Eks'. injection Eks' as <-.
      destruct Ht as [(k' & Hk' & Hn)|(_ & k' & b & Hk' & Hb & Sb)].
      * apply (Hne k' Hk' Hn).
      * assert (Hr : 0 <= b < nb) by (apply Hin; eauto).
        rewrite (Hsize b Hr) in Sb.
        assert (false = true) by (apply Hlonely; eauto).
        discriminate.
Qed.

Lemma flat_map_quiet {B} (f : Event -> list B) (ni nb : Z) (ks : list Z) :
  (forall b x y, f (EvBatch b x y) = []) ->
  f EvStep = [] -> f EvDetachMemory = [] ->
  flat_map f (concat (map (group_events args ni nb) ks)) = [].
Proof.
  intros Hb Hs Hd. induction ks as [|k ks IH]; [reflexivity|].
  cbn [map concat]. rewrite flat_map_app, IH, app_nil_r.
  unfold group_events. rewrite flat_map_app.
  replace (flat_map f (EvStep :: _)) with (@nil B)
    by (destruct (use_memory args); cbn; rewrite ?Hs, ?Hd; reflexivity).
  rewrite app_nil_r.
  induction (group_batches args nb k) as [|b l IHl]; [reflexivity|].
  cbn [map flat_map]. unfold batch_event at 1. rewrite Hb, IHl.
  reflexivity.
Qed.

(** What one epoch does to the trace, the series, the results file and the
    threshold variable. *)
Lemma epoch_body_effect (run ni nb epoch : Z) (s : State) (stop : bool)
    (s' : State) :
  epoch_body args data run ni nb epoch s = Ok (stop, s') ->
  exists quiet val nn_val mid last r t t' m,
    trace s' = trace s ++ quiet
               ++ [EvEvalPrediction val_split val] ++ mid
               ++ [EvEvalPrediction new_node_val_split nn_val] ++ last
               ++ [EvDumpResults run r] ++ [t'] /\
    dumps quiet = [] /\ predictions quiet = [] /\
    dumps mid = [] /\ predictions mid = [] /\
    dumps last = [] /\ predictions last = [] /\
    dumps [t'] = [] /\ predictions [t'] = [] /\
    r = appended (mkResults (val_aps (series s))
                    (new_nodes_val_aps (series s)) (train_losses (series s))
                    (epoch_times (series s) ++ [t])
                    (total_epoch_times (series s)))
                 val nn_val m /\
    (exists t'', series s' = mkResults (val_aps r) (new_nodes_val_aps r)
                     (train_losses r) (epoch_times r)
                     (total_epoch_times r ++ [t''])) /\
    results_files s' = (run, r) :: results_files s /\
    thresholdOpt s' = Some (best_threshold nn_val).
Proof.
  intros H.
  destruct (epoch_body_split _ _ _ _ _ _ _ H)
    as (start & s1 & val & nn_val & s2 & E1 & E2 & E3).
  destruct (train_phase_spec ni nb s) as [_ Tinv].
  destruct (Tinv start s1 E1) as (ks & t & Eks & T1 & B1 & S1).
  destruct (validation_phase_spec s1)
    as (t1 & sm1 & val' & t2 & sm2 & nn' & s2' & V1 & V2 & V3 & V4 & V5 & V6
        & V7 & V8 & V9 & V10 & _).
  rewrite E2 in V3. injection V3 as <- <- <-.
  destruct (epoch_tail_spec _ _ _ _ _ _ _ _ E3)
    as (t' & last & S3 & T3 & L3 & R3 & H3 & _).
  destruct B1 as (_ & _ & _ & _ & R1 & _).
  exists ((if use_memory args then [EvInitMemory] else [])
          ++ concat (map (group_events args ni nb) ks)
          ++ (if use_memory args
              then [EvBackupMemory train_slot (snd (tgn s1))] else [])).
  exists val, nn_val.
  exists (if use_memory args
          then [EvBackupMemory val_slot (snd t1);
                EvRestoreMemory train_slot (snd (tgn s1))] else []).
  exists (if use_memory args then [EvRestoreMemory val_slot (snd t1)] else []).
  exists (appended (series s2) val nn_val (m_loss s2)), t, last, (m_loss s2).
  split.
  { rewrite T3, V5, T1.
    destruct (use_memory args); rewrite <- !app_assoc; reflexivity. }
  assert (Hq : forall B (f : Event -> list B),
            (forall b x y, f (EvBatch b x y) = []) ->
            f EvStep = [] -> f EvDetachMemory = [] -> f EvInitMemory = [] ->
            (forall v m, f (EvBackupMemory v m) = []) ->
            flat_map f
              ((if use_memory args then [EvInitMemory] else [])
               ++ concat (map (group_events args ni nb) ks)
               ++ (if use_memory args
                   then [EvBackupMemory train_slot (snd (tgn s1))] else []))
            = []).
  { intros B f Hb Hs Hd Hi Hbk. rewrite !flat_map_app.
    rewrite (flat_map_quiet f ni nb ks Hb Hs Hd).
    destruct (use_memory args); cbn; rewrite ?Hi, ?Hbk; reflexivity. }
  split; [apply Hq; reflexivity|]. split; [apply Hq; reflexivity|].
  split; [destruct (use_memory args); reflexivity|].
  split; [destruct (use_memory args); reflexivity|].
  split; [destruct (use_memory args); reflexivity|].
  split; [destruct (use_memory args); reflexivity|].
  split; [rewrite L3; destruct stop; reflexivity|].
  split; [rewrite L3; destruct stop; reflexivity|].
  split.
  { rewrite V7, S1. reflexivity. }
  split; [exists t'; exact S3|].
  split; [rewrite R3, V10, R1; reflexivity|].
  rewrite H3. exact V6.
Qed.

Lemma dumps_app (a b : list Event) : dumps (a ++ b) = dumps a ++ dumps b.
Proof. apply flat_map_app. Qed.


(** A run is the set-up of lines 221-256, the epoch loop and the code after
    it. *)
Lemma run_body_split (i : Z) (s : State) (u : unit) (s' : State) :
  run_body args data i s = Ok (u, s') ->
  exists nb s0 s1,
    ceil_div (len (sources (train_data data))) (bs args) = Ok nb /\
    trace s0 = trace s /\ thresholdOpt s0 = thresholdOpt s /\
    results_files s0 = results_files s /\ series s0 = empty_results /\
    for_break (range1 (n_epoch args))
      (epoch_body args data i (len (sources (train_data data))) nb) s0
    = Ok (tt, s1) /\
    finish args data s1 = Ok (u, s').
Proof.
  intros H. unfold run_body in H.
  unfold lift, mbind at 1 2 3 4 5, modify in H. cbn in H.
  destruct (ceil_div _ _) as [nb|e]; [|discriminate H].
  exists nb. eexists.
  match type of H with
  | context [mbind (for_break ?xs ?body) _ ?st] =>
      destruct (for_break xs body st) as [[[] s1]|e] eqn:El;
      [rewrite (mbind_ok _ _ _ _ _ El) in H
      |rewrite (mbind_err _ _ _ _ El) in H; discriminate H]
  end.
  exists s1. split; [reflexivity|].
  split; [|split; [|split; [|split; [|split; [exact El|exact H]]]]];
    reflexivity.
Qed.

(** Lines 359-373 never fail: they write the results file of the run
    between the appends of the validation series and the append of the
    total time, and leave the rest of the state alone. *)
Lemma record_results_spec (run : Z) (start : float) (val nn_val : EvalResult)
    (s : State) :
  let r := appended (series s) val nn_val (m_loss s) in
  exists t s',
    record_results run start val nn_val s = Ok (tt, s') /\
    series s' = mkResults (val_aps r) (new_nodes_val_aps r) (train_losses r)
                          (epoch_times r) (total_epoch_times r ++ [t]) /\
    trace s' = trace s ++ [EvDumpResults run r] /\
    results_files s' = (run, r) :: results_files s.
Proof.
  unfold record_results, now, log, mbind, get, modify, ret. cbn.
  destruct (time_time (clock s)) as [c1 t1]. cbn.
  eexists. eexists. split; [reflexivity|]. cbn. repeat split.
Qed.

(** Lines 395-405 leave the series, the results files and the list of
    written files alone. *)
Lemma early_stopping_keeps_results (epoch : Z) (val : EvalResult) (s : State)
    (stop : bool) (s' : State) :
  early_stopping epoch val s = Ok (stop, s') ->
  series s' = series s /\ results_files s' = results_files s /\
  dumps (trace s') = dumps (trace s).
Proof.
  intros Er. unfold early_stopping in Er. run_in Er.
  destruct (early_stop_check (early_stopper s) (ap val)) as [es b].
  cbn in Er. destruct b.
  - destruct (lookup (best_epoch es) (checkpoints s)) as [sd|];
      cbn in Er; [|discriminate Er].
    injection Er as _ <-. cbn. unfold dumps. rewrite flat_map_app. cbn.
    rewrite app_nil_r. repeat split.
  - cbn in Er. injection Er as _ <-. cbn.
    unfold dumps. rewrite flat_map_app. cbn.
    rewrite app_nil_r. repeat split.
Qed.

(** C8, as the code has it.  In every epoch whose training part returns,
    the validation returns and the results file of the run is overwritten
    before the early-stopping check, so also in the epoch that stops the run
    and in one whose checkpoint reload fails.  The file holds the series as
    they were when the epoch began, extended by the seen-node and the
    unseen-node validation AP, the mean of the training losses of the epoch
    and the training time of the epoch; the total-time series is written as
    it was, its entry for the epoch being appended after the write (there is
    no AUC).  So when every series held [n] entries at the start of the
    epoch, the file holds [n + 1] entries in four series and [n] in the
    total-time series.  The early-stopping check that ends the epoch leaves
    the file and the series as they are. *)
Theorem results_written_each_epoch (run ni nb epoch : Z) (s : State)
    (start : float) (s1 : State) :
  train_phase args data ni nb s = Ok (start, s1) ->
  exists val nn_val s2 s3 r t t',
    validation_phase args data s1 = Ok ((val, nn_val), s2) /\
    record_results run start val nn_val s2 = Ok (tt, s3) /\
    epoch_body args data run ni nb epoch s = early_stopping epoch val s3 /\
    r = mkResults (val_aps (series s) ++ [ap val])
                  (new_nodes_val_aps (series s) ++ [ap nn_val])
                  (train_losses (series s) ++ [np_mean (m_loss s1)])
                  (epoch_times (series s) ++ [t])
                  (total_epoch_times (series s)) /\
    results_files s3 = (run, r) :: results_files s /\
    dumps (trace s3) = dumps (trace s) ++ [r] /\
    series s3 = mkResults (val_aps r) (new_nodes_val_aps r) (train_losses r)
                          (epoch_times r) (total_epoch_times r ++ [t']) /\
    (forall n, series_lengths n (series s) ->
               written_lengths n r /\ series_lengths (S n) (series s3)) /\
    (forall stop s', early_stopping epoch val s3 = Ok (stop, s') ->
                     series s' = series s3 /\
                     results_files s' = results_files s3 /\
                     dumps (trace s') = dumps (trace s3)).
Proof.
  intros E1.
  pose proof (train_phase_run ni nb s) as Ht. rewrite E1 in Ht.
  destruct Ht as (ks & t & Eks & T1 & B1 & S1 & _ & _).
  destruct B1 as (_ & _ & _ & _ & R1 & _).
  destruct (validation_phase_spec s1)
    as (t1 & sm1 & val & t2 & sm2 & nn_val & s2 & _ & _ & V3 & _ & V5 & _
        & V7 & V8 & _ & V10 & _).
  destruct (record_results_spec run start val nn_val s2)
    as (t' & s3 & E3 & S3 & T3 & R3).
  exists val, nn_val, s2, s3.
  exists (appended (series s2) val nn_val (m_loss s2)), t, t'.
  split; [exact V3|]. split; [exact E3|]. split.
  { unfold epoch_body. rewrite (mbind_ok _ _ _ _ _ E1).
    rewrite (mbind_ok _ _ _ _ _ V3). cbn [fst snd].
    unfold epoch_tail. rewrite (mbind_ok _ _ _ _ _ E3). reflexivity. }
  split; [rewrite V7, V8, S1; reflexivity|].
  split; [rewrite R3, V10, R1; reflexivity|].
  split.
  { rewrite T3, V5, T1, !dumps_app. cbn.
    replace (dumps (if use_memory args then _ else _)) with (@nil Results)
      by (destruct (use_memory args); reflexivity).
    replace (dumps (concat (map (group_events args ni nb) ks)))
      with (@nil Results)
      by (symmetry; apply flat_map_quiet; reflexivity).
    replace (dumps (if use_memory args then _ else _)) with (@nil Results)
      by (destruct (use_memory args); reflexivity).
    rewrite !app_nil_r. reflexivity. }
  split; [exact S3|]. split.
  - intros n (L1 & L2 & L3 & L4 & L5).
    rewrite S3, V7, S1. unfold written_lengths, series_lengths, appended.
    cbn. rewrite !length_app. cbn. repeat split; lia.
  - intros stop s' Es. apply (early_stopping_keeps_results _ _ _ _ _ Es).
Qed.

(** In a run that returns, the files written and the series at the end. *)
Lemma results_written_in_run (i : Z) (s : State) (u : unit)
    (s' : State) :
  run_body args data i s = Ok (u, s') ->
  exists rs,
    dumps (trace s') = dumps (trace s) ++ rs /\
    results_files s' = map (pair i) (rev rs) ++ results_files s /\
    series_lengths (length rs) (series s') /\
    forall j r, nth_error rs j = Some r -> written_lengths j r.
Proof.
  intros H.
  destruct (run_body_split i s u s' H)
    as (nb & s0 & s1 & _ & T0 & _ & R0 & S0 & L & F).
  set (J := fun x : State => exists rs,
         dumps (trace x) = dumps (trace s0) ++ rs /\
         results_files x = map (pair i) (rev rs) ++ results_files s0 /\
         series_lengths (length rs) (series x) /\
         forall j r, nth_error rs j = Some r -> written_lengths j r).
  assert (J0 : J s0).
  { exists []. rewrite app_nil_r, S0.
    split; [reflexivity|]. split; [reflexivity|]. split; [repeat split|].
    intros j r Hj. destruct j; discriminate Hj. }
  assert (Jstep : forall x st b st',
            J st -> epoch_body args data i
                      (len (sources (train_data data))) nb x st
                    = Ok (b, st') -> J st').
  { intros x st b st' (rs & D & R & (L1 & L2 & L3 & L4 & L5) & W) E.
    destruct (epoch_body_effect _ _ _ _ _ _ _ E)
      as (q & val & nn & mid & last & r & t & t' & m & T & Dq & _ & Dm & _
          & Dl & _ & Dt & _ & Er & (t'' & Es) & Rf & _).
    assert (Wr : written_lengths (length rs) r).
    { rewrite Er. unfold written_lengths, appended. cbn.
      rewrite !length_app. cbn. repeat split; lia. }
    exists (rs ++ [r]). split; [|split; [|split]].
    - rewrite T, !dumps_app, Dq, Dm, Dl, Dt, D. cbn.
      rewrite <- app_assoc. reflexivity.
    - rewrite Rf, R, rev_app_distr. reflexivity.
    - destruct Wr as (W1 & W2 & W3 & W4 & W5).
      rewrite Es. unfold series_lengths. cbn.
      rewrite !length_app. cbn. repeat split; lia.
    - intros j r' Hj. destruct (Nat.lt_ge_cases j (length rs)) as [Hlt|Hge].
      + rewrite nth_error_app1 in Hj by exact Hlt. apply W, Hj.
      + rewrite nth_error_app2 in Hj by exact Hge.
        destruct (j - length rs)%nat as [|k] eqn:Ek.
        * injection Hj as <-. replace j with (length rs) by lia. exact Wr.
        * destruct k; discriminate Hj. }
  destruct (for_break_inv J _ _ Jstep s0 tt s1 J0 L) as (rs & D & R & SL & W).
  destruct (thresholdOpt s1) as [thr|] eqn:Et;
    [|rewrite (finish_unbound s1 Et) in F; discriminate F].
  destruct (finish_spec s1 thr Et)
    as (t1 & sm1 & s2 & _ & F' & _ & _ & _ & Rf & Sf & Tf).
  rewrite F in F'. injection F' as _ <-.
  exists rs. split; [|split; [|split; [|exact W]]].
  - rewrite Tf, dumps_app, D, T0.
    destruct (use_memory args); cbn; rewrite app_nil_r; reflexivity.
  - rewrite Rf, R, R0. reflexivity.
  - rewrite Sf. exact SL.
Qed.


End Driver.

(** ** Concrete runs *)

Section ToyRuns.

Import Select Preprocess Train.

Local Abbreviation toy := Toy.collaborators.

Lemma epoch_memory_protocol_witness :
  use_memory Toy.args = true /\
  epoch_body (C := toy) Toy.args Toy.data 0 6 3 0 Toy.init
  = Ok (false, Toy.after_epoch) /\
  exists s1 : State (C := toy),
    train_phase (C := toy) Toy.args Toy.data 6 3 Toy.init
    = Ok (float_of_int 0, s1) /\
    learn_groups (C := toy) Toy.args Toy.data 6 3 ((0, 0), tt, tt, []) [0; 2]
    = Some (learner s1) /\
    train_memory_backup Toy.after_epoch = Some (snd (tgn s1)) /\
    val_memory_backup Toy.after_epoch = Some 9 /\
    snd (tgn Toy.after_epoch) = 9.
Proof.
  assert (H : epoch_body (C := toy) Toy.args Toy.data 0 6 3 0 Toy.init
              = Ok (false, Toy.after_epoch)) by reflexivity.
  split; [reflexivity|]. split; [exact H|].
  destruct (epoch_memory_protocol (C := toy) Toy.args Toy.data 0 6 3 0
              Toy.init false Toy.after_epoch eq_refl H)
    as (ks & start & s1 & t1 & sm1 & val & t2 & sm2 & nn & s2 & r & last
        & E1 & Eks & F1 & _ & _ & _ & _ & Bt & _).
  injection Eks as <-.
  assert (Es : train_phase (C := toy) Toy.args Toy.data 6 3 Toy.init
               = Ok (float_of_int 0, Toy.after_training)) by reflexivity.
  rewrite Es in E1. injection E1 as _ <-.
  exists Toy.after_training. split; [exact Es|]. split; [exact F1|].
  split; [exact Bt|]. split; reflexivity.
Defined.

(** C1, as stated, fails for the epoch that stops the run.  With
    [--patience 1] the second epoch of this run stops it: the seen-node
    validation of that epoch leaves the memory 15, which is what the
    val-memory backup holds and what is restored after the unseen-node
    validation; the epoch then loads the checkpoint of epoch 0, and ends
    with the memory 9 of that checkpoint. *)
Lemma stop_epoch_memory_counterexample :
  use_memory Toy.stop_args = true /\
  epoch_body (C := toy) Toy.stop_args Toy.data 0 6 3 0 Toy.init_stop
  = Ok (false, Toy.before_stop) /\
  epoch_body (C := toy) Toy.stop_args Toy.data 0 6 3 1 Toy.before_stop
  = Ok (true, Toy.after_stop) /\
  val_memory_backup Toy.after_stop = Some 15 /\
  In (EvRestoreMemory (C := toy) val_slot 15) (trace Toy.after_stop) /\
  snd (tgn Toy.after_stop) = 9.
Proof.
  split; [reflexivity|]. split; [reflexivity|]. split; [reflexivity|].
  split; [reflexivity|]. split; [|reflexivity].
  cbn. do 29 right. left. reflexivity.
Qed.

Lemma saved_memory_is_validation_snapshot_witness :
  use_memory Toy.args = true /\
  thresholdOpt Toy.after_loop = Some (float_of_int 3) /\
  exists s',
    finish (C := toy) Toy.args Toy.data Toy.after_loop = Ok (tt, s') /\
    val_memory_backup s' = Some (snd (tgn Toy.after_loop)) /\
    snd (tgn s') = snd (tgn Toy.after_loop).
Proof.
  split; [reflexivity|]. split; [reflexivity|].
  destruct (saved_memory_is_validation_snapshot (C := toy) Toy.args Toy.data
              Toy.after_loop (float_of_int 3) eq_refl eq_refl)
    as (t1 & sm1 & s' & _ & F & B & M & _).
  exists s'. split; [exact F|]. split; [exact B|exact M].
Defined.



Lemma training_batches_partition_witness :
  0 < bs Toy.args < 2 ^ 53 /\
  len (sources (train_data Toy.data)) < 2 ^ 53 /\
  0 < backprop_every Toy.args /\
  ceil_true_div (len (sources (train_data Toy.data))) (bs Toy.args) = Ok 3 /\
  exists start s',
    train_phase (C := toy) Toy.args Toy.data 6 3 Toy.init = Ok (start, s') /\
    learn_epoch (C := toy) Toy.args Toy.data 6 3 (0, 0) tt tt [0; 2]
    = Some (learner s') /\
    batches (trace s') = [(0, 0, 2); (1, 2, 4); (2, 4, 6)].
Proof.
  assert (H1 : 0 < bs Toy.args < 2 ^ 53) by (cbn; lia).
  assert (H2 : len (sources (train_data Toy.data)) < 2 ^ 53) by (cbn; lia).
  split; [exact H1|]. split; [exact H2|].
  split; [reflexivity|]. split; [reflexivity|].
  destruct (training_batches_partition (C := toy) Toy.args Toy.data 3 Toy.init
              H1 H2 eq_refl eq_refl)
    as (_ & ks & Eks & _ & _ & R).
  injection Eks as <-.
  destruct R as (start & s' & E & F & _ & B).
  exists start, s'. split; [exact E|]. split; [exact F|].
  rewrite B. reflexivity.
Defined.

(** C7 fails on five training edges with [--bs 2]: the third batch holds
    one edge and the training part of the first epoch raises at its
    loss. *)
Example training_raises_on_single_edge_batch :
  ceil_true_div (len (sources (train_data Toy.odd_data))) (bs Toy.args)
  = Ok 3 /\
  len (batch_of Toy.args 5 (sources (train_data Toy.odd_data)) 2) = 1 /\
  train_phase (C := toy) Toy.args Toy.odd_data 5 3 Toy.init
  = Err shape_error.
Proof. repeat split. Qed.

Lemma results_written_each_epoch_witness :
  train_phase (C := toy) Toy.args Toy.data 6 3 Toy.init
  = Ok (float_of_int 0, Toy.after_training) /\
  exists val nn_val s3 r,
    epoch_body (C := toy) Toy.args Toy.data 0 6 3 0 Toy.init
    = early_stopping (C := toy) 0 val s3 /\
    results_files s3 = [(0, r)] /\
    val_aps r = [ap val] /\ new_nodes_val_aps r = [ap nn_val] /\
    length (train_losses r) = 1%nat /\ length (epoch_times r) = 1%nat /\
    total_epoch_times r = [].
Proof.
  assert (H : train_phase (C := toy) Toy.args Toy.data 6 3 Toy.init
              = Ok (float_of_int 0, Toy.after_training)) by reflexivity.
  split; [exact H|].
  destruct (results_written_each_epoch (C := toy) Toy.args Toy.data 0 6 3 0
              Toy.init (float_of_int 0) Toy.after_training H)
    as (val & nn_val & s2 & s3 & r & t & t' & _ & _ & E & Er & Rf & _).
  exists val, nn_val, s3, r. split; [exact E|]. split; [exact Rf|].
  rewrite Er. repeat split.
Defined.

(** C8, as stated, fails: the file written in the first epoch holds one
    entry in the AP, loss and per-epoch timing series and none in the total
    timing series. *)
Lemma results_series_counterexample :
  exists r,
    run_body (C := toy) Toy.args Toy.data 0 Toy.init
    = Ok (tt, Toy.after_run) /\
    nth_error (dumps (trace Toy.after_run)) 0 = Some r /\
    length (val_aps r) = 1%nat /\ length (epoch_times r) = 1%nat /\
    length (total_epoch_times r) = 0%nat.
Proof.
  eexists. split; [reflexivity|].
  split; [reflexivity|].
  repeat split.
Qed.

Lemma small_ids_toy_frames :
  small_ids Toy.frame_contiguous /\ small_ids Toy.frame_gap /\
  small_ids Toy.frame_negative.
Proof.
  repeat split;
    repeat match goal with
           | H : In _ _ |- _ => destruct H as [<-|H]
           end;
    try contradiction; cbn; lia.
Qed.

Lemma reindex_bipartite_witness :
  small_ids Toy.frame_contiguous /\
  (exists u_max df',
     series_max (column u Toy.frame_contiguous) = Some u_max /\
     reindex_int64 Toy.frame_contiguous true = Ok df' /\
     df' = map (fun r => mkRow (u r + 1) (i r + (u_max + 1) + 1)
                               (ts r) (label r) (idx r + 1))
               Toy.frame_contiguous /\
     length df' = length Toy.frame_contiguous /\
     ((forall r, In r Toy.frame_contiguous -> 0 <= i r) ->
      forall r r', In r df' -> In r' df' -> u r < i r')) /\
  reindex_int64 Toy.frame_gap true = Err AssertionError.
Proof.
  destruct small_ids_toy_frames as (S1 & S2 & _).
  split; [exact S1|]. split.
  - apply (proj1 (reindex_bipartite Toy.frame_contiguous S1));
      apply full_range_contiguous; reflexivity.
  - apply (proj2 (reindex_bipartite Toy.frame_gap S2)).
    intros [H _]. apply full_range_contiguous in H. discriminate H.
Defined.

(** C10, as stated, fails on a frame with a negative destination id: both
    columns are contiguous, yet the new destination id equals the new
    source id. *)
Lemma reindex_negative_destination_counterexample :
  small_ids Toy.frame_negative /\
  contiguous (column u Toy.frame_negative) /\
  contiguous (column i Toy.frame_negative) /\
  reindex_int64 Toy.frame_negative true = Ok [mkRow 1 1 Toy.f0 Toy.f0 1] /\
  ~ (forall r r', In r [mkRow 1 1 Toy.f0 Toy.f0 1] ->
                  In r' [mkRow 1 1 Toy.f0 Toy.f0 1] -> u r < i r').
Proof.
  split; [apply small_ids_toy_frames|].
  split; [apply full_range_contiguous; reflexivity|].
  split; [apply full_range_contiguous; reflexivity|].
  split; [reflexivity|].
  intros H. specialize (H _ _ (or_introl eq_refl) (or_introl eq_refl)).
  cbn in H. lia.
Qed.

End ToyRuns.

(** ** The driver at the edges of its configuration *)

Section DriverEdges.

Import Select Train.

Context {C : Collaborators}.
Variable args : Args.
Variable data : Splits.

Local Open Scope run_scope.

Ltac exec_in H :=
  unfold now, evaluate, backup_memory, restore_memory, when, on_memory,
    on_net, log, lift, raise, mbind, get, modify, ret in H;
  cbn in H.

Ltac exec :=
  unfold now, evaluate, backup_memory, restore_memory, when, on_memory,
    on_net, log, lift, raise, mbind, get, modify, ret;
  cbn.

(** X1.  With [--bs 0] a run raises [ZeroDivisionError] while it computes
    the number of batches, before the first epoch. *)
Theorem zero_batch_size_raises (i : Z) (s : State) :
  bs args = 0 -> run_body args data i s = Err ZeroDivisionError.
Proof.
  intros H. unfold run_body, ceil_div. rewrite H. reflexivity.
Qed.

Lemma range1_nonpositive (n : Z) : n <= 0 -> range1 n = [].
Proof. intros H. apply range2_nil. exact H. Qed.

(** X2.  With no epoch to run and [thresholdOpt] never assigned, a run
    reaches the test step and raises [NameError] there: no model is saved. *)
Theorem no_epoch_raises_name_error (i : Z) (s : State) :
  n_epoch args <= 0 -> bs args <> 0 -> thresholdOpt s = None ->
  run_body args data i s = Err NameError.
Proof.
  intros Hn Hb Ht. unfold run_body, ceil_div.
  destruct (Z.eqb_spec (bs args) 0); [contradiction|].
  rewrite (range1_nonpositive _ Hn).
  unfold lift, mbind at 1 2 3 4 5 6, modify. cbn [for_break ret].
  apply finish_unbound. exact Ht.
Qed.

(** X3.  With [--backprop_every 0] the first epoch raises [ValueError] when
    it builds [range(0, num_batch, 0)]. *)
Theorem zero_group_size_raises (i : Z) (s : State) :
  backprop_every args = 0 -> bs args <> 0 -> 0 < n_epoch args ->
  run_body args data i s
  = Err (ValueError "range() arg 3 must not be zero").
Proof.
  intros Hbe Hb Hn. unfold run_body, ceil_div.
  destruct (Z.eqb_spec (bs args) 0); [contradiction|].
  unfold range1. rewrite (range2_cons 0 (n_epoch args)) by exact Hn.
  cbn [for_break]. unfold epoch_body, train_phase, range3. rewrite Hbe.
  exec. destruct (time_time _) as [c t]. cbn.
  destruct (use_memory args); reflexivity.
Qed.

(** X4.  When [range(0, num_batch, backprop_every)] is empty, because the
    group size is negative or because there is no batch, the training part
    of an epoch returns without running a batch or updating the parameters:
    the trace gains at most the memory initialisation and no loss is
    recorded. *)
Theorem empty_group_range_trains_nothing (ni nb : Z) (s : State) :
  (backprop_every args < 0 /\ 0 <= nb) \/
  (0 < backprop_every args /\ nb <= 0) ->
  exists start s',
    train_phase args data ni nb s = Ok (start, s') /\
    trace s' = trace s ++ (if use_memory args then [EvInitMemory] else []) /\
    m_loss s' = [] /\
    fst (tgn s') = set_neighbor_finder (fst (tgn s)) train_ngh_finder.
Proof.
  intros H.
  assert (Hr : range3 0 nb (backprop_every args) = Ok []).
  { unfold range3, range_len.
    destruct (Z.eqb_spec (backprop_every args) 0); [lia|].
    destruct (Z.ltb_spec 0 (backprop_every args)).
    - destruct (Z.ltb_spec 0 nb); [lia|reflexivity].
    - destruct (Z.ltb_spec nb 0); [lia|reflexivity]. }
  unfold train_phase. rewrite Hr. exec.
  destruct (time_time (clock s)) as [c0 t0]. cbn.
  destruct (use_memory args); cbn;
    destruct (time_time c0) as [c1 t1]; cbn;
    eexists; eexists; (split; [reflexivity|]); cbn;
    rewrite ?app_nil_r; repeat split.
Qed.

Lemma group_body_loss (ni nb k : Z) (s : State) (u : unit) (s' : State) :
  group_body args data ni nb k s = Ok (u, s') ->
  exists x, m_loss s' = m_loss s ++ [x].
Proof.
  intros Er. pose proof (group_body_run args data ni nb k s) as H.
  rewrite Er in H. destruct H as (_ & _ & _ & _ & _ & F).
  unfold learn_group, learner in F.
  destruct (zero_grad (optimizer s) (tgn s)) as [o t].
  destruct (fold_left _ _ _) as [[t2 smp2] [l|]]; [|discriminate F].
  destruct (step _ _) as [o' t']. injection F as _ _ _ F.
  eexists. symmetry. exact F.
Qed.

Lemma groups_loop_losses (ni nb : Z) (ks : list Z) (s : State) (u : unit)
    (s' : State) :
  for_each ks (group_body args data ni nb) s = Ok (u, s') ->
  length (m_loss s') = (length (m_loss s) + length ks)%nat.
Proof.
  revert s. induction ks as [|k ks IH]; intros s H.
  - injection H as _ <-. cbn. lia.
  - cbn [for_each] in H.
    destruct (group_body args data ni nb k s) as [[u1 s1]|e] eqn:Eg;
      [rewrite (mbind_ok _ _ _ _ _ Eg) in H
      |rewrite (mbind_err _ _ _ _ Eg) in H; discriminate H].
    destruct (group_body_loss _ _ _ _ _ _ Eg) as [x Hx].
    rewrite (IH s1 H), Hx, length_app. cbn. lia.
Qed.

Lemma updates_groups (ni nb : Z) (ks : list Z) :
  length (Ledger.updates (concat (map (group_events args ni nb) ks)))
  = length ks.
Proof.
  induction ks as [|k ks IH]; [reflexivity|].
  cbn [map concat]. unfold Ledger.updates in *.
  rewrite filter_app, length_app, IH. cbn [length]. f_equal.
  unfold group_events. rewrite filter_app, length_app.
  replace (filter _ (map (batch_event args ni) (group_batches args nb k)))
    with (@nil Event).
  - destruct (use_memory args); reflexivity.
  - symmetry. induction (group_batches args nb k) as [|b l IHl];
      [reflexivity|exact IHl].
Qed.

(** X5.  With a positive group size, the training part of an epoch updates
    the parameters once per gradient-accumulation group and records one loss
    per update; the number [g] of updates is the ceiling of
    [num_batch / backprop_every]. *)
Theorem one_update_per_group (ni nb : Z) (s : State) (start : float)
    (s' : State) :
  0 < backprop_every args -> 0 <= nb ->
  train_phase args data ni nb s = Ok (start, s') ->
  let g := len (m_loss s') in
  (g - 1) * backprop_every args < nb <= g * backprop_every args /\
  len (Ledger.updates (trace s')) = len (Ledger.updates (trace s)) + g.
Proof.
  intros Hbe Hnb Er g.
  destruct (train_phase_spec args data ni nb s) as [_ Tinv].
  destruct (Tinv start s' Er) as (ks & t & Eks & T & _ & _).
  assert (Hg : length (m_loss s') = length ks).
  { unfold train_phase in Er. exec_in Er.
    destruct (time_time (clock s)) as [c0 t0]. cbn in Er.
    rewrite Eks in Er.
    destruct (use_memory args); cbn in Er;
      match type of Er with
      | context [for_each ?l ?body ?st] =>
          destruct (for_each l body st) as [[u1 s1]|e1] eqn:El;
          [|discriminate Er];
          pose proof (groups_loop_losses _ _ _ _ _ _ El) as Hl
      end;
      cbn in Er, Hl; destruct (time_time (clock s1)) as [c1 t1];
      cbn in Er; injection Er as _ Es; subst s'; cbn; exact Hl. }
  assert (Hk : length ks
               = Z.to_nat (range_len 0 nb (backprop_every args))).
  { unfold range3 in Eks.
    destruct (Z.eqb_spec (backprop_every args) 0); [lia|].
    injection Eks as <-. rewrite length_map, length_seq. reflexivity. }
  destruct (range_len_bounds nb _ Hbe) as [Hlt Hge].
  unfold g, len. rewrite Hg, Hk. split.
  - split; [|exact Hge].
    destruct (Z.to_nat (range_len 0 nb (backprop_every args))) as [|m] eqn:Em.
    + change (Z.of_nat 0) with 0. lia.
    + specialize (Hlt m ltac:(lia)).
      replace (Z.of_nat (S m) - 1) with (Z.of_nat m) by lia. exact Hlt.
  - rewrite T. unfold Ledger.updates. rewrite !filter_app, !length_app.
    fold (Ledger.updates (concat (map (group_events args ni nb) ks))).
    rewrite updates_groups, Hk.
    destruct (use_memory args); cbn [filter length]; lia.
Qed.

Lemma lookup_cons {A} (k k' : Z) (v : A) (l : list (Z * A)) :
  lookup k ((k', v) :: l) = if k' =? k then Some v else lookup k l.
Proof. unfold lookup. cbn. destruct (k' =? k); reflexivity. Qed.

(** What the end of an epoch does to the model and the checkpoints. *)
Lemma epoch_tail_checkpoints (run epoch : Z) (start : float)
    (val nn_val : EvalResult) (s : State) :
  let es := fst (early_stop_check (early_stopper s) (ap val)) in
  if snd (early_stop_check (early_stopper s) (ap val))
  then match lookup (best_epoch es) (checkpoints s) with
       | Some sd =>
           exists s',
             epoch_tail run epoch start val nn_val s = Ok (true, s') /\
             tgn s' = (eval_mode (fst (load_state_dict (tgn s) sd)),
                       snd (load_state_dict (tgn s) sd)) /\
             checkpoints s' = checkpoints s
       | None =>
           epoch_tail run epoch start val nn_val s = Err FileNotFoundError
       end
  else exists s',
         epoch_tail run epoch start val nn_val s = Ok (false, s') /\
         tgn s' = tgn s /\
         checkpoints s' = (epoch, state_dict (tgn s)) :: checkpoints s.
Proof.
  unfold epoch_tail, record_results, early_stopping. exec.
  destruct (time_time (clock s)) as [c1 t1]. cbn.
  destruct (early_stop_check (early_stopper s) (ap val)) as [es b]. cbn.
  destruct b.
  - destruct (lookup (best_epoch es) (checkpoints s)) as [sd|]; cbn;
      [|reflexivity].
    eexists. split; [reflexivity|]. cbn.
    destruct (load_state_dict (tgn s) sd). split; reflexivity.
  - cbn. eexists. split; [reflexivity|]. split; reflexivity.
Qed.

(** X6.  An epoch that does not stop the run saves the model under its own
    epoch number: looking that number up afterwards gives the state of the
    model at the end of the epoch, whatever was stored under it before, and
    the checkpoints of the other epochs are as they were. *)
Theorem checkpoint_round_trip (run ni nb epoch : Z) (s s' : State) :
  epoch_body args data run ni nb epoch s = Ok (false, s') ->
  lookup epoch (checkpoints s') = Some (state_dict (tgn s')) /\
  forall e, e <> epoch ->
            lookup e (checkpoints s') = lookup e (checkpoints s).
Proof.
  intros H.
  destruct (epoch_body_split _ _ _ _ _ _ _ _ _ H)
    as (start & s1 & val & nn_val & s2 & E1 & E2 & E3).
  destruct (train_phase_spec args data ni nb s) as [_ Tinv].
  destruct (Tinv start s1 E1) as (ks & t & _ & _ & B1 & _).
  destruct B1 as (_ & _ & _ & C1 & _).
  destruct (validation_phase_spec args data s1)
    as (t1 & sm1 & val' & t2 & sm2 & nn' & s2' & _ & _ & V3 & _ & _ & _
        & _ & _ & C2 & _).
  rewrite E2 in V3. injection V3 as _ _ <-.
  pose proof (epoch_tail_checkpoints run epoch start val nn_val s2) as Ht.
  cbn zeta in Ht.
  destruct (snd (early_stop_check (early_stopper s2) (ap val))).
  - destruct (lookup _ (checkpoints s2)).
    + destruct Ht as (x & Hx & _). rewrite E3 in Hx. discriminate Hx.
    + rewrite E3 in Ht. discriminate Ht.
  - destruct Ht as (x & Hx & Tx & Cx). rewrite E3 in Hx.
    injection Hx as <-. rewrite Cx, Tx, C2, C1. split.
    + rewrite lookup_cons, Z.eqb_refl. reflexivity.
    + intros e He. rewrite lookup_cons.
      destruct (Z.eqb_spec epoch e); [congruence|reflexivity].
Qed.

(** X7.  When the monitor signals a stop, the epoch saves no checkpoint: it
    loads the one stored under the monitor's best epoch and puts the model
    in inference mode; when nothing is stored under that number it raises
    [FileNotFoundError]. *)
Theorem early_stop_reloads_best (run epoch : Z) (start : float)
    (val nn_val : EvalResult) (s : State) (es : Stopper) :
  early_stop_check (early_stopper s) (ap val) = (es, true) ->
  match lookup (best_epoch es) (checkpoints s) with
  | Some sd =>
      exists s',
        epoch_tail run epoch start val nn_val s = Ok (true, s') /\
        tgn s' = (eval_mode (fst (load_state_dict (tgn s) sd)),
                  snd (load_state_dict (tgn s) sd)) /\
        checkpoints s' = checkpoints s
  | None => epoch_tail run epoch start val nn_val s = Err FileNotFoundError
  end.
Proof.
  intros He.
  pose proof (epoch_tail_checkpoints run epoch start val nn_val s) as Ht.
  cbn zeta in Ht. rewrite He in Ht. exact Ht.
Qed.

(** X8.  With memory enabled, the unseen-node validation is evaluated on
    the memory as it stood at the end of training, not on the memory left by
    the seen-node validation; with memory disabled it is evaluated on
    whatever the seen-node validation left.  Both evaluations draw their
    negatives from [val_rand_sampler]. *)
Theorem unseen_validation_input (s : State) :
  exists t1 sm1 val s',
    eval_edge_prediction
      (set_neighbor_finder (fst (tgn s)) full_ngh_finder, snd (tgn s))
      (samplers s) val_rand_sampler (val_data data) (n_degree args)
    = (t1, sm1, val) /\
    validation_phase args data s
    = Ok ((val,
           snd (eval_edge_prediction
                  (fst t1, if use_memory args then snd (tgn s) else snd t1)
                  sm1 val_rand_sampler (new_node_val_data data)
                  (n_degree args))),
          s').
Proof.
  destruct (validation_phase_spec args data s)
    as (t1 & sm1 & val & t2 & sm2 & nn & s' & V1 & V2 & V3 & _).
  exists t1, sm1, val, s'. split; [exact V1|].
  rewrite V2. exact V3.
Qed.

(** X9.  After an epoch of run [run], the results file of that run holds
    the dictionary the epoch wrote, which replaces what the file held, and
    the results files of other runs are untouched. *)
Theorem results_file_overwritten (run ni nb epoch : Z) (s : State)
    (stop : bool) (s' : State) :
  epoch_body args data run ni nb epoch s = Ok (stop, s') ->
  exists r,
    dumps (trace s') = dumps (trace s) ++ [r] /\
    lookup run (results_files s') = Some r /\
    forall j, j <> run ->
              lookup j (results_files s') = lookup j (results_files s).
Proof.
  intros H.
  destruct (epoch_body_effect _ _ _ _ _ _ _ _ _ H)
    as (q & val & nn & mid & last & r & t & t' & m & T & Dq & _ & Dm & _
        & Dl & _ & Dt & _ & _ & _ & Rf & _).
  exists r. split; [|split].
  - rewrite T, !dumps_app, Dq, Dm, Dl, Dt. reflexivity.
  - rewrite Rf, lookup_cons, Z.eqb_refl. reflexivity.
  - intros j Hj. rewrite Rf, lookup_cons.
    destruct (Z.eqb_spec run j); [congruence|reflexivity].
Qed.

Lemma memory_ops_app (a b : list Event) :
  Ledger.memory_ops (a ++ b) = Ledger.memory_ops a ++ Ledger.memory_ops b.
Proof. apply filter_app. Qed.

Lemma memory_ops_groups (ni nb : Z) (ks : list Z) :
  use_memory args = false ->
  Ledger.memory_ops (concat (map (group_events args ni nb) ks)) = [].
Proof.
  intros Um. induction ks as [|k ks IH]; [reflexivity|].
  cbn [map concat]. rewrite memory_ops_app, IH, app_nil_r.
  unfold group_events. rewrite Um, memory_ops_app. cbn. rewrite app_nil_r.
  induction (group_batches args nb k) as [|b l IHl]; [reflexivity|exact IHl].
Qed.

(** X10.  Without [--use_memory] a run never calls [tgn.memory]: its trace
    gains no initialisation, detach, backup or restore. *)
Theorem no_memory_ops_when_disabled (i : Z) (s : State) (u : unit)
    (s' : State) :
  use_memory args = false ->
  run_body args data i s = Ok (u, s') ->
  Ledger.memory_ops (trace s') = Ledger.memory_ops (trace s).
Proof.
  intros Um H.
  destruct (run_body_split _ _ _ _ _ _ H)
    as (nb & s0 & s1 & _ & T0 & _ & _ & _ & L & F).
  assert (Kstep : forall x st b st',
            Ledger.memory_ops (trace st) = Ledger.memory_ops (trace s0) ->
            epoch_body args data i (len (sources (train_data data))) nb x st
            = Ok (b, st') ->
            Ledger.memory_ops (trace st') = Ledger.memory_ops (trace s0)).
  { intros x st b st' Hst E.
    destruct (epoch_body_split _ _ _ _ _ _ _ _ _ E)
      as (start & x1 & val & nn_val & x2 & E1 & E2 & E3).
    destruct (train_phase_spec args data
                (len (sources (train_data data))) nb st) as [_ Tinv].
    destruct (Tinv start x1 E1) as (ks & t & _ & T1 & _ & _).
    destruct (validation_phase_spec args data x1)
      as (t1 & sm1 & val' & t2 & sm2 & nn' & x2' & _ & _ & V3 & _ & V5 & _).
    rewrite E2 in V3. injection V3 as _ _ <-.
    destruct (epoch_tail_spec _ _ _ _ _ _ _ _ E3)
      as (t' & last & _ & T3 & L3 & _).
    rewrite T3, V5, T1, Um, !memory_ops_app, memory_ops_groups by exact Um.
    rewrite Hst, L3. destruct b; cbn; rewrite !app_nil_r; reflexivity. }
  pose proof (for_break_inv _ _ _ Kstep s0 tt s1 eq_refl L) as K1.
  destruct (thresholdOpt s1) as [thr|] eqn:Et;
    [|rewrite (finish_unbound args data s1 Et) in F; discriminate F].
  destruct (finish_spec args data s1 thr Et)
    as (t1 & sm1 & s2 & _ & F' & _ & _ & _ & _ & _ & Tf).
  rewrite F in F'. injection F' as _ <-.
  rewrite Tf, Um, memory_ops_app, K1, T0. cbn. apply app_nil_r.
Qed.

End DriverEdges.

(** ** The exclusion step as an operation on rows *)

Section ExclusionAlgebra.

Import Select Tables.

Lemma combine_map_pair {A X Y} (f : A -> X) (g : A -> Y) (l : list A) :
  combine (map f l) (map g l) = map (fun a => (f a, g a)) l.
Proof.
  induction l as [|a l IH]; [reflexivity|]. cbn. rewrite IH. reflexivity.
Qed.

Lemma edges_of_edges (es : list edge) : edges (of_edges es) = es.
Proof.
  unfold edges, of_edges. cbn [sources destinations timestamps edge_idxs
                               labels].
  rewrite !combine_map_pair. rewrite <- (map_id es) at 2.
  apply map_ext. intros [[[[a b] c] d] e]. reflexivity.
Qed.

Lemma aligned_of_edges (es : list edge) : aligned (of_edges es).
Proof.
  unfold aligned, of_edges. cbn. rewrite !length_map. repeat split.
Qed.

Lemma map_snd_combine_eq {A B X} (f : B -> X) (g : A * B -> X)
    (a : list A) (b : list B) :
  length b = length a ->
  (forall p, g p = f (snd p)) ->
  map g (combine a b) = map f b.
Proof.
  intros H Hg. revert b H. induction a as [|x a IH]; intros b H.
  - destruct b; [reflexivity|discriminate].
  - destruct b as [|y b]; [discriminate|].
    cbn in *. injection H as H. rewrite IH, Hg by assumption. reflexivity.
Qed.

(** An aligned split is the table of its rows. *)
Lemma of_edges_edges (d : Data) : aligned d -> of_edges (edges d) = d.
Proof.
  intros (Hd & Ht & He & Hl). destruct d as [S D T E L]. cbn in *.
  unfold of_edges, edges. cbn [sources destinations timestamps edge_idxs
                               labels].
  f_equal.
  - rewrite (map_fst_combine_eq (fun q => fst (fst (fst q))) src);
      [|rewrite !length_combine; lia|reflexivity].
    rewrite (map_fst_combine_eq (fun q => fst (fst q)));
      [|rewrite !length_combine; lia|reflexivity].
    rewrite (map_fst_combine_eq (fun q => fst q));
      [|rewrite !length_combine; lia|reflexivity].
    rewrite (map_fst_combine_eq (fun q => q)); [apply map_id|lia|reflexivity].
  - rewrite (map_fst_combine_eq (fun q => snd (fst (fst q))) dst);
      [|rewrite !length_combine; lia|reflexivity].
    rewrite (map_fst_combine_eq (fun q => snd (fst q)));
      [|rewrite !length_combine; lia|reflexivity].
    rewrite (map_fst_combine_eq (fun q => snd q));
      [|rewrite !length_combine; lia|reflexivity].
    rewrite (map_snd_combine_eq (fun q => q)); [apply map_id|lia|reflexivity].
  - rewrite (map_fst_combine_eq (fun q => snd (fst q)) ts_of);
      [|rewrite !length_combine; lia|reflexivity].
    rewrite (map_fst_combine_eq (fun q => snd q));
      [|rewrite !length_combine; lia|reflexivity].
    rewrite (map_snd_combine_eq (fun q => q));
      [apply map_id|rewrite !length_combine; lia|reflexivity].
  - rewrite (map_fst_combine_eq (fun q => snd q) eidx_of);
      [|rewrite !length_combine; lia|reflexivity].
    rewrite (map_snd_combine_eq (fun q => q));
      [apply map_id|rewrite !length_combine; lia|reflexivity].
  - rewrite (map_snd_combine_eq (fun q => q) label_of);
      [apply map_id|rewrite !length_combine; lia|reflexivity].
Qed.

(** On an aligned split with a number of rows other than one the exclusion
    step is a filter on rows. *)
Lemma apply_exclusion_rows (d : Data) (sample : list Z) :
  aligned d -> length (sources d) <> 1%nat ->
  apply_inductive_experiment d (Some sample)
  = Ok (arrays (of_edges (filter (fun e => negb (touches sample e))
                                 (edges d)))).
Proof.
  intros Hal H1.
  destruct (apply_exclusion_selects d sample Hal H1) as (Ea & Al & Ed).
  rewrite Ea, <- Ed. rewrite (of_edges_edges _ Al). reflexivity.
Qed.

(** The step returns arrays only on a split with a number of rows other
    than one. *)
Lemma arrays_not_single (d d1 : Data) (sample : list Z) :
  aligned d ->
  apply_inductive_experiment d (Some sample) = Ok (arrays d1) ->
  length (sources d) <> 1%nat.
Proof.
  intros Hal H Hone. pose proof (edges_length d Hal) as Hlen.
  destruct (edges d) as [|e [|e2 es]] eqn:Ee; cbn in Hlen; try lia.
  rewrite (apply_exclusion_one d sample e Hal Ee) in H.
  destruct (touches sample e); discriminate H.
Qed.

Lemma sources_of_edges (es : list edge) :
  length (sources (of_edges es)) = length es.
Proof. unfold of_edges. cbn. apply length_map. Qed.

Lemma touches_nil (e : edge) : touches [] e = false.
Proof. reflexivity. Qed.

Lemma filter_all {A} (f : A -> bool) (l : list A) :
  (forall x, f x = true) -> filter f l = l.
Proof.
  intros H. induction l as [|x l IH]; [reflexivity|].
  cbn. rewrite H, IH. reflexivity.
Qed.

Lemma filter_twice {A} (f g : A -> bool) (l : list A) :
  filter g (filter f l) = filter (fun x => f x && g x) l.
Proof.
  induction l as [|x l IH]; [reflexivity|].
  cbn. destruct (f x); cbn; [destruct (g x)|]; rewrite IH; reflexivity.
Qed.

Lemma touches_app (s1 s2 : list Z) (e : edge) :
  touches (s1 ++ s2) e = touches s1 e || touches s2 e.
Proof.
  unfold touches, mem. rewrite !existsb_app.
  destruct (existsb _ s1), (existsb _ s2), (existsb _ s1), (existsb _ s2);
    reflexivity.
Qed.

(** X11.  Excluding the empty node collection leaves an aligned split with
    a number of rows other than one as it is: that, and not [None], is the
    selection that excludes nothing. *)
Theorem empty_selection_excludes_nothing (d : Data) :
  aligned d -> length (sources d) <> 1%nat ->
  apply_inductive_experiment d (Some []) = Ok (arrays d).
Proof.
  intros Hal H1. rewrite (apply_exclusion_rows d [] Hal H1).
  rewrite filter_all by reflexivity.
  rewrite (of_edges_edges d Hal). reflexivity.
Qed.

(** X12.  Exclusions compose: when excluding [s1] from an aligned split
    returns arrays with a number of rows other than one, excluding [s2] from
    them gives what excluding [s1 ++ s2] from the split at once gives, and a
    second exclusion of [s1] changes nothing. *)
Theorem exclusions_compose (d d1 : Data) (s1 s2 : list Z) :
  aligned d ->
  apply_inductive_experiment d (Some s1) = Ok (arrays d1) ->
  length (sources d1) <> 1%nat ->
  apply_inductive_experiment d1 (Some s2)
  = apply_inductive_experiment d (Some (s1 ++ s2)) /\
  apply_inductive_experiment d1 (Some s1) = Ok (arrays d1).
Proof.
  intros Hal H1 Hd1.
  pose proof (arrays_not_single d d1 s1 Hal H1) as Hd.
  rewrite (apply_exclusion_rows d s1 Hal Hd) in H1.
  assert (E : arrays (of_edges (filter (fun e => negb (touches s1 e))
                                       (edges d))) = arrays d1)
    by congruence.
  apply arrays_inj in E. subst d1. clear H1.
  rewrite !(apply_exclusion_rows _ _ (aligned_of_edges _) Hd1).
  rewrite (apply_exclusion_rows d _ Hal Hd), !edges_of_edges, !filter_twice.
  split; f_equal; f_equal; f_equal; apply filter_ext; intros e.
  - rewrite touches_app. destruct (touches s1 e), (touches s2 e); reflexivity.
  - destruct (touches s1 e); reflexivity.
Qed.

(** X13.  When a split has two or more sources and its five arrays are not
    all of one length, the exclusion step raises instead of returning. *)
Theorem misaligned_split_raises (d : Data) (sample : list Z) :
  (2 <= length (sources d))%nat ->
  ~ aligned d ->
  exists e, apply_inductive_experiment d (Some sample) = Err e.
Proof.
  intros H2 Hn.
  destruct (apply_inductive_experiment d (Some sample)) as [d'|e] eqn:E.
  - exfalso. apply Hn. eapply apply_exclusion_needs_alignment; eassumption.
  - exists e. reflexivity.
Qed.

End ExclusionAlgebra.

(** ** The selection step of the script *)

Section ScriptSelection.

Import Select Tables.

Context {RS : RandomSource}.
Variable g : rng.
Hypothesis Hrs : sample_spec RS.

(** The sensitive-inclusive draw: the sensitive ids, then the rest of the
    sample. *)
Lemma inclusive_draw (mal : list Z) (n k : Z) (q : float) :
  percent_of n q = Ok k ->
  len mal <= k <= len (range2 1 n) ->
  exists tail,
    (percent <- percent_of n q ;;
     sample <- random_sample g (range2 1 n) percent ;;
     sample <- assign_prefix sample mal ;;
     Ok (Some sample)) = Ok (Some (mal ++ tail)).
Proof.
  intros Hq Hk. destruct Hrs as [Hok _]. rewrite Hq. cbn [bind].
  destruct (Hok g (range2 1 n) k (NoDup_range2 1 n)) as (s & Es & Ls & _).
  { pose proof (Zle_0_nat (length mal)). unfold len in *. lia. }
  rewrite Es. cbn [bind]. rewrite assign_prefix_fits by lia. cbn [bind].
  eexists. reflexivity.
Qed.

Lemma script_percent (args_data : string) :
  exists k3 k5,
    percent_of (nb_nodes_of args_data) f0_3 = Ok k3 /\
    percent_of (nb_nodes_of args_data) f0_5 = Ok k5 /\
    len (malicious_src_nodes_of args_data) <= k3
      <= len (range2 1 (nb_nodes_of args_data)) /\
    len (malicious_src_nodes_of args_data) <= k5
      <= len (range2 1 (nb_nodes_of args_data)).
Proof.
  destruct percent_of_script_values as (P1 & P2 & P3 & P4).
  unfold nb_nodes_of, malicious_src_nodes_of.
  destruct (String.eqb args_data "OPTC").
  - exists 292, 487. rewrite P1, P3, len_range2.
    repeat split; cbn; lia.
  - exists 4683, 7805. rewrite P2, P4, len_range2.
    repeat split; cbn; lia.
Qed.

(** X14.  For either dataset and either sensitive-inclusive experiment, on
    an aligned training split with a number of edges other than one and
    whatever the random draw, lines 185-186 return arrays in which no edge
    has a malicious source node as source or as destination. *)
Theorem inclusive_experiments_remove_malicious (args_data tag : string)
    (train : Data) :
  tag = "Exp2" \/ tag = "Exp3" ->
  aligned train ->
  length (sources train) <> 1%nat ->
  exists train',
    exclude_inductive_nodes g args_data (Some tag) train
    = Ok (arrays train') /\
    aligned train' /\
    forall e m, In e (edges train') ->
                In m (malicious_src_nodes_of args_data) ->
                src e <> m /\ dst e <> m.
Proof.
  intros Htag Hal H1.
  destruct (script_percent args_data) as (k3 & k5 & P3 & P5 & B3 & B5).
  assert (Hsel : exists tail,
            compute_inductive_nodes (malicious_src_nodes_of args_data) g
              (Some tag) (nb_nodes_of args_data)
            = Ok (Some (malicious_src_nodes_of args_data ++ tail))).
  { destruct Htag as [-> | ->]; unfold compute_inductive_nodes;
      cbn [eq_str String.eqb Ascii.eqb Bool.eqb].
    - apply (inclusive_draw _ _ k3 f0_3 P3 B3).
    - apply (inclusive_draw _ _ k5 f0_5 P5 B5). }
  destruct Hsel as [tail Hsel].
  unfold exclude_inductive_nodes. rewrite Hsel. cbn [bind].
  rewrite (apply_exclusion_rows _ _ Hal H1).
  eexists. split; [reflexivity|]. split; [apply aligned_of_edges|].
  intros e m He Hm. rewrite edges_of_edges in He.
  apply filter_In in He. destruct He as [_ He].
  apply negb_true_iff in He. unfold touches in He.
  apply orb_false_iff in He. destruct He as [H1' H2].
  split; intros <-.
  - apply not_true_iff_false in H1'. apply H1', mem_In, in_or_app.
    left. exact Hm.
  - apply not_true_iff_false in H2. apply H2, mem_In, in_or_app.
    left. exact Hm.
Qed.

(** X15.  A sensitive-inclusive experiment on a graph so small that fewer
    ids are sampled than there are sensitive ids (two or more) raises: the
    slice assignment finds fewer slots than values. *)
Theorem inclusive_experiment_too_small (mal : list Z) (n k : Z)
    (tag : string) (q : float) :
  (tag = "Exp2" /\ q = f0_3) \/ (tag = "Exp3" /\ q = f0_5) ->
  percent_of n q = Ok k ->
  0 <= k <= len (range2 1 n) ->
  k < len mal -> 2 <= len mal ->
  compute_inductive_nodes mal g (Some tag) n = Err RuntimeError.
Proof.
  intros Htag Hq Hk Hlt H2. destruct Hrs as [Hok _].
  assert (Hpipe :
    (percent <- percent_of n q ;;
     sample <- random_sample g (range2 1 n) percent ;;
     sample <- assign_prefix sample mal ;;
     Ok (Some sample)) = Err RuntimeError).
  { rewrite Hq. cbn [bind].
    destruct (Hok g (range2 1 n) k (NoDup_range2 1 n) Hk)
      as (s & Es & Ls & _).
    rewrite Es. cbn [bind]. unfold assign_prefix, len in *.
    rewrite Nat.min_r by lia.
    destruct (Nat.eqb_spec (length mal) (length s)); [lia|].
    destruct mal as [|a [|b mal']]; cbn in H2; try lia. reflexivity. }
  destruct Htag as [[-> ->]|[-> ->]]; unfold compute_inductive_nodes;
    cbn [eq_str String.eqb Ascii.eqb Bool.eqb]; exact Hpipe.
Qed.

End ScriptSelection.

(** ** Re-indexing: the id space *)

Section ReindexIds.

Import Preprocess.

Lemma in_column_shift (f : row -> Z) (g : row -> row) (c : Z)
    (df : DataFrame) (z : Z) :
  (forall r, f (g r) = f r + c) ->
  In z (column f (map g df)) <-> In (z - c) (column f df).
Proof.
  intros Hf. unfold column. rewrite map_map, !in_map_iff. split.
  - intros (r & E & Hr). exists r. rewrite Hf in E. split; [lia|exact Hr].
  - intros (r & E & Hr). exists r. rewrite Hf. split; [lia|exact Hr].
Qed.

(** The frame a bipartite [reindex] returns once both asserts hold. *)
Lemma reindex_bipartite_value (df : DataFrame) (u_max : Z) :
  full_range (column u df) = true ->
  full_range (column i df) = true ->
  series_max (column u df) = Some u_max ->
  reindex df true
  = Ok (map (fun r => mkRow (u r + 1) (i r + (u_max + 1) + 1)
                            (ts r) (label r) (idx r + 1)) df).
Proof.
  intros Fu Fi Em. unfold reindex. rewrite Fu, Fi, Em. cbn [assert bind].
  rewrite !map_map. reflexivity.
Qed.

Lemma series_max_of_range (s : list Z) (lo hi : Z) :
  lo <= hi -> (forall z, In z s <-> lo <= z <= hi) ->
  series_max s = Some hi.
Proof.
  intros Hle Hin.
  assert (Hne : s <> []).
  { intros ->. apply (proj2 (Hin lo)). lia. }
  destruct (series_max_spec s Hne) as (m & Em & Im & Bm).
  rewrite Em. f_equal. apply Hin in Im.
  specialize (Bm hi (proj2 (Hin hi) ltac:(lia))). lia.
Qed.

(** The ids that a bipartite [reindex] returns on ids of magnitude below
    2^60 are of magnitude below 2^62 - 1. *)
Lemma reindex_ids_below (df df' : DataFrame) :
  small_ids df -> reindex df true = Ok df' -> ids_below (2 ^ 62 - 1) df'.
Proof.
  intros Hs H. unfold reindex in H.
  destruct (full_range (column u df)) eqn:Fu; [|discriminate H].
  destruct (full_range (column i df)) eqn:Fi; [|discriminate H].
  cbn [assert bind] in H.
  destruct (series_max (column u df)) as [u_max|] eqn:Em; [|discriminate H].
  rewrite !map_map in H. injection H as <-.
  assert (Hmax : - 2 ^ 60 <= u_max < 2 ^ 60).
  { destruct df as [|r0 df0]; [discriminate Em|].
    destruct (series_max_spec (column u (r0 :: df0))) as (m & Em' & Im & _);
      [discriminate|].
    rewrite Em in Em'. injection Em' as <-.
    unfold column in Im. apply in_map_iff in Im.
    destruct Im as (r & <- & Hr). apply (Hs r Hr). }
  intros r Hr. apply in_map_iff in Hr. destruct Hr as (r0 & <- & Hr0).
  destruct (Hs r0 Hr0) as (A1 & A2 & A3). cbn. lia.
Qed.

(** X16.  Whenever [reindex], computed on the int64 cells, returns on ids
    of magnitude below 2^60, in either mode, the frame keeps its length and
    its timestamps and labels
    row by row, and when the ids and edge indices of the input are
    non-negative those of the result are at least 1: index 0 is left
    free. *)
Theorem reindex_frees_index_zero (df df' : DataFrame) (bipartite : bool) :
  small_ids df ->
  reindex_int64 df bipartite = Ok df' ->
  (forall r, In r df -> 0 <= u r /\ 0 <= i r /\ 0 <= idx r) ->
  length df' = length df /\
  column ts df' = column ts df /\
  column label df' = column label df /\
  forall r, In r df' -> 1 <= u r /\ 1 <= i r /\ 1 <= idx r.
Proof.
  intros Hs H Hpos.
  rewrite (reindex_int64_exact df _ (small_ids_below df Hs)) in H.
  destruct bipartite.
  - unfold reindex in H.
    destruct (full_range (column u df)) eqn:Fu; [|discriminate H].
    destruct (full_range (column i df)) eqn:Fi; [|discriminate H].
    cbn [assert bind] in H.
    destruct (series_max (column u df)) as [u_max|] eqn:Em;
      [|discriminate H].
    rewrite !map_map in H. injection H as <-.
    assert (Hmax : 0 <= u_max).
    { destruct df as [|r0 df0]; [discriminate Em|].
      destruct (series_max_spec (column u (r0 :: df0))) as (m & Em' & Im & _);
        [discriminate|].
      rewrite Em in Em'. injection Em' as <-.
      unfold column in Im. apply in_map_iff in Im.
      destruct Im as (r & <- & Hr). apply (Hpos r Hr). }
    unfold column. rewrite length_map, !map_map.
    split; [reflexivity|]. split; [reflexivity|]. split; [reflexivity|].
    intros r Hr. apply in_map_iff in Hr. destruct Hr as (r0 & <- & Hr0).
    destruct (Hpos r0 Hr0) as (A1 & A2 & A3). cbn. lia.
  - unfold reindex in H. rewrite !map_map in H. injection H as <-.
    unfold column. rewrite length_map, !map_map.
    split; [reflexivity|]. split; [reflexivity|]. split; [reflexivity|].
    intros r Hr. apply in_map_iff in Hr. destruct Hr as (r0 & <- & Hr0).
    destruct (Hpos r0 Hr0) as (A1 & A2 & A3). cbn. lia.
Qed.

(** X17.  On a frame whose source ids are exactly [0..a] and whose
    destination ids are exactly [0..b], the bipartite [reindex] returns a
    frame whose source ids are exactly [1..a+1] and whose destination ids
    are exactly [a+2..a+b+2]: the two kinds of node share one gap-free id
    space that starts at 1. *)
Theorem bipartite_ids_are_compact (df : DataFrame) (a b : Z) :
  0 <= a -> 0 <= b ->
  (forall z, In z (column u df) <-> 0 <= z <= a) ->
  (forall z, In z (column i df) <-> 0 <= z <= b) ->
  exists df',
    reindex df true = Ok df' /\
    (forall z, In z (column u df') <-> 1 <= z <= a + 1) /\
    (forall z, In z (column i df') <-> a + 2 <= z <= a + b + 2).
Proof.
  intros Ha Hb Hu Hi.
  assert (Fu : full_range (column u df) = true).
  { apply full_range_contiguous. exists 0, a. split; assumption. }
  assert (Fi : full_range (column i df) = true).
  { apply full_range_contiguous. exists 0, b. split; assumption. }
  pose proof (series_max_of_range _ 0 a Ha Hu) as Em.
  rewrite (reindex_bipartite_value df a Fu Fi Em).
  eexists. split; [reflexivity|]. split; intros z.
  - rewrite (in_column_shift u _ 1) by reflexivity. rewrite Hu. lia.
  - rewrite (in_column_shift i _ (a + 1 + 1)) by (intros r; cbn; lia).
    rewrite Hi. lia.
Qed.

(** X18.  On ids of magnitude below 2^60, the result of a bipartite
    [reindex], computed on the int64 cells, passes its two asserts again:
    contiguous id columns stay contiguous. *)
Theorem reindex_keeps_contiguity (df df' : DataFrame) :
  small_ids df ->
  reindex_int64 df true = Ok df' ->
  contiguous (column u df') /\ contiguous (column i df') /\
  exists df'', reindex_int64 df' true = Ok df''.
Proof.
  intros Hs H.
  rewrite (reindex_int64_exact df _ (small_ids_below df Hs)) in H.
  rewrite (reindex_int64_exact df' true (reindex_ids_below df df' Hs H)).
  pose proof H as H0. unfold reindex in H.
  destruct (full_range (column u df)) eqn:Fu; [|discriminate H].
  destruct (full_range (column i df)) eqn:Fi; [|discriminate H].
  cbn [assert bind] in H.
  destruct (series_max (column u df)) as [u_max|] eqn:Em; [|discriminate H].
  clear H. rewrite (reindex_bipartite_value df u_max Fu Fi Em) in H0.
  injection H0 as <-.
  apply full_range_contiguous in Fu, Fi.
  destruct Fu as (lo & hi & Hle & Hin).
  destruct Fi as (lo' & hi' & Hle' & Hin').
  assert (Cu : contiguous (column u (map (fun r =>
                 mkRow (u r + 1) (i r + (u_max + 1) + 1) (ts r) (label r)
                       (idx r + 1)) df))).
  { exists (lo + 1), (hi + 1). split; [lia|]. intros z.
    rewrite (in_column_shift u _ 1) by reflexivity. rewrite Hin. lia. }
  assert (Ci : contiguous (column i (map (fun r =>
                 mkRow (u r + 1) (i r + (u_max + 1) + 1) (ts r) (label r)
                       (idx r + 1)) df))).
  { exists (lo' + (u_max + 1 + 1)), (hi' + (u_max + 1 + 1)).
    split; [lia|]. intros z.
    rewrite (in_column_shift i _ (u_max + 1 + 1)) by (intros r; cbn; lia).
    rewrite Hin'. lia. }
  split; [exact Cu|]. split; [exact Ci|].
  apply full_range_contiguous in Cu. apply full_range_contiguous in Ci.
  unfold reindex. rewrite Cu, Ci. cbn [assert bind].
  match goal with
  | |- context [series_max (column u (map ?f df))] =>
      destruct (series_max (column u (map f df))) eqn:E2;
      [eexists; reflexivity|];
      unfold full_range in Cu; rewrite E2 in Cu; discriminate Cu
  end.
Qed.

End ReindexIds.

(** ** Ingestion *)

Section IngestFacts.

Import Preprocess Ingest.

Context {B : Builtins}.

Lemma bind_ok_inv {X Y} (r : Result X) (k : X -> Result Y) (y : Y) :
  bind r k = Ok y -> exists x, r = Ok x /\ k x = Ok y.
Proof.
  destruct r as [x|e]; cbn; [eauto|discriminate].
Qed.

Lemma item_at_ok (e : list string) (k : nat) (x : string) :
  item_at e k = Ok x -> (k < length e)%nat.
Proof.
  unfold item_at. destruct (nth_error e k) eqn:E; [|discriminate].
  intros _. apply nth_error_Some. congruence.
Qed.

(** A line that parses has at least ten fields; its row carries the running
    index and four features. *)
Lemma parse_line_ok (n : Z) (line : string) (r : row) (f : list float) :
  parse_line n line = Ok (r, f) ->
  idx r = n /\ length f = 4%nat /\
  (10 <= length (split_comma (strip line)))%nat.
Proof.
  unfold parse_line. intros H.
  repeat match type of H with
         | bind _ _ = Ok _ =>
             apply bind_ok_inv in H; let x := fresh "x" in
             let Hx := fresh "Hx" in destruct H as (x & Hx & H)
         end.
  injection H as <- <-.
  repeat match goal with
         | Hx : bind (item_at _ _) _ = Ok _ |- _ =>
             apply bind_ok_inv in Hx;
             let y := fresh "y" in let Hy := fresh "Hy" in
             destruct Hx as (y & Hy & _); apply item_at_ok in Hy
         end.
  cbn. repeat split; lia.
Qed.

Lemma read_lines_ok (n : Z) (lines : list string) (rows : DataFrame)
    (feats : list (list float)) (rows' : DataFrame)
    (feats' : list (list float)) :
  read_lines n lines rows feats = Ok (rows', feats') ->
  exists nr nf,
    rows' = rows ++ nr /\ feats' = feats ++ nf /\
    length nr = length lines /\ length nf = length lines /\
    forall k line, nth_error lines k = Some line ->
      exists r f, nth_error nr k = Some r /\ nth_error nf k = Some f /\
                  parse_line (n + Z.of_nat k) line = Ok (r, f).
Proof.
  revert n rows feats. induction lines as [|l lines IH]; intros n rows feats H.
  - injection H as <- <-. exists [], []. rewrite !app_nil_r.
    repeat split. intros k line Hk. destruct k; discriminate Hk.
  - cbn [read_lines] in H. apply bind_ok_inv in H.
    destruct H as ([r0 f0] & Hp & H). cbn [fst snd] in H.
    destruct (IH _ _ _ H) as (nr & nf & -> & -> & Lr & Lf & Hk).
    exists (r0 :: nr), (f0 :: nf). rewrite <- !app_assoc. cbn.
    split; [reflexivity|]. split; [reflexivity|].
    split; [lia|]. split; [lia|].
    intros k line Hl. destruct k as [|k].
    + injection Hl as <-. exists r0, f0. rewrite Z.add_0_r. auto.
    + destruct (Hk k line Hl) as (r & f & A1 & A2 & A3).
      exists r, f. split; [exact A1|]. split; [exact A2|].
      rewrite <- A3. f_equal. lia.
Qed.

(** A frame comes from a file with a first line and from reading the
    others. *)
Lemma preprocess_lines (file : list string) (df : DataFrame)
    (feats : list (list float)) :
  preprocess file = Read (df, feats) ->
  exists header lines,
    file = header :: lines /\ read_lines 0 lines [] [] = Ok (df, feats).
Proof.
  unfold preprocess. intros H. destruct file as [|header lines];
    [discriminate H|].
  destruct (read_lines 0 lines [] []) as [[df0 feats0]|e] eqn:E;
    [|discriminate H].
  injection H as -> ->. exists header, lines. split; [reflexivity|exact E].
Qed.

(** X19.  When [preprocess] returns, the first line of the file has been
    skipped unread, the frame and the feature array have one row per
    remaining line, in file order, and the [idx] column numbers those lines
    from 0; every feature row has four entries. *)
Theorem preprocess_rows (header : string) (lines : list string)
    (df : DataFrame) (feats : list (list float)) :
  preprocess (header :: lines) = Read (df, feats) ->
  length df = length lines /\ length feats = length lines /\
  forall k line, nth_error lines k = Some line ->
    exists r f,
      nth_error df k = Some r /\ nth_error feats k = Some f /\
      parse_line (Z.of_nat k) line = Ok (r, f) /\
      idx r = Z.of_nat k /\ length f = 4%nat.
Proof.
  intros H. destruct (preprocess_lines _ _ _ H) as (h & ls & Ef & E).
  injection Ef as _ <-.
  destruct (read_lines_ok _ _ _ _ _ _ E)
    as (nr & nf & -> & -> & Lr & Lf & Hk).
  cbn [app]. split; [exact Lr|]. split; [exact Lf|].
  intros k line Hl. destruct (Hk k line Hl) as (r & f & A1 & A2 & A3).
  cbn in A3. destruct (parse_line_ok _ _ _ _ A3) as (I1 & I2 & _).
  exists r, f. auto.
Qed.

(** X20.  When a line after the first has fewer than ten comma-separated
    fields (a blank line, say), [preprocess] raises and returns no frame,
    whatever the other lines hold. *)
Theorem preprocess_rejects_short_lines (header : string)
    (lines : list string) (line : string) :
  In line lines ->
  (length (split_comma (strip line)) < 10)%nat ->
  exists e, preprocess (header :: lines) = Raised e.
Proof.
  intros Hin Hshort. unfold preprocess.
  destruct (read_lines 0 lines [] []) as [[df feats]|e] eqn:E;
    [|exists e; reflexivity].
  exfalso.
  destruct (read_lines_ok _ _ _ _ _ _ E) as (nr & nf & _ & _ & _ & _ & Hk).
  destruct (In_nth_error _ _ Hin) as [k Hl].
  destruct (Hk k line Hl) as (r & f & _ & _ & A3).
  destruct (parse_line_ok _ _ _ _ A3) as (_ & _ & Hlen). lia.
Qed.

Lemma reindex_rows (df df' : DataFrame) (bipartite : bool) :
  reindex df bipartite = Ok df' ->
  exists g : row -> row,
    df' = map g df /\ forall r, idx (g r) = idx r + 1.
Proof.
  intros H. unfold reindex in H. destruct bipartite.
  - destruct (full_range (column u df)); [|discriminate H].
    destruct (full_range (column i df)); [|discriminate H].
    cbn [assert bind] in H.
    destruct (series_max (column u df)); [|discriminate H].
    rewrite !map_map in H. injection H as <-.
    eexists. split; [reflexivity|]. reflexivity.
  - rewrite !map_map in H. injection H as <-.
    eexists. split; [reflexivity|]. reflexivity.
Qed.

(** What [run] has done when it returns. *)
Lemma run_read (file : list string) (bipartite : bool) (out : Output) :
  run file bipartite = Read out ->
  exists df feats width mu mi,
    preprocess file = Read (df, feats) /\
    reindex df bipartite = Ok (out_df out) /\
    shape_1 feats = Ok width /\
    out_feat out = repeat f_zero (Z.to_nat width) :: feats /\
    series_max (column u (out_df out)) = Some mu /\
    series_max (column i (out_df out)) = Some mi /\
    eye (Z.max mu mi + 1) 10 = Ok (out_node_feat out).
Proof.
  unfold run. intros H.
  destruct (preprocess file) as [[df feats]| |e] eqn:Ep; try discriminate H.
  destruct (reindex df bipartite) as [new_df|e] eqn:Er; [|discriminate H].
  cbn [bind] in H.
  destruct (shape_1 feats) as [width|e] eqn:Ew; [|discriminate H].
  cbn [bind] in H.
  destruct (series_max (column u new_df)) as [mu|] eqn:Eu;
    [|discriminate H].
  destruct (series_max (column i new_df)) as [mi|] eqn:Ei;
    [|discriminate H].
  destruct (eye (Z.max mu mi + 1) 10) as [rand|e] eqn:Ee; [|discriminate H].
  cbn in H. injection H as <-.
  exists df, feats, width, mu, mi. cbn [out_df out_feat out_node_feat].
  repeat (split; [first [reflexivity | assumption]|]). assumption.
Qed.

(** X21.  When [run] returns, row 0 of the saved edge features is the zero
    row, and the [idx] of the [k]-th row of the saved frame is [k + 1] and
    points at the features read from the same line of the file. *)
Theorem run_keeps_features_aligned (file : list string) (bipartite : bool)
    (out : Output) :
  run file bipartite = Read out ->
  exists df feats,
    preprocess file = Read (df, feats) /\
    nth_error (out_feat out) 0 = Some (repeat f_zero 4) /\
    forall k r, nth_error (out_df out) k = Some r ->
      idx r = Z.of_nat k + 1 /\
      nth_error (out_feat out) (Z.to_nat (idx r)) = nth_error feats k.
Proof.
  intros H.
  destruct (run_read _ _ _ H)
    as (df & feats & width & mu & mi & Hp & Hr & Hw & Hf & _).
  exists df, feats. split; [exact Hp|].
  destruct (preprocess_lines _ _ _ Hp) as (header & lines & _ & E).
  destruct (read_lines_ok _ _ _ _ _ _ E)
    as (nr & nf & Edf & Efe & Ld & Lf & Hk).
  cbn [app] in Edf, Efe. subst nr nf.
  destruct (reindex_rows _ _ _ Hr) as (g & Hg & Hidx).
  split.
  - rewrite Hf. cbn. f_equal. f_equal.
    destruct feats as [|f0 feats0]; [discriminate Hw|].
    injection Hw as <-.
    destruct lines as [|l0 lines0]; [discriminate Lf|].
    destruct (Hk 0%nat l0 eq_refl) as (r & f & _ & Hf0 & P0).
    injection Hf0 as ->.
    destruct (parse_line_ok _ _ _ _ P0) as (_ & L4 & _).
    unfold len. rewrite L4. reflexivity.
  - intros k r Hn. rewrite Hg, nth_error_map in Hn.
    destruct (nth_error df k) as [r0|] eqn:E0; [|discriminate Hn].
    injection Hn as <-.
    assert (Hlt : (k < length lines)%nat).
    { rewrite <- Ld. apply nth_error_Some. congruence. }
    destruct (nth_error lines k) as [line|] eqn:El;
      [|apply nth_error_None in El; lia].
    destruct (Hk k line El) as (r & f & A1 & A2 & P).
    rewrite E0 in A1. injection A1 as ->.
    destruct (parse_line_ok _ _ _ _ P) as (A4 & _).
    rewrite Hidx, A4. split; [cbn; lia|].
    rewrite Hf. replace (Z.to_nat (0 + Z.of_nat k + 1)) with (S k) by lia.
    reflexivity.
Qed.

(** X22.  When [run] returns, the saved node-feature table has ten columns
    and more rows than the largest node id of the saved frame, so every
    source and destination id below it indexes a row. *)
Theorem run_node_table_covers_ids (file : list string) (bipartite : bool)
    (out : Output) :
  run file bipartite = Read out ->
  (forall r, In r (out_df out) ->
             u r < len (out_node_feat out) /\
             i r < len (out_node_feat out)) /\
  forall row, In row (out_node_feat out) -> len row = 10.
Proof.
  intros H.
  destruct (run_read _ _ _ H)
    as (df & feats & width & mu & mi & _ & _ & _ & _ & Eu & Ei & Ee).
  unfold eye in Ee.
  destruct (Z.ltb_spec (Z.max mu mi + 1) 0); [discriminate Ee|].
  injection Ee as Ee. rewrite <- Ee. split.
  - intros r Hr.
    assert (Hnu : column u (out_df out) <> [])
      by (intros E; rewrite E in Eu; discriminate Eu).
    assert (Hni : column i (out_df out) <> [])
      by (intros E; rewrite E in Ei; discriminate Ei).
    destruct (series_max_spec _ Hnu) as (m1 & E1 & _ & B1).
    destruct (series_max_spec _ Hni) as (m2 & E2 & _ & B2).
    rewrite Eu in E1. injection E1 as <-.
    rewrite Ei in E2. injection E2 as <-.
    specialize (B1 (u r) (in_map u _ _ Hr)).
    specialize (B2 (i r) (in_map i _ _ Hr)).
    unfold len. rewrite length_map. fold (len (range1 (Z.max mu mi + 1))).
    unfold range1. rewrite len_range2. lia.
  - intros row Hrow. apply in_map_iff in Hrow.
    destruct Hrow as (x & <- & _). reflexivity.
Qed.

End IngestFacts.

(** ** Runs at the edges *)

Section CornerRuns.

Import Select Preprocess Train Ingest Tables.

Local Abbreviation toy := Toy.collaborators.

Lemma zero_batch_size_raises_witness :
  bs Corner.no_batch_size = 0 /\
  run_body (C := toy) Corner.no_batch_size Toy.data 0 Toy.init
  = Err ZeroDivisionError.
Proof.
  split; [reflexivity|].
  apply (zero_batch_size_raises (C := toy)). reflexivity.
Defined.

Lemma no_epoch_raises_name_error_witness :
  n_epoch Corner.no_epoch <= 0 /\ bs Corner.no_epoch <> 0 /\
  thresholdOpt Toy.init = None /\
  run_body (C := toy) Corner.no_epoch Toy.data 0 Toy.init = Err NameError.
Proof.
  split; [cbn; lia|]. split; [discriminate|]. split; [reflexivity|].
  apply (no_epoch_raises_name_error (C := toy));
    [cbn; lia|discriminate|reflexivity].
Defined.

Lemma zero_group_size_raises_witness :
  backprop_every Corner.no_group_size = 0 /\
  bs Corner.no_group_size <> 0 /\ 0 < n_epoch Corner.no_group_size /\
  run_body (C := toy) Corner.no_group_size Toy.data 0 Toy.init
  = Err (ValueError "range() arg 3 must not be zero").
Proof.
  split; [reflexivity|]. split; [discriminate|]. split; [reflexivity|].
  apply (zero_group_size_raises (C := toy));
    [reflexivity|discriminate|reflexivity].
Defined.

Lemma empty_group_range_trains_nothing_witness :
  backprop_every Corner.negative_group_size < 0 /\
  exists start s',
    train_phase (C := toy) Corner.negative_group_size Toy.data 6 3 Toy.init
    = Ok (start, s') /\
    trace s' = [EvInitMemory (C := toy)] /\ m_loss s' = [].
Proof.
  split; [reflexivity|].
  destruct (empty_group_range_trains_nothing (C := toy)
              Corner.negative_group_size Toy.data 6 3 Toy.init)
    as (start & s' & E & T & M & _).
  - left. split; [reflexivity|discriminate].
  - exists start, s'. split; [exact E|]. split; [exact T|exact M].
Defined.

Lemma one_update_per_group_witness :
  exists start,
    train_phase (C := toy) Toy.args Toy.data 6 3 Toy.init
    = Ok (start, Toy.after_training) /\
    len (m_loss Toy.after_training) = 2 /\
    len (Ledger.updates (trace Toy.after_training))
    = len (Ledger.updates (trace Toy.init))
      + len (m_loss Toy.after_training).
Proof.
  exists (float_of_int 0). split; [reflexivity|]. split; [reflexivity|].
  destruct (one_update_per_group (C := toy) Toy.args Toy.data 6 3 Toy.init
              (float_of_int 0) Toy.after_training eq_refl)
    as [_ U]; [discriminate|reflexivity|].
  exact U.
Defined.

Lemma checkpoint_round_trip_witness :
  epoch_body (C := toy) Toy.args Toy.data 0 6 3 0 Toy.init
  = Ok (false, Toy.after_epoch) /\
  lookup 0 (checkpoints Toy.after_epoch)
  = Some (state_dict (tgn Toy.after_epoch)).
Proof.
  split; [reflexivity|].
  apply (checkpoint_round_trip (C := toy) Toy.args Toy.data 0 6 3 0 Toy.init
           Toy.after_epoch).
  reflexivity.
Defined.

Lemma early_stop_reloads_best_witness :
  early_stop_check (early_stopper Corner.stopping) (ap Corner.val)
  = (-1, true) /\
  exists s',
    epoch_tail (C := toy) 0 1 Toy.f0 Corner.val Corner.val Corner.stopping
    = Ok (true, s') /\
    tgn s' = (3, 7) /\ checkpoints s' = checkpoints Corner.stopping.
Proof.
  split; [reflexivity|].
  exact (early_stop_reloads_best (C := toy) 0 1 Toy.f0 Corner.val Corner.val
           Corner.stopping (-1) eq_refl).
Defined.

Lemma results_file_overwritten_witness :
  epoch_body (C := toy) Toy.args Toy.data 0 6 3 0 Toy.init
  = Ok (false, Toy.after_epoch) /\
  exists r,
    dumps (trace Toy.after_epoch) = dumps (trace Toy.init) ++ [r] /\
    lookup 0 (results_files Toy.after_epoch) = Some r.
Proof.
  split; [reflexivity|].
  destruct (results_file_overwritten (C := toy) Toy.args Toy.data 0 6 3 0
              Toy.init false Toy.after_epoch eq_refl)
    as (r & D & L & _).
  exists r. split; [exact D|exact L].
Defined.

Lemma no_memory_ops_when_disabled_witness :
  use_memory Corner.no_memory = false /\
  run_body (C := toy) Corner.no_memory Toy.data 0 Toy.init
  = Ok (tt, Corner.after_run_no_memory) /\
  Ledger.memory_ops (trace Corner.after_run_no_memory)
  = Ledger.memory_ops (trace Toy.init).
Proof.
  split; [reflexivity|]. split; [reflexivity|].
  apply (no_memory_ops_when_disabled (C := toy) Corner.no_memory Toy.data 0
           Toy.init tt Corner.after_run_no_memory);
    reflexivity.
Defined.

Lemma empty_selection_excludes_nothing_witness :
  aligned Toy.three_edges /\ length (sources Toy.three_edges) <> 1%nat /\
  apply_inductive_experiment Toy.three_edges (Some [])
  = Ok (arrays Toy.three_edges).
Proof.
  split; [repeat split|]. split; [discriminate|].
  apply (empty_selection_excludes_nothing Toy.three_edges);
    [repeat split|discriminate].
Defined.

Lemma exclusions_compose_witness :
  aligned Toy.five_edges /\
  exists d1,
    apply_inductive_experiment Toy.five_edges (Some [1]) = Ok (arrays d1) /\
    length (sources d1) = 3%nat /\
    apply_inductive_experiment d1 (Some [5])
    = apply_inductive_experiment Toy.five_edges (Some [1; 5]) /\
    apply_inductive_experiment d1 (Some [1]) = Ok (arrays d1).
Proof.
  split; [repeat split|].
  exists (mkData [2; 3; 2] [5; 4; 4]
            [float_of_int 2; float_of_int 3; float_of_int 5] [2; 3; 5]
            [Toy.f0; Toy.f0; Toy.f0]).
  split; [reflexivity|]. split; [reflexivity|].
  apply (exclusions_compose Toy.five_edges _ [1] [5]);
    [repeat split|reflexivity|discriminate].
Defined.

Lemma misaligned_split_raises_witness :
  (2 <= length (sources Corner.ragged))%nat /\ ~ aligned Corner.ragged /\
  exists e, apply_inductive_experiment Corner.ragged (Some [1]) = Err e.
Proof.
  assert (H : ~ aligned Corner.ragged) by (intros [H _]; discriminate H).
  split; [cbn; lia|]. split; [exact H|].
  apply (misaligned_split_raises Corner.ragged [1]); [cbn; lia|exact H].
Defined.

Lemma inclusive_experiments_remove_malicious_witness :
  aligned Toy.three_edges /\ length (sources Toy.three_edges) <> 1%nat /\
  exists train',
    exclude_inductive_nodes (RS := first_k_source) tt "OPTC" (Some "Exp2")
      Toy.three_edges = Ok (arrays train') /\
    aligned train' /\
    forall e m, In e (edges train') ->
                In m (malicious_src_nodes_of "OPTC") ->
                src e <> m /\ dst e <> m.
Proof.
  split; [repeat split|]. split; [discriminate|].
  apply (inclusive_experiments_remove_malicious (RS := first_k_source) tt
           first_k_meets_spec "OPTC" "Exp2" Toy.three_edges);
    [left; reflexivity|repeat split|discriminate].
Defined.

Lemma inclusive_experiment_too_small_witness :
  percent_of 3 f0_3 = Ok 0 /\
  compute_inductive_nodes (RS := first_k_source) [1; 2] tt (Some "Exp2") 3
  = Err RuntimeError.
Proof.
  assert (H : percent_of 3 f0_3 = Ok 0) by (vm_compute; reflexivity).
  split; [exact H|].
  apply (inclusive_experiment_too_small (RS := first_k_source) tt
           first_k_meets_spec [1; 2] 3 0 "Exp2" f0_3);
    [left; split; reflexivity|exact H|rewrite len_range2; lia
    |reflexivity|discriminate].
Defined.

Lemma reindex_frees_index_zero_witness :
  small_ids Toy.frame_contiguous /\
  exists df',
    reindex_int64 Toy.frame_contiguous true = Ok df' /\
    length df' = 3%nat /\
    forall r, In r df' -> 1 <= u r /\ 1 <= i r /\ 1 <= idx r.
Proof.
  assert (S : small_ids Toy.frame_contiguous)
    by (intros r [<-|[<-|[<-|[]]]]; cbn; lia).
  split; [exact S|].
  eexists. split; [reflexivity|].
  destruct (reindex_frees_index_zero Toy.frame_contiguous _ true S eq_refl)
    as (L & _ & _ & P).
  - intros r [<-|[<-|[<-|[]]]]; cbn; lia.
  - split; [exact L|exact P].
Defined.

Lemma bipartite_ids_are_compact_witness :
  exists df',
    reindex Toy.frame_contiguous true = Ok df' /\
    (forall z, In z (column u df') <-> 1 <= z <= 2) /\
    (forall z, In z (column i df') <-> 3 <= z <= 4).
Proof.
  apply (bipartite_ids_are_compact Toy.frame_contiguous 1 1);
    try lia; intros z;
    cbn; lia.
Defined.

Lemma reindex_keeps_contiguity_witness :
  small_ids Toy.frame_contiguous /\
  exists df',
    reindex_int64 Toy.frame_contiguous true = Ok df' /\
    contiguous (column u df') /\ contiguous (column i df') /\
    exists df'', reindex_int64 df' true = Ok df''.
Proof.
  assert (S : small_ids Toy.frame_contiguous)
    by (intros r [<-|[<-|[<-|[]]]]; cbn; lia).
  split; [exact S|].
  eexists. split; [reflexivity|].
  apply (reindex_keeps_contiguity Toy.frame_contiguous _ S). reflexivity.
Defined.

Lemma preprocess_rows_witness :
  exists df feats,
    preprocess (B := Corner.builtins) Corner.csv = Read (df, feats) /\
    length df = 3%nat /\ length feats = 3%nat /\
    column u df = [0; 1; 0] /\ column idx df = [0; 1; 2].
Proof.
  eexists. eexists. split; [reflexivity|].
  destruct (preprocess_rows (B := Corner.builtins)
              ("ts,u,i,a,b,f5,f6,f7,f8,label" ++ Corner.nl)%string
              (tl Corner.csv) _ _ eq_refl)
    as (L1 & L2 & _).
  split; [exact L1|]. split; [exact L2|]. split; reflexivity.
Defined.

Lemma preprocess_rejects_short_lines_witness :
  exists e, preprocess (B := Corner.builtins) Corner.csv_short = Raised e.
Proof.
  apply (preprocess_rejects_short_lines (B := Corner.builtins)
           ("ts,u,i,a,b,f5,f6,f7,f8,label" ++ Corner.nl)%string
           [("10,0,1" ++ Corner.nl)%string]
           ("10,0,1" ++ Corner.nl)%string).
  - left. reflexivity.
  - vm_compute. lia.
Defined.

Lemma run_keeps_features_aligned_witness :
  exists out df feats,
    run (B := Corner.builtins) Corner.csv true = Read out /\
    preprocess (B := Corner.builtins) Corner.csv = Read (df, feats) /\
    nth_error (out_feat out) 0 = Some (repeat f_zero 4) /\
    forall k r, nth_error (out_df out) k = Some r ->
      idx r = Z.of_nat k + 1 /\
      nth_error (out_feat out) (Z.to_nat (idx r)) = nth_error feats k.
Proof.
  eexists.
  destruct (run_keeps_features_aligned (B := Corner.builtins) Corner.csv true
              _ eq_refl)
    as (df & feats & P & Z0 & A).
  exists df, feats. split; [reflexivity|]. split; [exact P|].
  split; [exact Z0|exact A].
Defined.

Lemma run_node_table_covers_ids_witness :
  exists out,
    run (B := Corner.builtins) Corner.csv true = Read out /\
    len (out_node_feat out) = 5 /\
    forall r, In r (out_df out) ->
              u r < len (out_node_feat out) /\ i r < len (out_node_feat out).
Proof.
  eexists. split; [reflexivity|]. split; [reflexivity|].
  apply (run_node_table_covers_ids (B := Corner.builtins) Corner.csv true).
  reflexivity.
Defined.

End CornerRuns.
